(** * grants-gov-foa-ingestor: the field-extraction engine of [main.py]

    A shallow embedding of the extraction and normalisation functions of
    [main.py] ([clean_text], [to_iso_date], [extract_title],
    [extract_opportunity_id], [find_label], [extract_links], [apply_tags],
    [drop_empty_fields], [first_date_token], the record assembly of the
    script body and the row of the CSV file), with the properties the
    specification states about them and further properties that the code
    has.

    Modelling conventions.
    - A Python [str] is a list of characters, [pystr := list ascii]; the
      characters are the code points 0..255 and the character classes
      ([\s], [\d], [\w], [str.lower], [str.strip]) are Python's on that range.
    - [re] is modelled by a backtracking matcher over the constructs that
      the patterns of [main.py] use; every pattern of the source is written
      as a term of [regex] next to the function that uses it.
    - A Python call either returns or raises: [result A].
    - The parsed page is what the functions ask of it: the [<a>] elements
      in document order, the strings of the first [h1] and of the [title]
      element, the joined text of the page. Fetching and parsing the page
      and writing the files are outside the embedding. *)

From Stdlib Require Import Ascii String.
From Stdlib Require Import List Bool Arith Lia Permutation.
From Stdlib Require Import Sorting.Sorted.
Import ListNotations.

Set Implicit Arguments.
Unset Strict Implicit.

(* ================================================================== *)
(** * Characters and strings *)

Definition pystr := list ascii.

Definition str (s : string) : pystr := list_ascii_of_string s.

Definition code (c : ascii) : nat := nat_of_ascii c.

Definition between (lo hi : nat) (c : ascii) : bool :=
  (lo <=? code c) && (code c <=? hi).

Definition ascii_eqb (a b : ascii) : bool := Ascii.eqb a b.

(** [str.isspace] on one character, which is also the class [\s] of [re]
    and the set that [str.strip()] removes. *)
Definition is_space (c : ascii) : bool :=
  between 9 13 c || between 28 32 c || (code c =? 133) || (code c =? 160).

(** The class [\d]. *)
Definition is_digit (c : ascii) : bool := between 48 57 c.

(** The class [[A-Za-z]]. *)
Definition is_alpha (c : ascii) : bool := between 65 90 c || between 97 122 c.

(** The class [[0-9a-fA-F-]] of [extract_opportunity_id]. *)
Definition is_hex (c : ascii) : bool :=
  between 48 57 c || between 97 102 c || between 65 70 c.

Definition is_hex_or_dash (c : ascii) : bool := is_hex c || (code c =? 45).

(** The class [\w]: [str.isalnum] or an underscore. *)
Definition is_word (c : ascii) : bool :=
  is_digit c || is_alpha c || (code c =? 95)
  || (code c =? 170) || (code c =? 178) || (code c =? 179) || (code c =? 181)
  || (code c =? 185) || (code c =? 186) || between 188 190 c
  || between 192 214 c || between 216 246 c || between 248 255 c.

(** [.] without DOTALL: anything but a newline. *)
Definition dot (c : ascii) : bool := negb (code c =? 10).

(** [str.lower] on one character. *)
Definition lower_char (c : ascii) : ascii :=
  if between 65 90 c || (between 192 222 c && negb (code c =? 215))
  then ascii_of_nat (code c + 32) else c.

Definition lower (s : pystr) : pystr := map lower_char s.

Fixpoint str_eqb (a b : pystr) : bool :=
  match a, b with
  | [], [] => true
  | x :: a', y :: b' => ascii_eqb x y && str_eqb a' b'
  | _, _ => false
  end.

Fixpoint drop_while (p : ascii -> bool) (s : pystr) : pystr :=
  match s with
  | c :: s' => if p c then drop_while p s' else s
  | [] => []
  end.

Fixpoint take_while (p : ascii -> bool) (s : pystr) : pystr :=
  match s with
  | c :: s' => if p c then c :: take_while p s' else []
  | [] => []
  end.

(** [s.strip()] *)
Definition strip (s : pystr) : pystr :=
  rev (drop_while is_space (rev (drop_while is_space s))).

(** [s.startswith(p)] *)
Fixpoint startswith (p s : pystr) : bool :=
  match p, s with
  | [], _ => true
  | x :: p', y :: s' => ascii_eqb x y && startswith p' s'
  | _ :: _, [] => false
  end.

(** [s.endswith(p)] *)
Definition endswith (p s : pystr) : bool := startswith (rev p) (rev s).

(** [p in s] for strings. *)
Fixpoint contains (p s : pystr) : bool :=
  startswith p s || match s with [] => false | _ :: s' => contains p s' end.

(** [sep.join(l)] *)
Fixpoint join (sep : pystr) (l : list pystr) : pystr :=
  match l with
  | [] => []
  | [x] => x
  | x :: l' => x ++ sep ++ join sep l'
  end.

(** Truthiness of an optional string: [None] and [""] are false. *)
Definition truthy (s : option pystr) : bool :=
  match s with Some (_ :: _) => true | _ => false end.

(** [s or ""] *)
Definition or_empty (s : option pystr) : pystr :=
  match s with Some x => x | None => [] end.

(* ================================================================== *)
(** * Returning and raising *)

Inductive exn : Type := ValueError | AttributeError | TypeError.

Inductive result (A : Type) : Type :=
| Ok (a : A)
| Raise (e : exn).

Arguments Ok {A} a.
Arguments Raise {A} e.

Definition bind {A B} (m : result A) (f : A -> result B) : result B :=
  match m with Ok a => f a | Raise e => Raise e end.

Notation "x <- m ;; k" := (bind m (fun x => k))
  (at level 61, m at next level, right associativity).

(* ================================================================== *)
(** * The regular expressions of [re] that the source uses *)

Inductive regex : Type :=
| Eps
| Chr (c : ascii)                       (* a literal character *)
| Cls (p : ascii -> bool)               (* \s \d . [...] *)
| Seq (r1 r2 : regex)
| Alt (r1 r2 : regex)                   (* r1|r2 *)
| Rep (greedy : bool) (lo : nat) (hi : option nat) (p : ascii -> bool)
                                        (* p* p+ p{lo,hi} and p*? *)
| Grp (n : nat) (r : regex)             (* a capturing group *)
| Ahead (r : regex)                     (* (?=r) *)
| Eos                                   (* $ *)
| Bnd.                                  (* \b *)

(** The matcher's position in the text: the characters already passed
    (nearest first), the characters to come, and the groups captured. *)
Record mstate : Type := MState {
  seen : pystr;
  rest : pystr;
  caps : list (nat * pystr)
}.

Definition cont := mstate -> option mstate.

Definition hi_zero (hi : option nat) : bool :=
  match hi with Some 0 => true | _ => false end.

Definition hi_pred (hi : option nat) : option nat := option_map pred hi.

(** Greedy repetition of a class: as many characters as allowed first,
    then one fewer at a time while the count stays at least [lo]. *)
Fixpoint rep_greedy (p : ascii -> bool) (lo : nat) (hi : option nat)
    (k : cont) (sn : pystr) (cs : list (nat * pystr)) (rs : pystr)
    {struct rs} : option mstate :=
  let here := if lo =? 0 then k (MState sn rs cs) else None in
  if hi_zero hi then here else
  match rs with
  | c :: rs' =>
      if p c then
        match rep_greedy p (pred lo) (hi_pred hi) k (c :: sn) cs rs' with
        | Some m => Some m
        | None => here
        end
      else here
  | [] => here
  end.

(** Lazy repetition: as few characters as allowed first. *)
Fixpoint rep_lazy (p : ascii -> bool) (lo : nat) (hi : option nat)
    (k : cont) (sn : pystr) (cs : list (nat * pystr)) (rs : pystr)
    {struct rs} : option mstate :=
  let more :=
    if hi_zero hi then None else
    match rs with
    | c :: rs' =>
        if p c then rep_lazy p (pred lo) (hi_pred hi) k (c :: sn) cs rs'
        else None
    | [] => None
    end in
  if lo =? 0 then
    match k (MState sn rs cs) with
    | Some m => Some m
    | None => more
    end
  else more.

Definition chr_match (icase : bool) (c x : ascii) : bool :=
  if icase then ascii_eqb (lower_char c) (lower_char x) else ascii_eqb c x.

Definition head_is (p : ascii -> bool) (s : pystr) : bool :=
  match s with c :: _ => p c | [] => false end.

Definition set_cap (n : nat) (v : pystr) (cs : list (nat * pystr))
  : list (nat * pystr) :=
  (n, v) :: filter (fun e => negb (fst e =? n)) cs.

(** The text matched between two positions of one scan. *)
Definition span (from to : mstate) : pystr :=
  rev (firstn (length (seen to) - length (seen from)) (seen to)).

(** Backtracking matching of [r] at [st], then [k]. [icase] is
    [re.IGNORECASE]. *)
Fixpoint bt (icase : bool) (r : regex) (st : mstate) (k : cont)
  : option mstate :=
  match r with
  | Eps => k st
  | Chr c =>
      match rest st with
      | x :: rs =>
          if chr_match icase c x then k (MState (x :: seen st) rs (caps st))
          else None
      | [] => None
      end
  | Cls p =>
      match rest st with
      | x :: rs =>
          if p x then k (MState (x :: seen st) rs (caps st)) else None
      | [] => None
      end
  | Seq r1 r2 => bt icase r1 st (fun st' => bt icase r2 st' k)
  | Alt r1 r2 =>
      match bt icase r1 st k with
      | Some m => Some m
      | None => bt icase r2 st k
      end
  | Rep g lo hi p =>
      (if g then rep_greedy else rep_lazy) p lo hi k
        (seen st) (caps st) (rest st)
  | Grp n r =>
      bt icase r st (fun st' =>
        k (MState (seen st') (rest st') (set_cap n (span st st') (caps st'))))
  | Ahead r =>
      match bt icase r st (fun st' => Some st') with
      | Some _ => k st
      | None => None
      end
  | Eos =>
      match rest st with
      | [] => k st
      | [c] => if code c =? 10 then k st else None
      | _ => None
      end
  | Bnd =>
      if xorb (head_is is_word (seen st)) (head_is is_word (rest st))
      then k st else None
  end.

(** A literal string, as [re.escape] makes it. *)
Fixpoint lits (s : pystr) : regex :=
  match s with
  | [] => Eps
  | c :: s' => Seq (Chr c) (lits s')
  end.

(** ["|".join(...)] of sub-patterns; the empty join matches the empty
    string. *)
Fixpoint alts (rs : list regex) : regex :=
  match rs with
  | [] => Eps
  | [r] => r
  | r :: rs' => Alt r (alts rs')
  end.

(** Group 0 is the whole match. *)
Definition whole (r : regex) : regex := Grp 0 r.

(** [re.match]: a match at the start of the string. *)
Definition re_match (icase : bool) (r : regex) (s : pystr) : option mstate :=
  bt icase (whole r) (MState [] s []) (fun st => Some st).

Fixpoint search_from (icase : bool) (r : regex) (sn rs : pystr)
  : option mstate :=
  match bt icase (whole r) (MState sn rs []) (fun st => Some st) with
  | Some m => Some m
  | None =>
      match rs with
      | c :: rs' => search_from icase r (c :: sn) rs'
      | [] => None
      end
  end.

(** [re.search]: the match at the leftmost position that has one. *)
Definition re_search (icase : bool) (r : regex) (s : pystr) : option mstate :=
  search_from icase r [] s.

Fixpoint lookup_cap (n : nat) (cs : list (nat * pystr)) : option pystr :=
  match cs with
  | [] => None
  | (i, v) :: cs' => if i =? n then Some v else lookup_cap n cs'
  end.

(** [m.group(n)]: on [None] this is an AttributeError; a group that took
    no part in the match gives [None]. *)
Definition group (m : option mstate) (n : nat) : result (option pystr) :=
  match m with
  | Some st => Ok (lookup_cap n (caps st))
  | None => Raise AttributeError
  end.

(** [m.end()] *)
Definition match_end (m : mstate) : nat := length (seen m).

(** The non-overlapping matches from left to right, as [re.sub] and
    [re.findall] visit them: [skip] characters of the last match are still
    to be passed. *)
Fixpoint scan_matches (icase : bool) (r : regex) (skip : nat)
    (sn rs : pystr) : list (pystr + ascii) :=
  match rs with
  | [] => []
  | c :: rs' =>
      match skip with
      | S n => scan_matches icase r n (c :: sn) rs'
      | 0 =>
          match bt icase (whole r) (MState sn rs []) (fun st => Some st) with
          | Some m =>
              match length (seen m) - length sn with
              | 0 => inr c :: scan_matches icase r 0 (c :: sn) rs'
              | S n => inl (span (MState sn rs []) m)
                         :: scan_matches icase r n (c :: sn) rs'
              end
          | None => inr c :: scan_matches icase r 0 (c :: sn) rs'
          end
      end
  end.

(** [re.sub(r, repl, s)] for a pattern that matches no empty string. *)
Definition re_sub (icase : bool) (r : regex) (repl s : pystr) : pystr :=
  flat_map (fun e => match e with inl _ => repl | inr c => [c] end)
    (scan_matches icase r 0 [] s).

(** [re.findall(r, s)] for a pattern without groups that matches no empty
    string. *)
Definition re_findall (icase : bool) (r : regex) (s : pystr) : list pystr :=
  flat_map (fun e => match e with inl m => [m] | inr _ => [] end)
    (scan_matches icase r 0 [] s).

(* ================================================================== *)
(** * [clean_text] *)

(** [\s+] *)
Definition ws_plus : regex := Rep true 1 None is_space.
(** [\s*] *)
Definition ws_star : regex := Rep true 0 None is_space.

(** [re.sub(r"\s+", " ", (s or "")).strip()] *)
Definition clean_text (s : option pystr) : pystr :=
  strip (re_sub false ws_plus (str " ") (or_empty s)).

Definition clean (s : pystr) : pystr := clean_text (Some s).

(* ================================================================== *)
(** * [datetime.strptime], [date.isoformat] *)

Record date : Type := Date { year : nat; month : nat; day : nat }.

Definition is_leap (y : nat) : bool :=
  ((y mod 4 =? 0) && negb (y mod 100 =? 0)) || (y mod 400 =? 0).

Definition days_in_month (y m : nat) : nat :=
  match m with
  | 2 => if is_leap y then 29 else 28
  | 4 | 6 | 9 | 11 => 30
  | _ => 31
  end.

(** What the constructor [date(y, m, d)] accepts. *)
Definition valid_date (d : date) : bool :=
  (1 <=? year d) && (year d <? 100 * 100)
  && (1 <=? month d) && (month d <=? 12)
  && (1 <=? day d) && (day d <=? days_in_month (year d) (month d)).

Definition digit_char (n : nat) : ascii := ascii_of_nat (48 + n).

(** [d.isoformat()], that is ["%04d-%02d-%02d"]. *)
Definition isoformat (d : date) : pystr :=
  [digit_char (year d / 1000 mod 10); digit_char (year d / 100 mod 10);
   digit_char (year d / 10 mod 10); digit_char (year d mod 10)]
  ++ str "-" ++ [digit_char (month d / 10 mod 10); digit_char (month d mod 10)]
  ++ str "-" ++ [digit_char (day d / 10 mod 10); digit_char (day d mod 10)].

(** [int(s)] on a string of decimal digits, possibly after blanks. *)
Definition int_of (s : pystr) : nat :=
  fold_left (fun n c => if is_digit c then 10 * n + (code c - 48) else n) s 0.

(** The directives of a format string. *)
Inductive directive : Type :=
| Dm | Dd | DY | DB | Db     (* %m %d %Y %B %b *)
| Dbad                       (* any other %x *)
| Dws                        (* a run of blanks *)
| Dlit (c : ascii).

Definition directive_of (c : ascii) : directive :=
  if ascii_eqb c "m" then Dm else if ascii_eqb c "d" then Dd
  else if ascii_eqb c "Y" then DY else if ascii_eqb c "B" then DB
  else if ascii_eqb c "b" then Db else Dbad.

Fixpoint parse_format (in_ws : bool) (f : pystr) : list directive :=
  match f with
  | [] => []
  | c :: f' =>
      if ascii_eqb c "%" then
        match f' with
        | d :: f'' => directive_of d :: parse_format false f''
        | [] => [Dbad]
        end
      else if is_space c then
        if in_ws then parse_format true f' else Dws :: parse_format true f'
      else Dlit c :: parse_format false f'
  end.

(** [calendar.month_name] and [calendar.month_abbr], lower case, in the C
    locale. *)
Definition f_month : list pystr :=
  map str ["january"; "february"; "march"; "april"; "may"; "june"; "july";
           "august"; "september"; "october"; "november"; "december"]%string.

Definition a_month : list pystr :=
  map str ["jan"; "feb"; "mar"; "apr"; "may"; "jun"; "jul"; "aug"; "sep";
           "oct"; "nov"; "dec"]%string.

(** The groups of a format's pattern. *)
Definition gY := 1.
Definition gm := 2.
Definition gd := 3.
Definition gB := 4.
Definition gb := 5.

Definition rng (lo hi : string) : regex :=
  match str lo, str hi with
  | [a], [b] => Cls (between (code a) (code b))
  | _, _ => Eps
  end.

(** [(?P<d>3[0-1]|[1-2]\d|0[1-9]|[1-9]| [1-9])] *)
Definition re_d : regex :=
  Grp gd (alts [Seq (Chr "3") (rng "0" "1"); Seq (rng "1" "2") (Cls is_digit);
                Seq (Chr "0") (rng "1" "9"); rng "1" "9";
                Seq (Chr " ") (rng "1" "9")]).

(** [(?P<m>1[0-2]|0[1-9]|[1-9])] *)
Definition re_m : regex :=
  Grp gm (alts [Seq (Chr "1") (rng "0" "2"); Seq (Chr "0") (rng "1" "9");
                rng "1" "9"]).

(** [(?P<Y>\d\d\d\d)] *)
Definition re_Y : regex :=
  Grp gY (Seq (Cls is_digit) (Seq (Cls is_digit)
           (Seq (Cls is_digit) (Cls is_digit)))).

(** [(?P<B>september|february|...|may)]: the names, longest first. *)
Definition re_B : regex :=
  Grp gB (alts (map lits (map str
    ["september"; "february"; "november"; "december"; "january"; "october";
     "august"; "march"; "april"; "june"; "july"; "may"]%string))).

(** [(?P<b>jan|feb|...|dec)] *)
Definition re_b : regex := Grp gb (alts (map lits a_month)).

Definition directive_regex (d : directive) : option regex :=
  match d with
  | Dm => Some re_m
  | Dd => Some re_d
  | DY => Some re_Y
  | DB => Some re_B
  | Db => Some re_b
  | Dws => Some ws_plus
  | Dlit c => Some (Chr c)
  | Dbad => None
  end.

Fixpoint format_regex (ds : list directive) : option regex :=
  match ds with
  | [] => Some Eps
  | d :: ds' =>
      match directive_regex d, format_regex ds' with
      | Some r, Some r' => Some (Seq r r')
      | _, _ => None
      end
  end.

(** The position of [x] in [l], counted from 1; 0 when it is not there. *)
Fixpoint index1 (x : pystr) (l : list pystr) : nat :=
  match l with
  | [] => 0
  | y :: l' => if str_eqb x y then 1 else
               match index1 x l' with 0 => 0 | S n => S (S n) end
  end.

Definition found_year (cs : list (nat * pystr)) : nat :=
  match lookup_cap gY cs with Some y => int_of y | None => 1900 end.

Definition found_month (cs : list (nat * pystr)) : nat :=
  match lookup_cap gm cs, lookup_cap gB cs, lookup_cap gb cs with
  | Some m, _, _ => int_of m
  | None, Some B, _ => index1 (lower B) f_month
  | None, None, Some b => index1 (lower b) a_month
  | None, None, None => 1
  end.

Definition found_day (cs : list (nat * pystr)) : nat :=
  match lookup_cap gd cs with Some d => int_of d | None => 1 end.

(** [datetime.strptime(s, fmt).date()]: the format becomes a pattern that
    is matched ignoring case at the start of [s]; text left over, a bad
    directive, no match and an impossible date are each a [ValueError]. *)
Definition strptime (s fmt : pystr) : result date :=
  match format_regex (parse_format false fmt) with
  | None => Raise ValueError
  | Some r =>
      match re_match true r s with
      | None => Raise ValueError
      | Some m =>
          if negb (length s =? match_end m) then Raise ValueError else
          let d := Date (found_year (caps m)) (found_month (caps m))
                        (found_day (caps m)) in
          if valid_date d then Ok d else Raise ValueError
      end
  end.

(* ================================================================== *)
(** * [to_iso_date] *)

Definition DATE_FORMATS : list pystr :=
  map str ["%m/%d/%Y"; "%B %d, %Y"; "%b %d, %Y"; "%Y-%m-%d"]%string.

(** The loop [for fmt in (...): try: return ... except ValueError: pass]
    followed by [return s]. *)
Fixpoint try_formats (s : pystr) (fmts : list pystr) : result pystr :=
  match fmts with
  | [] => Ok s
  | fmt :: fmts' =>
      match strptime s fmt with
      | Ok d => Ok (isoformat d)
      | Raise ValueError => try_formats s fmts'
      | Raise e => Raise e
      end
  end.

Definition to_iso_date (s : option pystr) : result (option pystr) :=
  if negb (truthy s) then Ok None else
  let s := clean_text s in
  r <- try_formats s DATE_FORMATS ;; Ok (Some r).

(* ================================================================== *)
(** * [extract_opportunity_id] *)

Definition is_match (m : option mstate) : bool :=
  match m with Some _ => true | None => false end.

(** [/search-results-detail/(\d+)] *)
Definition re_detail_id : regex :=
  Seq (lits (str "/search-results-detail/"))
      (Grp 1 (Rep true 1 None is_digit)).

(** [/opportunity/([0-9a-fA-F-]{16,})] *)
Definition re_opportunity_id : regex :=
  Seq (lits (str "/opportunity/"))
      (Grp 1 (Rep true 16 None is_hex_or_dash)).

Definition extract_opportunity_id (url : pystr) : result (option pystr) :=
  let m := re_search false re_detail_id url in
  if is_match m then group m 1 else
  let m := re_search false re_opportunity_id url in
  if is_match m then group m 1 else
  Ok None.

(* ================================================================== *)
(** * [LABELS] and [find_label] *)

Definition LABELS : list pystr :=
  map str [
    "Agency";
    "Assistance Listings";
    "Posted date";
    "Closing";
    "Close date";
    "Closing date";
    "Archive date";
    "Funding opportunity number";
    "Cost sharing or matching requirement";
    "Funding instrument type";
    "Opportunity Category";
    "Opportunity Category Explanation";
    "Category of Funding Activity";
    "Category Explanation";
    "Last Updated"
  ]%string.

(** [[l for l in LABELS if l.lower() != label.lower()]] *)
Definition other_labels (label : pystr) : list pystr :=
  filter (fun l => negb (str_eqb (lower l) (lower label))) LABELS.

(** [(?=\s*(?:{stop})\s*:|$)] *)
Definition re_stop (stop : list pystr) : regex :=
  Ahead (Alt (Seq ws_star (Seq (alts (map lits stop))
                            (Seq ws_star (Chr ":"))))
             Eos).

(** [{re.escape(label)}\s*:\s*(.*?)(?=\s*(?:{stop})\s*:|$)] *)
Definition find_label_pattern (label : pystr) (stop : list pystr) : regex :=
  Seq (lits label)
   (Seq ws_star
    (Seq (Chr ":")
     (Seq ws_star
      (Seq (Grp 1 (Rep false 0 None dot))
           (re_stop stop))))).

Definition find_label (text label : pystr) : result (option pystr) :=
  let other := other_labels label in
  let pattern := find_label_pattern label other in
  let m := re_search true pattern text in
  if is_match m then g <- group m 1 ;; Ok (Some (clean_text g)) else Ok None.

(* ================================================================== *)
(** * [extract_links] and the sorted, de-duplicated link lists *)

(** An [<a>] element: its [href] attribute, when it has one, and its
    text. *)
Record anchor : Type := Anchor { href : option pystr; anchor_text : pystr }.

(** [soup.find_all("a", href=True)] on the anchors of the page, in
    document order. *)
Definition find_all_a_href (anchors : list anchor) : list anchor :=
  filter (fun a => match href a with Some _ => true | None => false end)
         anchors.

Definition is_pdf (low : pystr) : bool :=
  endswith (str ".pdf") low || contains (str ".pdf?") low.

(** One turn of the loop on [(external_links, documents)]. *)
Definition link_step (acc : list pystr * list pystr) (a : anchor)
  : list pystr * list pystr :=
  let h := strip (or_empty (href a)) in
  match h with
  | [] => acc
  | _ =>
    if startswith (str "http") h then
      let low := lower h in
      if is_pdf low then (fst acc, snd acc ++ [h])
      else (fst acc ++ [h], snd acc)
    else acc
  end.

Definition extract_links (anchors : list anchor) : list pystr * list pystr :=
  fold_left link_step (find_all_a_href anchors) ([], []).

(** Comparison of strings as Python does it: by code point, a proper
    prefix first. *)
Fixpoint str_leb (a b : pystr) : bool :=
  match a, b with
  | [], _ => true
  | _ :: _, [] => false
  | x :: a', y :: b' =>
      if code x <? code y then true
      else if code y <? code x then false
      else str_leb a' b'
  end.

Fixpoint insert_sorted (x : pystr) (l : list pystr) : list pystr :=
  match l with
  | [] => [x]
  | y :: l' => if str_leb x y then x :: l else y :: insert_sorted x l'
  end.

(** [sorted(l)] *)
Definition sorted (l : list pystr) : list pystr :=
  fold_right insert_sorted [] l.

Definition pystr_eq_dec : forall a b : pystr, {a = b} + {a <> b} :=
  list_eq_dec ascii_dec.

(** [set(l)], as the list of its members; Python fixes no order for them,
    and the one use of it is under [sorted]. *)
Definition set_of (l : list pystr) : list pystr := nodup pystr_eq_dec l.

(** Lines 275-277: the two link lists as the record assembly uses them,
    [(external_links, documents)]. *)
Definition classify_links (anchors : list anchor)
  : list pystr * list pystr :=
  let '(external_links, documents) := extract_links anchors in
  (sorted (set_of external_links), sorted (set_of documents)).

(* ================================================================== *)
(** * [TAG_RULES], [Opportunity] and [apply_tags] *)

Definition TAG_RULES : list (pystr * list pystr) :=
  [ (str "health_biomed",
       map str ["health"; "cdc"; "nih"; "disease"; "registry"]%string);
    (str "ai_ml",
       map str ["machine learning"; "artificial intelligence";
                "deep learning"; "llm"; "nlp"]%string);
    (str "cybersecurity",
       map str ["cyber"; "ransomware"; "phishing"; "zero trust";
                "infosec"]%string);
    (str "education",
       map str ["education"; "teacher"; "school"; "curriculum"]%string);
    (str "climate_environment",
       map str ["climate"; "environment"; "sustainability";
                "emissions"]%string);
    (str "energy",
       map str ["energy"; "renewable"; "solar"; "wind"; "grid";
                "battery"]%string) ].

Record Opportunity : Type := Build_Opportunity {
  opportunity_id : option pystr;
  opportunity_number : option pystr;
  opportunity_title : option pystr;
  opportunity_status : option pystr;
  agency_code : option pystr;
  category : option pystr;
  category_explanation : option pystr;
  post_date : option pystr;
  close_date : option pystr;
  close_date_description : option pystr;
  archive_date : option pystr;
  is_cost_sharing : option bool;
  expected_number_of_awards : option nat;
  estimated_total_program_funding : option nat;
  award_floor : option nat;
  award_ceiling : option nat;
  additional_info_url : option pystr;
  additional_info_url_description : option pystr;
  opportunity_assistance_listings : option (list pystr);
  funding_instruments : option (list pystr);
  funding_categories : option (list pystr);
  funding_category_description : option pystr;
  applicant_types : option (list pystr);
  applicant_eligibility_description : option pystr;
  agency_name : option pystr;
  top_level_agency_name : option pystr;
  agency_contact_description : option pystr;
  agency_email_address : option pystr;
  agency_email_address_description : option pystr;
  is_forecast : option bool;
  forecasted_post_date : option pystr;
  forecasted_close_date : option pystr;
  forecasted_close_date_description : option pystr;
  forecasted_award_date : option pystr;
  forecasted_project_start_date : option pystr;
  fiscal_year : option nat;
  created_at : option pystr;
  updated_at : option pystr;
  summary_description : option pystr;
  tags : list pystr
}.

Definition or_nil (l : option (list pystr)) : list pystr :=
  match l with Some x => x | None => [] end.

(** The five text fields, joined by blanks. *)
Definition fields_text (opp : Opportunity) : pystr :=
  join (str " ")
    [ or_empty (opportunity_title opp);
      or_empty (agency_name opp);
      or_empty (category opp);
      join (str " ") (or_nil (funding_categories opp));
      or_empty (applicant_eligibility_description opp) ].

(** The text that the keywords are looked up in. *)
Definition hay (opp : Opportunity) : pystr := lower (fields_text opp).

(** [any(kw in hay for kw in kws)] *)
Definition any_kw (h : pystr) (kws : list pystr) : bool :=
  existsb (fun kw => contains kw h) kws.

Definition rule_tags (h : pystr) : list pystr :=
  fold_left (fun tags rule =>
               if any_kw h (snd rule) then tags ++ [fst rule] else tags)
            TAG_RULES [].

Definition mem (x : pystr) (l : list pystr) : bool :=
  existsb (str_eqb x) l.

(** The loop that keeps the first occurrence of each tag; [out] and [seen]
    hold the same tags. *)
Definition dedup (tags : list pystr) : list pystr :=
  fold_left (fun out t => if negb (mem t out) then out ++ [t] else out)
            tags [].

Definition set_tags (o : Opportunity) (out : list pystr) : Opportunity :=
  {|
    opportunity_id := opportunity_id o;
    opportunity_number := opportunity_number o;
    opportunity_title := opportunity_title o;
    opportunity_status := opportunity_status o;
    agency_code := agency_code o;
    category := category o;
    category_explanation := category_explanation o;
    post_date := post_date o;
    close_date := close_date o;
    close_date_description := close_date_description o;
    archive_date := archive_date o;
    is_cost_sharing := is_cost_sharing o;
    expected_number_of_awards := expected_number_of_awards o;
    estimated_total_program_funding := estimated_total_program_funding o;
    award_floor := award_floor o;
    award_ceiling := award_ceiling o;
    additional_info_url := additional_info_url o;
    additional_info_url_description := additional_info_url_description o;
    opportunity_assistance_listings := opportunity_assistance_listings o;
    funding_instruments := funding_instruments o;
    funding_categories := funding_categories o;
    funding_category_description := funding_category_description o;
    applicant_types := applicant_types o;
    applicant_eligibility_description := applicant_eligibility_description o;
    agency_name := agency_name o;
    top_level_agency_name := top_level_agency_name o;
    agency_contact_description := agency_contact_description o;
    agency_email_address := agency_email_address o;
    agency_email_address_description := agency_email_address_description o;
    is_forecast := is_forecast o;
    forecasted_post_date := forecasted_post_date o;
    forecasted_close_date := forecasted_close_date o;
    forecasted_close_date_description := forecasted_close_date_description o;
    forecasted_award_date := forecasted_award_date o;
    forecasted_project_start_date := forecasted_project_start_date o;
    fiscal_year := fiscal_year o;
    created_at := created_at o;
    updated_at := updated_at o;
    summary_description := summary_description o;
    tags := out
  |}.

Definition is_true (b : option bool) : bool :=
  match b with Some true => true | _ => false end.

Definition apply_tags (opp : Opportunity) : Opportunity :=
  let tags := rule_tags (hay opp) in
  let tags := if truthy (close_date opp)
              then tags ++ [str "has_deadline"] else tags in
  let tags := if is_true (is_cost_sharing opp)
              then tags ++ [str "cost_sharing"] else tags in
  set_tags opp (dedup tags).

(* ================================================================== *)
(** * [asdict] and [drop_empty_fields] *)

(** The values of a record's fields. *)
Inductive value : Type :=
| VNone
| VStr (s : pystr)
| VBool (b : bool)
| VInt (n : nat)
| VList (l : list pystr).

Definition vstr (o : option pystr) : value :=
  match o with Some s => VStr s | None => VNone end.
Definition vbool (o : option bool) : value :=
  match o with Some b => VBool b | None => VNone end.
Definition vint (o : option nat) : value :=
  match o with Some n => VInt n | None => VNone end.
Definition vlist (o : option (list pystr)) : value :=
  match o with Some l => VList l | None => VNone end.

(** A [dict] with string keys, as the list of its items in insertion
    order. *)
Definition dict := list (string * value).

Definition keys (d : dict) : list string := map fst d.

(** [d[k] = v]: the value of an existing key is replaced where it stands,
    a new key goes last. *)
Fixpoint dict_set (d : dict) (k : string) (v : value) : dict :=
  match d with
  | [] => [(k, v)]
  | (k', v') :: d' =>
      if String.eqb k' k then (k, v) :: d' else (k', v') :: dict_set d' k v
  end.

Definition asdict (o : Opportunity) : dict :=
  [
    ("opportunity_id"%string, vstr (opportunity_id o));
    ("opportunity_number"%string, vstr (opportunity_number o));
    ("opportunity_title"%string, vstr (opportunity_title o));
    ("opportunity_status"%string, vstr (opportunity_status o));
    ("agency_code"%string, vstr (agency_code o));
    ("category"%string, vstr (category o));
    ("category_explanation"%string, vstr (category_explanation o));
    ("post_date"%string, vstr (post_date o));
    ("close_date"%string, vstr (close_date o));
    ("close_date_description"%string, vstr (close_date_description o));
    ("archive_date"%string, vstr (archive_date o));
    ("is_cost_sharing"%string, vbool (is_cost_sharing o));
    ("expected_number_of_awards"%string, vint (expected_number_of_awards o));
    ("estimated_total_program_funding"%string, vint (estimated_total_program_funding o));
    ("award_floor"%string, vint (award_floor o));
    ("award_ceiling"%string, vint (award_ceiling o));
    ("additional_info_url"%string, vstr (additional_info_url o));
    ("additional_info_url_description"%string, vstr (additional_info_url_description o));
    ("opportunity_assistance_listings"%string, vlist (opportunity_assistance_listings o));
    ("funding_instruments"%string, vlist (funding_instruments o));
    ("funding_categories"%string, vlist (funding_categories o));
    ("funding_category_description"%string, vstr (funding_category_description o));
    ("applicant_types"%string, vlist (applicant_types o));
    ("applicant_eligibility_description"%string, vstr (applicant_eligibility_description o));
    ("agency_name"%string, vstr (agency_name o));
    ("top_level_agency_name"%string, vstr (top_level_agency_name o));
    ("agency_contact_description"%string, vstr (agency_contact_description o));
    ("agency_email_address"%string, vstr (agency_email_address o));
    ("agency_email_address_description"%string, vstr (agency_email_address_description o));
    ("is_forecast"%string, vbool (is_forecast o));
    ("forecasted_post_date"%string, vstr (forecasted_post_date o));
    ("forecasted_close_date"%string, vstr (forecasted_close_date o));
    ("forecasted_close_date_description"%string, vstr (forecasted_close_date_description o));
    ("forecasted_award_date"%string, vstr (forecasted_award_date o));
    ("forecasted_project_start_date"%string, vstr (forecasted_project_start_date o));
    ("fiscal_year"%string, vint (fiscal_year o));
    ("created_at"%string, vstr (created_at o));
    ("updated_at"%string, vstr (updated_at o));
    ("summary_description"%string, vstr (summary_description o));
    ("tags"%string, VList (tags o))
  ].

(** The three tests of the loop body: [v is None], [v == ""],
    [isinstance(v, list) and len(v) == 0]. *)
Definition is_empty_value (v : value) : bool :=
  match v with
  | VNone => true
  | VStr [] => true
  | VList [] => true
  | _ => false
  end.

Definition drop_empty_fields (data : dict) : dict :=
  fold_left (fun cleaned kv =>
               if is_empty_value (snd kv) then cleaned
               else dict_set cleaned (fst kv) (snd kv))
            data [].

(* ================================================================== *)
(** * [first_date_token] *)

(** [\\b([A-Za-z]+ \\d{1,2}, \\d{4})\\b] *)
Definition re_word_date : regex :=
  Seq Bnd
   (Seq (Grp 1 (Seq (Rep true 1 None is_alpha)
                (Seq (Chr " ")
                 (Seq (Rep true 1 (Some 2) is_digit)
                  (Seq (Chr ",")
                   (Seq (Chr " ")
                        (Rep true 4 (Some 4) is_digit)))))))
        Bnd).

(** [\\b(\\d{1,2}/\\d{1,2}/\\d{4})\\b] *)
Definition re_slash_date : regex :=
  Seq Bnd
   (Seq (Grp 1 (Seq (Rep true 1 (Some 2) is_digit)
                (Seq (Chr "/")
                 (Seq (Rep true 1 (Some 2) is_digit)
                  (Seq (Chr "/")
                       (Rep true 4 (Some 4) is_digit))))))
        Bnd).

(** [\\b(\\d{4}-\\d{2}-\\d{2})\\b] *)
Definition re_iso_date : regex :=
  Seq Bnd
   (Seq (Grp 1 (Seq (Rep true 4 (Some 4) is_digit)
                (Seq (Chr "-")
                 (Seq (Rep true 2 (Some 2) is_digit)
                  (Seq (Chr "-")
                       (Rep true 2 (Some 2) is_digit))))))
        Bnd).

Definition first_date_token (s : option pystr) : result (option pystr) :=
  if negb (truthy s) then Ok None else
  let s := clean_text s in
  let m := re_search false re_word_date s in
  if is_match m then g <- group m 1 ;; to_iso_date g else
  let m := re_search false re_slash_date s in
  if is_match m then g <- group m 1 ;; to_iso_date g else
  let m := re_search false re_iso_date s in
  if is_match m then group m 1 else
  Ok None.

(* ================================================================== *)
(** * The record assembly of the script body (lines 234-286) *)

(** [\\b\\d{2}\\.\\d{3}\\b] *)
Definition re_listing_code : regex :=
  Seq Bnd
   (Seq (Rep true 2 (Some 2) is_digit)
    (Seq (Chr ".")
     (Seq (Rep true 3 (Some 3) is_digit) Bnd))).

(** [a or b] on optional strings, with [b] evaluated only when needed. *)
Definition or_else (a : option pystr) (b : result (option pystr))
  : result (option pystr) :=
  if truthy a then Ok a else b.

(** The record as it stands before [apply_tags]. The page and the clock
    come from outside: [title] is what [extract_title] gave, [text] the
    joined text of the page, [created] and [updated] the two time stamps,
    [anchors] the [<a>] elements. Each field is assigned at most once after
    the record is made, so the record is written here with its final
    values. *)
Definition collect_fields (url title text created updated : pystr)
    (anchors : list anchor) : result Opportunity :=
  let page_text := clean_text (Some text) in
  oid <- extract_opportunity_id url ;;
  agency <- find_label page_text (str "Agency") ;;
  number <- find_label page_text (str "Funding opportunity number") ;;
  posted_raw <- find_label page_text (str "Posted date") ;;
  c1 <- find_label page_text (str "Closing") ;;
  close_raw <- or_else c1
     (c2 <- find_label page_text (str "Close date") ;;
      or_else c2 (find_label page_text (str "Closing date"))) ;;
  archive_raw <- find_label page_text (str "Archive date") ;;
  posted <- first_date_token posted_raw ;;
  closing <- first_date_token close_raw ;;
  archive <- first_date_token archive_raw ;;
  cost_sharing <-
    find_label page_text (str "Cost sharing or matching requirement") ;;
  instrument <- find_label page_text (str "Funding instrument type") ;;
  cat <- find_label page_text (str "Opportunity Category") ;;
  cat_expl <- find_label page_text (str "Opportunity Category Explanation") ;;
  funding_activity <-
    find_label page_text (str "Category of Funding Activity") ;;
  al <- find_label page_text (str "Assistance Listings") ;;
  let listings :=
    if truthy al then
      match sorted (set_of (re_findall false re_listing_code (or_empty al)))
      with
      | [] => None
      | codes => Some codes
      end
    else None in
  let '(external_links, documents) := classify_links anchors in
  Ok
    {|
      opportunity_id := oid;
      opportunity_number := number;
      opportunity_title := Some title;
      opportunity_status := None;
      agency_code := None;
      category := cat;
      category_explanation := cat_expl;
      post_date := posted;
      close_date := closing;
      close_date_description := None;
      archive_date := archive;
      is_cost_sharing := (if truthy cost_sharing then Some (startswith (str "y") (lower (strip (or_empty cost_sharing)))) else None);
      expected_number_of_awards := None;
      estimated_total_program_funding := None;
      award_floor := None;
      award_ceiling := None;
      additional_info_url := (match documents, external_links with d :: _, _ => Some d | [], e :: _ => Some e | [], [] => None end);
      additional_info_url_description := (match documents, external_links with _ :: _, _ => Some (str "primary_pdf") | [], _ :: _ => Some (str "external_link") | [], [] => None end);
      opportunity_assistance_listings := listings;
      funding_instruments := (if truthy instrument then Some [or_empty instrument] else None);
      funding_categories := (if truthy funding_activity then Some [or_empty funding_activity] else None);
      funding_category_description := None;
      applicant_types := None;
      applicant_eligibility_description := None;
      agency_name := agency;
      top_level_agency_name := None;
      agency_contact_description := None;
      agency_email_address := None;
      agency_email_address_description := None;
      is_forecast := None;
      forecasted_post_date := None;
      forecasted_close_date := None;
      forecasted_close_date_description := None;
      forecasted_award_date := None;
      forecasted_project_start_date := None;
      fiscal_year := None;
      created_at := Some created;
      updated_at := Some updated;
      summary_description := None;
      tags := []
    |}.

Definition assemble (url title text created updated : pystr)
    (anchors : list anchor) : result Opportunity :=
  opp <- collect_fields url title text created updated anchors ;;
  Ok (apply_tags opp).

(* ================================================================== *)
(** * [extract_title] *)

(** An element of the page as [get_text] sees it: its strings, in document
    order. *)
Definition element := list pystr.

(** [el.get_text(" ", strip=True)]: the strings stripped, the empty ones
    left out, joined by a space. *)
Definition get_text (el : element) : pystr :=
  join (str " ")
       (filter (fun s => match s with [] => false | _ => true end)
               (map strip el)).

(** What [extract_title] asks of the page: [soup.find("h1")] and
    [soup.title], each an element or [None]. An element counts as true
    whatever it holds, so [if h1:] and [if soup.title:] ask whether the
    element is there. *)
Record soup : Type := Soup {
  find_h1 : option element;
  title_tag : option element
}.

(** One of the two tries of [extract_title]: the cleaned text of the
    element, when the element is there and this text is not empty. *)
Definition heading (el : option element) : option pystr :=
  match el with
  | Some e =>
      match clean_text (Some (get_text e)) with
      | [] => None
      | t => Some t
      end
  | None => None
  end.

Definition extract_title (s : soup) : pystr :=
  match heading (find_h1 s) with
  | Some t => t
  | None =>
      match heading (title_tag s) with
      | Some t => t
      | None => []
      end
  end.

(* ================================================================== *)
(** * The row of [foa.csv] (lines 295-306) *)

(** [row.get(k)] *)
Fixpoint dict_get (d : dict) (k : string) : option value :=
  match d with
  | [] => None
  | (k', v) :: d' => if String.eqb k' k then Some v else dict_get d' k
  end.

(** The loop of lines 298-300 over [list(row.items())]: a list becomes the
    string ["|".join(map(str, v))], in the row itself. *)
Definition flatten_row (row : dict) : dict :=
  fold_left (fun r kv =>
               match snd kv with
               | VList l => dict_set r (fst kv) (VStr (join (str "|") l))
               | _ => r
               end)
            row row.

(** What [csv.DictWriter.writerow] hands on for a row: a key that is no
    field name is a [ValueError], a field name that the row does not have
    gives the empty string. *)
Definition dict_to_list (fieldnames : list string) (row : dict)
  : result (list value) :=
  if forallb (fun k => existsb (String.eqb k) fieldnames) (keys row)
  then Ok (map (fun k => match dict_get row k with
                         | Some v => v
                         | None => VStr []
                         end) fieldnames)
  else Raise ValueError.

(** The cells of the one data row, before the writer formats them. *)
Definition csv_cells (opp : Opportunity) : result (list value) :=
  let row := flatten_row (drop_empty_fields (asdict opp)) in
  let fieldnames := keys (asdict opp) in
  dict_to_list fieldnames row.

(* ================================================================== *)
(** * Notions that the properties are stated with *)

(** The items of [data] that [drop_empty_fields] is to keep. *)
Definition kept (kv : string * value) : bool := negb (is_empty_value (snd kv)).

(** The three fields of the pruning example. *)
Definition pruning_example : dict :=
  [ ("opportunity_title"%string, VStr (str ""));
    ("funding_instruments"%string, VList []);
    ("close_date"%string, VStr (str "2025-08-01")) ].

(** A record with nothing filled in but a title and a close date. *)
Definition titled (title close : option pystr) : Opportunity :=
  {|
    opportunity_id := None; opportunity_number := None;
    opportunity_title := title; opportunity_status := None;
    agency_code := None; category := None; category_explanation := None;
    post_date := None; close_date := close; close_date_description := None;
    archive_date := None; is_cost_sharing := None;
    expected_number_of_awards := None;
    estimated_total_program_funding := None; award_floor := None;
    award_ceiling := None; additional_info_url := None;
    additional_info_url_description := None;
    opportunity_assistance_listings := None; funding_instruments := None;
    funding_categories := None; funding_category_description := None;
    applicant_types := None; applicant_eligibility_description := None;
    agency_name := None; top_level_agency_name := None;
    agency_contact_description := None; agency_email_address := None;
    agency_email_address_description := None; is_forecast := None;
    forecasted_post_date := None; forecasted_close_date := None;
    forecasted_close_date_description := None;
    forecasted_award_date := None; forecasted_project_start_date := None;
    fiscal_year := None; created_at := None; updated_at := None;
    summary_description := None; tags := []
  |}.

(** The record of the tagging example. *)
Definition climate_example : Opportunity :=
  titled (Some (str "AI for Climate Resilience")) (Some (str "2025-08-01")).

(** [kw] occurs in [text] when case is ignored. *)
Definition ci_substring (kw text : pystr) : Prop :=
  exists pre mid post, text = pre ++ mid ++ post /\ lower mid = lower kw.

(** The two tags that come from the record's fields, not from the table. *)
Definition derived_tags (opp : Opportunity) : list pystr :=
  (if truthy (close_date opp) then [str "has_deadline"] else [])
  ++ (if is_true (is_cost_sharing opp) then [str "cost_sharing"] else []).

(** Every tag that [apply_tags] can give. *)
Definition all_tag_names : list pystr :=
  map fst TAG_RULES ++ [str "has_deadline"; str "cost_sharing"].

(** [a < b] for strings. *)
Definition str_lt (a b : pystr) : Prop := str_leb a b = true /\ a <> b.

Definition str_le (a b : pystr) : Prop := str_leb a b = true.

(** Sorted with no element twice. *)
Definition strictly_sorted (l : list pystr) : Prop := StronglySorted str_lt l.

(** [h] is the stripped [href] of one of the anchors and starts with
    ["http"], in lower case: the test of line 98. It takes a relative
    reference such as [http.html] and leaves out [HTTPS://...] and
    [ftp://...]. *)
Definition http_href (anchors : list anchor) (h : pystr) : Prop :=
  exists a raw, In a anchors /\ href a = Some raw /\ h = strip raw
                /\ startswith (str "http") h = true.

(** The lower-case form ends in [.pdf] or has [.pdf?] in it. *)
Definition pdf_like (h : pystr) : Prop :=
  (exists pre, lower h = pre ++ str ".pdf")
  \/ (exists pre post, lower h = pre ++ str ".pdf?" ++ post).

(** The anchors of the link example. *)
Definition link_example : list anchor :=
  [ Anchor (Some (str "https://a.gov/x.pdf")) (str "call");
    Anchor (Some (str "https://a.gov/page")) (str "page");
    Anchor (Some (str "/relative")) (str "more") ].

(** What one anchor adds to the two lists. *)
Definition link_of (a : anchor) : option (bool * pystr) :=
  match href a with
  | Some raw =>
      if startswith (str "http") (strip raw)
      then Some (is_pdf (lower (strip raw)), strip raw) else None
  | None => None
  end.

(** [YYYY-MM-DD]: ten characters, digits around two hyphens. *)
Definition is_iso (r : pystr) : bool :=
  match r with
  | [y1; y2; y3; y4; h1; m1; m2; h2; d1; d2] =>
      forallb is_digit [y1; y2; y3; y4; m1; m2; d1; d2]
      && ascii_eqb h1 "-" && ascii_eqb h2 "-"
  | _ => false
  end.

(** [strptime] rejects [s] under the format [fmt]. *)
Definition fails_with (s fmt : pystr) : Prop := strptime s fmt = Raise ValueError.

(** The label that the cost-sharing flag is read from. *)
Definition COST_SHARING_LABEL : pystr :=
  str "Cost sharing or matching requirement".

(** The first character of [s] is the letter y, small or capital. *)
Definition begins_with_y (s : pystr) : Prop :=
  exists c s', s = c :: s' /\ (c = "y"%char \/ c = "Y"%char).

(** [l] stands at the head of [rs], as [lits l] matches it. *)
Fixpoint lit_match (icase : bool) (l rs : pystr) : bool :=
  match l, rs with
  | [], _ => true
  | c :: l', x :: rs' => chr_match icase c x && lit_match icase l' rs'
  | _ :: _, [] => false
  end.

(** A count [n] is allowed by the upper bound [hi]. *)
Definition hi_ok (hi : option nat) (n : nat) : bool :=
  match hi with None => true | Some h => n <=? h end.

(** The continuation [k] fails wherever the next character is in [p]. *)
Definition rejects (p : ascii -> bool) (k : cont) : Prop :=
  forall sn c rs cs, p c = true -> k (MState sn (c :: rs) cs) = None.

(** The first split of [rs] at which [f] gives a result, going right over
    characters of [p] only. *)
Fixpoint first_split (p : ascii -> bool) (f : pystr -> pystr -> option mstate)
    (sn rs : pystr) : option mstate :=
  match f sn rs with
  | Some m => Some m
  | None =>
      match rs with
      | c :: rs' => if p c then first_split p f (c :: sn) rs' else None
      | [] => None
      end
  end.

Definition all_of (p : ascii -> bool) (s : pystr) : Prop :=
  Forall (fun c => p c = true) s.

(** The shape of the two patterns of [extract_opportunity_id]: a literal
    marker, then group 1 around at least [lo] characters of a class. *)
Definition id_pattern (marker : pystr) (lo : nat) (p : ascii -> bool)
  : regex :=
  Seq (lits marker) (Grp 1 (Rep true lo None p)).

(** [t] begins with the marker and then the run [id] of at least [lo]
    characters of [p], which ends there. *)
Definition run_after (marker : pystr) (p : ascii -> bool) (lo : nat)
    (t id : pystr) : Prop :=
  exists post,
    t = marker ++ id ++ post /\ all_of p id /\ head_is p post = false
    /\ lo <= length id.

(** [id] is that run at the leftmost place of [url] which has one. *)
Definition first_run_after (marker : pystr) (p : ascii -> bool) (lo : nat)
    (url id : pystr) : Prop :=
  exists pre t,
    url = pre ++ t /\ run_after marker p lo t id
    /\ forall pre' t' id', url = pre' ++ t' -> length pre' < length pre ->
         ~ run_after marker p lo t' id'.

Definition no_run_after (marker : pystr) (p : ascii -> bool) (lo : nat)
    (url : pystr) : Prop :=
  forall pre t id, url = pre ++ t -> ~ run_after marker p lo t id.

Definition DETAIL_MARKER : pystr := str "/search-results-detail/".
Definition OPPORTUNITY_MARKER : pystr := str "/opportunity/".

(** An address whose identifier has hyphens in it. *)
Definition uuid_url : pystr :=
  str "https://simpler.grants.gov/opportunity/f7a1e2b3-0c4d-4e5f-8a9b-1c2d3e4f5a6b".

(** The date patterns of [first_date_token] are runs of a class and single
    characters in a row, in group 1 between two [\b]. *)
Inductive item : Type :=
| IRun (p : ascii -> bool) (lo : nat) (hi : option nat)
| ILit (c : ascii).

Definition item_regex (i : item) : regex :=
  match i with
  | IRun p lo hi => Rep true lo hi p
  | ILit c => Chr c
  end.

Fixpoint items_regex (its : list item) : regex :=
  match its with
  | [] => Eps
  | [i] => item_regex i
  | i :: its' => Seq (item_regex i) (items_regex its')
  end.

Definition token_pattern (its : list item) : regex :=
  Seq Bnd (Seq (Grp 1 (items_regex its)) Bnd).

(** [[A-Za-z]+ \d{1,2}, \d{4}] *)
Definition WORD_DATE : list item :=
  [ IRun is_alpha 1 None; ILit " "; IRun is_digit 1 (Some 2); ILit ",";
    ILit " "; IRun is_digit 4 (Some 4) ].

(** [\d{1,2}/\d{1,2}/\d{4}] *)
Definition SLASH_DATE : list item :=
  [ IRun is_digit 1 (Some 2); ILit "/"; IRun is_digit 1 (Some 2); ILit "/";
    IRun is_digit 4 (Some 4) ].

(** [\d{4}-\d{2}-\d{2}] *)
Definition ISO_DATE : list item :=
  [ IRun is_digit 4 (Some 4); ILit "-"; IRun is_digit 2 (Some 2); ILit "-";
    IRun is_digit 2 (Some 2) ].

(** The count of a run is fixed. *)
Definition is_exact (lo : nat) (hi : option nat) : bool :=
  match hi with Some h => h =? lo | None => false end.

(** Every run has a fixed count or stands before a character that is not
    of its class: such a row of items is read in one way only. *)
Fixpoint wf_items (its : list item) : bool :=
  match its with
  | [] => true
  | ILit _ :: its' => wf_items its'
  | IRun p lo hi :: its' =>
      (is_exact lo hi
       || match its' with ILit c :: _ => negb (p c) | _ => false end)
      && wf_items its'
  end.

(** Reading the items off the head of [rs]: the text read and the text
    left. *)
Fixpoint items_at (its : list item) (rs : pystr) : option (pystr * pystr) :=
  match its with
  | [] => Some ([], rs)
  | ILit c :: its' =>
      match rs with
      | x :: rs' =>
          if ascii_eqb c x then
            match items_at its' rs' with
            | Some (tok, r) => Some (x :: tok, r)
            | None => None
            end
          else None
      | [] => None
      end
  | IRun p lo hi :: its' =>
      let n := length (take_while p rs) in
      if is_exact lo hi then
        if lo <=? n then
          match items_at its' (skipn lo rs) with
          | Some (tok, r) => Some (firstn lo rs ++ tok, r)
          | None => None
          end
        else None
      else if (lo <=? n) && hi_ok hi n then
        match items_at its' (drop_while p rs) with
        | Some (tok, r) => Some (take_while p rs ++ tok, r)
        | None => None
        end
      else None
  end.

(** [s] is what one item stands for. *)
Definition item_matches (i : item) (s : pystr) : Prop :=
  match i with
  | IRun p lo hi => all_of p s /\ lo <= length s /\ hi_ok hi (length s) = true
  | ILit c => s = [c]
  end.

(** [tok] is made of one piece for each item, in a row. *)
Fixpoint items_match (its : list item) (tok : pystr) : Prop :=
  match its with
  | [] => tok = []
  | i :: its' =>
      exists s t, tok = s ++ t /\ item_matches i s /\ items_match its' t
  end.

(** [\b] holds between [before] and [after]. *)
Definition boundary (before after : pystr) : Prop :=
  xorb (head_is is_word (rev before)) (head_is is_word after) = true.

(** [tok] stands in [text] after [pre], with a [\b] on either side. *)
Definition token_at (its : list item) (text pre tok : pystr) : Prop :=
  exists post,
    text = pre ++ tok ++ post /\ items_match its tok
    /\ boundary pre (tok ++ post) /\ boundary (pre ++ tok) post.

(** [tok] is the leftmost such token of [text]. *)
Definition first_token (its : list item) (text tok : pystr) : Prop :=
  exists pre,
    token_at its text pre tok
    /\ forall pre' tok', token_at its text pre' tok' ->
         length pre <= length pre'.

Definition no_token (its : list item) (text : pystr) : Prop :=
  forall pre tok, ~ token_at its text pre tok.

(** The word of a word date is the name of a month, in full or
    abbreviated. *)
Definition month_word (w : pystr) : Prop :=
  In (lower w) f_month \/ In (lower w) a_month.

(** A span with a word date that names no month, before a slash date. *)
Definition room_span : pystr := str "Room 12, 2025 due 08/01/2025".

(** [t] begins with the text of the label [l], in any case, then blanks or
    none, then a colon. *)
Definition begins_label (l t : pystr) : Prop :=
  exists lab ws r,
    t = lab ++ ws ++ ":"%char :: r /\ lower lab = lower l
    /\ all_of is_space ws.

(** The same after blanks or none. *)
Definition follows_label (l t : pystr) : Prop :=
  exists ws t', t = ws ++ t' /\ all_of is_space ws /\ begins_label l t'.

(** [t] begins with the text of [l], in any case. *)
Definition ci_begins (l t : pystr) : Prop :=
  exists lab post, t = lab ++ post /\ lower lab = lower l.

(** A value ends at [tail]: the text ends there, or one of the labels
    [stop] follows. *)
Definition stop_at (stop : list pystr) (tail : pystr) : Prop :=
  tail = [] \/ exists l, In l stop /\ follows_label l tail.

(** The test of [label_colon]: after the label's text come blanks or none
    and a colon. *)
Definition colon_next (t : pystr) : bool :=
  match drop_while is_space t with
  | x :: _ => ascii_eqb x ":"
  | [] => false
  end.

Definition label_colon_b (l t : pystr) : bool :=
  lit_match true l t && colon_next (skipn (length l) t).

(** [$] at [b]. *)
Definition eos_b (b : pystr) : bool :=
  match b with
  | [] => true
  | [c] => code c =? 10
  | _ => false
  end.

(** The test of the lookahead [(?=\s*(?:{stop})\s*:|$)] at [b]. *)
Definition stop_here (stop : list pystr) (b : pystr) : bool :=
  existsb (fun l => label_colon_b l (drop_while is_space b)) stop || eos_b b.

(** The label is not empty and does not begin with a blank. *)
Definition solid (l : pystr) : bool :=
  match l with c :: _ => negb (is_space c) | [] => false end.

(** [raw] is the value of [label] in [text]: the text after the leftmost
    place where the label, blanks or none and a colon stand, the blanks
    after the colon passed over, up to the first place where the text ends
    or one of the labels [stop] follows. *)
Definition label_value (label : pystr) (stop : list pystr)
    (text raw : pystr) : Prop :=
  exists pre lab ws1 ws2 tail,
    text = pre ++ lab ++ ws1 ++ ":"%char :: ws2 ++ raw ++ tail
    /\ lower lab = lower label
    /\ all_of is_space ws1 /\ all_of is_space ws2
    /\ (forall pre' t', text = pre' ++ t' -> length pre' < length pre ->
          ~ begins_label label t')
    /\ head_is is_space (raw ++ tail) = false
    /\ stop_at stop tail
    /\ (forall a b, raw = a ++ b -> b <> [] -> ~ stop_at stop (b ++ tail)).

(** The label is nowhere in the text with a colon after it. *)
Definition label_absent (label text : pystr) : Prop :=
  forall pre t, text = pre ++ t -> ~ begins_label label t.

(** [long] is [short] with more text after it. *)
Definition proper_prefix (short long : pystr) : Prop :=
  exists more, long = short ++ more /\ more <> [].

(** After [short] the longer label goes on with a character that is no
    colon, blanks apart. *)
Definition goes_on (short long : pystr) : bool :=
  startswith short long
  && match drop_while is_space (skipn (length short) long) with
     | c :: _ => negb (ascii_eqb (lower_char c) ":")
     | [] => false
     end.

(** A text in which "Category Explanation" stands only inside the longer
    label. *)
Definition explanation_text : pystr :=
  str "Opportunity Category Explanation: foo".

(** A page that states its cost sharing. *)
Definition cost_sharing_page : pystr :=
  str "Agency: NSF Cost sharing or matching requirement: Yes".

(** What [first_date_token] makes of a cleaned span [text]: the result
    [r] comes from the leftmost token of the first shape that has one. *)
Definition token_result (text : pystr) (r : option pystr) : Prop :=
  (exists tok, first_token WORD_DATE text tok
               /\ to_iso_date (Some tok) = Ok r)
  \/ (no_token WORD_DATE text
      /\ exists tok, first_token SLASH_DATE text tok
                     /\ to_iso_date (Some tok) = Ok r)
  \/ (no_token WORD_DATE text /\ no_token SLASH_DATE text
      /\ exists tok, first_token ISO_DATE text tok /\ r = Some tok)
  \/ (no_token WORD_DATE text /\ no_token SLASH_DATE text
      /\ no_token ISO_DATE text /\ r = None).

(** What [re.sub(r"\\s+", " ", s)] writes for a match and for a character
    outside the matches. *)
Definition sub_text (e : pystr + ascii) : pystr :=
  match e with inl _ => str " " | inr c => [c] end.

(** Runs of blanks made one space each; [in_run] says that a blank has
    just been passed. *)
Fixpoint squeeze (in_run : bool) (s : pystr) : pystr :=
  match s with
  | [] => []
  | c :: s' =>
      if is_space c then
        if in_run then squeeze true s' else " "%char :: squeeze true s'
      else c :: squeeze false s'
  end.

(** Every blank of [s] is a space with no blank before it; [prev] says
    that a blank (or the start of the text) stands before [s]. *)
Fixpoint single_spaced (prev : bool) (s : pystr) : bool :=
  match s with
  | [] => true
  | c :: s' =>
      if is_space c
      then ascii_eqb c " " && negb prev && single_spaced true s'
      else single_spaced false s'
  end.

(** Cleaned text: single spaces between the words, none at either end. *)
Definition normalized (s : pystr) : bool :=
  single_spaced true s && negb (head_is is_space (rev s)).

(** The characters of [s] that are no blanks. *)
Definition solid_chars (s : pystr) : pystr :=
  filter (fun c => negb (is_space c)) s.

(** ["%02d"] of a number below 100. *)
Definition two_digits (n : nat) : pystr :=
  [digit_char (n / 10 mod 10); digit_char (n mod 10)].

(** The pattern that [strptime] makes of ["%Y-%m-%d"]. *)
Definition ISO_TAIL : regex :=
  Seq (Chr "-") (Seq re_m (Seq (Chr "-") (Seq re_d Eps))).

Definition ISO_REGEX : regex := Seq re_Y ISO_TAIL.

Definition DIGITS : pystr := str "0123456789".

(** The links that the anchors give to one of the two lists, in the order
    of the anchors: to the documents ([pdf] true) or to the external
    links. *)
Definition links_of (pdf : bool) (anchors : list anchor) : list pystr :=
  flat_map (fun a => match link_of a with
                     | Some (b, h) => if Bool.eqb b pdf then [h] else []
                     | None => []
                     end) anchors.

(** Every character that the item can stand for is in the class [q]. *)
Definition item_chars (q : ascii -> bool) (i : item) : Prop :=
  match i with
  | IRun p _ _ => forall c, p c = true -> q c = true
  | ILit c => q c = true
  end.

(** What [first_date_token] can return: a string of the form [YYYY-MM-DD],
    or a token of the first or the second shape that [strptime] rejects
    under all four formats. *)
Definition date_like (r : pystr) : Prop :=
  is_iso r = true
  \/ ((items_match WORD_DATE r \/ items_match SLASH_DATE r)
      /\ Forall (fails_with r) DATE_FORMATS).

(** [a or b] on two values at hand. *)
Definition or_opt (a b : option pystr) : option pystr :=
  if truthy a then a else b.

(** [sorted(set(codes)) or None] *)
Definition listing_codes (al : pystr) : option (list pystr) :=
  match sorted (set_of (re_findall false re_listing_code al)) with
  | [] => None
  | codes => Some codes
  end.

(** [\d{2}\.\d{3}] *)
Definition LISTING_CODE : list item :=
  [ IRun is_digit 2 (Some 2); ILit "."; IRun is_digit 3 (Some 3) ].

(** Two digits, a dot, three digits. *)
Definition is_listing_code (c : pystr) : bool :=
  match c with
  | [a; b; dot; x; y; z] =>
      forallb is_digit [a; b; x; y; z] && ascii_eqb dot "."
  | _ => false
  end.

(** [c] stands somewhere in [text]. *)
Definition occurs_in (c text : pystr) : Prop :=
  exists pre post, text = pre ++ c ++ post.

(** A value as lines 298-300 leave it. *)
Definition flatten_value (v : value) : value :=
  match v with
  | VList l => VStr (join (str "|") l)
  | _ => v
  end.

Definition flatten_item (kv : string * value) : string * value :=
  (fst kv, flatten_value (snd kv)).

(** The cell of a field with the value [v]. *)
Definition csv_cell (v : value) : value :=
  if is_empty_value v then VStr [] else flatten_value v.

(** The characters of an element's strings that are no blanks. *)
Definition element_chars (el : option element) : pystr :=
  match el with
  | Some e => flat_map solid_chars e
  | None => []
  end.

(** [find_label(text, label)] and [extract_opportunity_id(url)] on an
    argument that may be [None], which the annotations [text: str] and
    [url: str] leave out: the first thing either does with the argument is
    [re.search(pattern, None)], a [TypeError]. *)
Definition find_label_any (text : option pystr) (label : pystr)
  : result (option pystr) :=
  match text with
  | Some t => find_label t label
  | None => Raise TypeError
  end.

Definition extract_opportunity_id_any (url : option pystr)
  : result (option pystr) :=
  match url with
  | Some u => extract_opportunity_id u
  | None => Raise TypeError
  end.

(** As the specification words it: an absolute URL begins with a scheme (a
    letter, then letters, digits, [+], [-] or [.]) and a colon; a
    reference without one is relative. *)
Definition is_scheme_char (c : ascii) : bool :=
  is_alpha c || is_digit c || ascii_eqb c "+" || ascii_eqb c "-"
  || ascii_eqb c ".".

Definition has_scheme (h : pystr) : bool :=
  head_is is_alpha h
  && match drop_while is_scheme_char h with
     | x :: _ => ascii_eqb x ":"
     | [] => false
     end.

(** A page with a closing label that names no date, and the same page
    without this label. *)
Definition tbd_page : pystr := str "Closing: TBD Close date: August 1, 2025".
Definition close_date_page : pystr := str "Close date: August 1, 2025".

Definition detail_url : pystr :=
  str "https://www.grants.gov/search-results-detail/350693".

(* ================================================================== *)
(** * Properties *)

(* ================================================================== *)
(** * Pruning *)

Section Pruning.

Lemma dict_set_fresh (d : dict) (k : string) (v : value) :
  ~ In k (keys d) -> dict_set d k v = d ++ [(k, v)].
Proof.
  induction d as [|[k' v'] d IH]; simpl; intros Hk; [reflexivity|].
  destruct (String.eqb_spec k' k) as [->|Hne].
  - exfalso. apply Hk. now left.
  - rewrite IH; [reflexivity|]. intros Hin. apply Hk. now right.
Qed.

Lemma keys_filter_incl (d : dict) (k : string) :
  In k (keys (filter kept d)) -> In k (keys d).
Proof.
  unfold keys. rewrite !in_map_iff. intros [kv [Hk Hin]].
  apply filter_In in Hin. exists kv. tauto.
Qed.

Lemma NoDup_keys_filter (d : dict) :
  NoDup (keys d) -> NoDup (keys (filter kept d)).
Proof.
  induction d as [|kv d IH]; simpl; intros Hnd; [constructor|].
  inversion Hnd as [|? ? Hnotin Hnd']; subst.
  destruct (kept kv); simpl; auto.
  constructor; auto. intros Hin. apply Hnotin. now apply keys_filter_incl.
Qed.

(** The loop of [drop_empty_fields], started on any [cleaned] whose keys
    are not those of the items still to come. *)
Lemma drop_loop (data cleaned : dict) :
  NoDup (keys data) ->
  (forall k, In k (keys data) -> ~ In k (keys cleaned)) ->
  fold_left (fun cleaned kv =>
               if is_empty_value (snd kv) then cleaned
               else dict_set cleaned (fst kv) (snd kv)) data cleaned
  = cleaned ++ filter kept data.
Proof.
  revert cleaned.
  induction data as [|[k v] data IH]; simpl; intros cleaned Hnd Hfresh.
  - now rewrite app_nil_r.
  - inversion Hnd as [|? ? Hnotin Hnd']; subst.
    unfold kept at 1. simpl.
    destruct (is_empty_value v) eqn:Hv; simpl.
    + apply IH; auto.
    + rewrite dict_set_fresh by (apply Hfresh; now left).
      rewrite IH; auto.
      * now rewrite <- app_assoc.
      * intros k' Hk'. unfold keys. rewrite map_app, in_app_iff. simpl.
        intros [Hin|[->|[]]].
        -- apply (Hfresh k'); auto.
        -- contradiction.
Qed.

Lemma drop_empty_fields_filter (data : dict) :
  NoDup (keys data) -> drop_empty_fields data = filter kept data.
Proof.
  intros Hnd. unfold drop_empty_fields.
  rewrite drop_loop; auto.
Qed.

Lemma filter_kept_twice (d : dict) : filter kept (filter kept d) = filter kept d.
Proof.
  induction d as [|kv d IH]; simpl; [reflexivity|].
  destruct (kept kv) eqn:Hk; simpl; [rewrite Hk|]; congruence.
Qed.

Lemma is_empty_value_iff (v : value) :
  is_empty_value v = true <-> v = VNone \/ v = VStr [] \/ v = VList [].
Proof.
  split.
  - destruct v as [|[|? ?]| | |[|? ?]]; simpl; intros H; try discriminate; auto.
  - intros [->|[->| ->]]; reflexivity.
Qed.

End Pruning.

(** C7. On a record mapping (a dict: no key twice) [drop_empty_fields]
    keeps, in their order and unchanged, exactly the items whose value is
    not [None], not the empty string and not the empty list; pruning a
    pruned record changes nothing; and of [opportunity_title=""],
    [funding_instruments=[]], [close_date="2025-08-01"] only [close_date]
    is left. *)
Theorem drop_empty_fields_prunes :
  (forall data : dict, NoDup (keys data) ->
     drop_empty_fields data = filter kept data
     /\ (forall k v, In (k, v) (drop_empty_fields data) <->
           In (k, v) data /\ v <> VNone /\ v <> VStr [] /\ v <> VList [])
     /\ drop_empty_fields (drop_empty_fields data) = drop_empty_fields data)
  /\ drop_empty_fields pruning_example
     = [("close_date"%string, VStr (str "2025-08-01"))].
Proof.
  split; [|reflexivity].
  intros data Hnd. rewrite (drop_empty_fields_filter Hnd).
  split; [reflexivity|split].
  - intros k v. rewrite filter_In. unfold kept. simpl.
    rewrite negb_true_iff.
    assert (Hiff := is_empty_value_iff v).
    destruct (is_empty_value v); intuition congruence.
  - rewrite drop_empty_fields_filter by now apply NoDup_keys_filter.
    apply filter_kept_twice.
Qed.

Lemma drop_empty_fields_prunes_witness :
  NoDup (keys pruning_example)
  /\ drop_empty_fields (drop_empty_fields pruning_example)
     = drop_empty_fields pruning_example.
Proof.
  assert (Hnd : NoDup (keys pruning_example)).
  { repeat constructor; simpl; intuition discriminate. }
  split; [exact Hnd|].
  exact (proj2 (proj2 (proj1 drop_empty_fields_prunes pruning_example Hnd))).
Defined.

(* ================================================================== *)
(** * Strings *)

Section Strings.

Lemma ascii_eqb_eq (a b : ascii) : ascii_eqb a b = true <-> a = b.
Proof. apply Ascii.eqb_eq. Qed.

Lemma str_eqb_eq (a b : pystr) : str_eqb a b = true <-> a = b.
Proof.
  revert b. induction a as [|x a IH]; intros [|y b]; simpl;
    try (split; [discriminate|discriminate]); [tauto|].
  rewrite andb_true_iff, ascii_eqb_eq, IH. split.
  - intros [-> ->]. reflexivity.
  - intros H. inversion H. auto.
Qed.

Lemma str_eqb_refl (a : pystr) : str_eqb a a = true.
Proof. now apply str_eqb_eq. Qed.

Lemma str_eqb_neq (a b : pystr) : str_eqb a b = false <-> a <> b.
Proof.
  rewrite <- str_eqb_eq. destruct (str_eqb a b); split; congruence.
Qed.

Lemma mem_In (x : pystr) (l : list pystr) : mem x l = true <-> In x l.
Proof.
  unfold mem. rewrite existsb_exists. split.
  - intros [y [Hin Heq]]. apply str_eqb_eq in Heq. now subst.
  - intros Hin. exists x. split; [assumption|apply str_eqb_refl].
Qed.

Lemma startswith_app (p s : pystr) :
  startswith p s = true <-> exists post, s = p ++ post.
Proof.
  revert s. induction p as [|x p IH]; intros s; simpl.
  - split; [intros _; now exists s|reflexivity].
  - destruct s as [|y s].
    + split; [discriminate|]. intros [post H]. discriminate.
    + rewrite andb_true_iff, ascii_eqb_eq, IH. split.
      * intros [-> [post ->]]. now exists post.
      * intros [post H]. inversion H. split; [reflexivity|now exists post].
Qed.

Lemma contains_app (p s : pystr) :
  contains p s = true <-> exists pre post, s = pre ++ p ++ post.
Proof.
  induction s as [|y s IH].
  - simpl. rewrite orb_false_r, startswith_app. split.
    + intros [post H]. now exists [], post.
    + intros [[|? ?] [post H]]; [now exists post|discriminate].
  - cbn [contains]. rewrite orb_true_iff, IH, startswith_app. split.
    + intros [[post H]|[pre [post H]]].
      * now exists [], post.
      * exists (y :: pre), post. simpl. now rewrite H.
    + intros [[|x pre] [post H]].
      * left. now exists post.
      * right. inversion H. now exists pre, post.
Qed.

Lemma lower_app (a b : pystr) : lower (a ++ b) = lower a ++ lower b.
Proof. apply map_app. Qed.

Lemma lower_length (s : pystr) : length (lower s) = length s.
Proof. apply length_map. Qed.

(** A lower-case keyword is found in the lowered text exactly when it
    occurs in the text with case ignored. *)
Lemma contains_lower (kw text : pystr) :
  lower kw = kw ->
  (contains kw (lower text) = true <-> ci_substring kw text).
Proof.
  intros Hkw. rewrite contains_app. unfold ci_substring. split.
  - intros [pre [post H]]. unfold lower in H.
    apply map_eq_app in H as [pre' [r [-> [Hpre Hr]]]].
    apply map_eq_app in Hr as [mid [post' [-> [Hmid Hpost]]]].
    exists pre', mid, post'. split; [reflexivity|].
    unfold lower. now rewrite Hmid, <- Hkw at 1.
  - intros [pre [mid [post [-> Hmid]]]].
    exists (lower pre), (lower post).
    now rewrite !lower_app, Hmid, Hkw.
Qed.

End Strings.

(* ================================================================== *)
(** * Tags *)

Section Tags.

Lemma fold_left_collect {A B : Type} (f : A -> bool) (g : A -> B)
    (l : list A) (acc : list B) :
  fold_left (fun acc x => if f x then acc ++ [g x] else acc) l acc
  = acc ++ map g (filter f l).
Proof.
  revert acc. induction l as [|x l IH]; intros acc; simpl.
  - now rewrite app_nil_r.
  - rewrite IH. destruct (f x); simpl; [now rewrite <- app_assoc|reflexivity].
Qed.

Lemma rule_tags_filter (h : pystr) :
  rule_tags h = map fst (filter (fun r => any_kw h (snd r)) TAG_RULES).
Proof. unfold rule_tags. now rewrite fold_left_collect. Qed.

(** Without repeated tags the loop of [dedup] copies its input. *)
Lemma dedup_loop (l out : list pystr) :
  NoDup (out ++ l) ->
  fold_left (fun out t => if negb (mem t out) then out ++ [t] else out) l out
  = out ++ l.
Proof.
  revert out. induction l as [|t l IH]; intros out Hnd; simpl.
  - now rewrite app_nil_r.
  - assert (Hmem : mem t out = false).
    { destruct (mem t out) eqn:Hm; [|reflexivity].
      apply mem_In in Hm. apply NoDup_remove_2 in Hnd.
      exfalso. apply Hnd. apply in_or_app. now left. }
    rewrite Hmem. simpl. rewrite IH; rewrite <- app_assoc; [reflexivity|].
    exact Hnd.
Qed.

Lemma dedup_NoDup (l : list pystr) : NoDup l -> dedup l = l.
Proof. intros H. unfold dedup. now rewrite dedup_loop. Qed.

Lemma NoDup_map_filter {A B : Type} (g : A -> B) (f : A -> bool)
    (l : list A) :
  NoDup (map g l) -> NoDup (map g (filter f l)).
Proof.
  induction l as [|x l IH]; simpl; intros H; [constructor|].
  inversion H as [|? ? Hnotin Hnd]; subst.
  destruct (f x); simpl; auto. constructor; auto.
  intros Hin. apply Hnotin. apply in_map_iff in Hin as [y [Hy Hin]].
  apply filter_In in Hin. apply in_map_iff. exists y. tauto.
Qed.

Lemma all_tag_names_NoDup : NoDup all_tag_names.
Proof.
  assert (H : nodup pystr_eq_dec all_tag_names = all_tag_names)
    by (vm_compute; reflexivity).
  rewrite <- H. apply NoDup_nodup.
Qed.

Lemma tag_list_NoDup (opp : Opportunity) :
  NoDup (rule_tags (hay opp) ++ derived_tags opp).
Proof.
  assert (Hall := all_tag_names_NoDup). unfold all_tag_names in Hall.
  assert (Hrules := NoDup_app_remove_r _ _ Hall).
  rewrite rule_tags_filter. apply NoDup_app.
  - now apply NoDup_map_filter.
  - unfold derived_tags.
    destruct (truthy (close_date opp)), (is_true (is_cost_sharing opp));
      simpl; repeat constructor; simpl; intuition discriminate.
  - intros t Hin Hd.
    assert (Hin' : In t (map fst TAG_RULES)).
    { apply in_map_iff in Hin as [r [Hr Hin]]. apply filter_In in Hin.
      apply in_map_iff. exists r. tauto. }
    assert (Hd' : In t [str "has_deadline"; str "cost_sharing"]).
    { unfold derived_tags in Hd.
      destruct (truthy (close_date opp)), (is_true (is_cost_sharing opp));
        simpl in *; tauto. }
    clear - Hall Hin' Hd'.
    apply NoDup_app_remove_l in Hall as Hder.
    revert Hin' Hd'. generalize dependent t.
    assert (Hdisj : forall t, In t (map fst TAG_RULES) ->
              ~ In t [str "has_deadline"; str "cost_sharing"]).
    { intros t Hin [<-|[<-|[]]]; simpl in Hin;
        repeat (destruct Hin as [Hin|Hin]; [discriminate|]); exact Hin. }
    exact Hdisj.
Qed.

Lemma apply_tags_tags (opp : Opportunity) :
  tags (apply_tags opp) = rule_tags (hay opp) ++ derived_tags opp.
Proof.
  assert (Hnd := tag_list_NoDup opp).
  unfold apply_tags, set_tags, derived_tags in *. cbn [tags].
  destruct (truthy (close_date opp)), (is_true (is_cost_sharing opp));
    cbn [app] in *; rewrite <- ?app_assoc, ?app_nil_r in *; cbn [app] in *;
    now apply dedup_NoDup.
Qed.

Lemma keywords_lower :
  forall tag kws kw, In (tag, kws) TAG_RULES -> In kw kws -> lower kw = kw.
Proof.
  intros tag kws kw Hr Hk. simpl in Hr.
  repeat (destruct Hr as [Hr|Hr];
    [inversion Hr; subst; simpl in Hk;
     repeat (destruct Hk as [Hk|Hk]; [subst; reflexivity|]); contradiction|]).
  contradiction.
Qed.

Lemma rule_of_tag tag kws kws' :
  In (tag, kws) TAG_RULES -> In (tag, kws') TAG_RULES -> kws = kws'.
Proof.
  intros H H'. simpl in H, H'.
  repeat (destruct H as [H|H]; [inversion H; subst; clear H|]);
    try contradiction;
  repeat (destruct H' as [H'|H']; [inversion H'; subst; clear H'|]);
    try contradiction; try reflexivity; try discriminate.
Qed.

Lemma rule_tag_not_derived tag kws (opp : Opportunity) :
  In (tag, kws) TAG_RULES -> ~ In tag (derived_tags opp).
Proof.
  intros H Hd.
  assert (Hd' : In tag [str "has_deadline"; str "cost_sharing"]).
  { unfold derived_tags in Hd.
    destruct (truthy (close_date opp)), (is_true (is_cost_sharing opp));
      simpl in *; tauto. }
  simpl in H, Hd'.
  repeat (destruct H as [H|H]; [inversion H; subst; clear H|]);
    try contradiction;
  destruct Hd' as [Hd'|[Hd'|[]]]; discriminate.
Qed.

End Tags.

(** C2, as the code has it. For every record the tag list is the tags of
    the table, in table order, whose rule has a keyword occurring (case
    ignored) in the blank-joined text fields, followed by [has_deadline]
    when the close date is filled in and [cost_sharing] when the flag is
    true; no tag occurs twice. The title "AI for Climate Resilience" has
    no keyword of [ai_ml] in it: with a close date it gives
    [climate_environment] and [has_deadline], in that order, and nothing
    else. *)
Theorem apply_tags_rule_table :
  (forall opp : Opportunity,
     let t := tags (apply_tags opp) in
     t = map fst (filter (fun r => any_kw (hay opp) (snd r)) TAG_RULES)
         ++ derived_tags opp
     /\ (forall tag kws, In (tag, kws) TAG_RULES ->
           (In tag t <->
            exists kw, In kw kws /\ ci_substring kw (fields_text opp)))
     /\ NoDup t)
  /\ tags (apply_tags climate_example)
     = [str "climate_environment"; str "has_deadline"].
Proof.
  split; [|vm_compute; reflexivity].
  intros opp t. subst t. rewrite apply_tags_tags.
  split; [now rewrite rule_tags_filter|split].
  - intros tag kws Hrule. rewrite in_app_iff, rule_tags_filter. split.
    + intros [Hin|Hin]; [|now apply rule_tag_not_derived with (kws := kws) in Hin].
      apply in_map_iff in Hin as [[tag' kws'] [Htag Hin]]. simpl in Htag. subst.
      apply filter_In in Hin as [Hin Hany]. simpl in Hany.
      rewrite (rule_of_tag Hrule Hin).
      unfold any_kw in Hany. apply existsb_exists in Hany as [kw [Hkw Hc]].
      exists kw. split; [assumption|].
      apply contains_lower; [now apply (keywords_lower Hin)|exact Hc].
    + intros [kw [Hkw Hsub]]. left. apply in_map_iff.
      exists (tag, kws). split; [reflexivity|]. apply filter_In.
      split; [assumption|]. simpl. unfold any_kw. apply existsb_exists.
      exists kw. split; [assumption|].
      apply contains_lower; [now apply (keywords_lower Hrule)|exact Hsub].
  - apply tag_list_NoDup.
Qed.

Lemma apply_tags_rule_table_witness :
  In (str "climate_environment",
      map str ["climate"; "environment"; "sustainability"; "emissions"]%string)
     TAG_RULES
  /\ (In (str "climate_environment") (tags (apply_tags climate_example))
      <-> exists kw,
            In kw (map str ["climate"; "environment"; "sustainability";
                            "emissions"]%string)
            /\ ci_substring kw (fields_text climate_example)).
Proof.
  assert (Hr : In (str "climate_environment",
                   map str ["climate"; "environment"; "sustainability";
                            "emissions"]%string) TAG_RULES)
    by (do 4 right; left; reflexivity).
  split; [exact Hr|].
  exact (proj1 (proj2 (proj1 apply_tags_rule_table climate_example)) _ _ Hr).
Defined.

(** C2 as the specification words its example: the tag list of that record
    would hold [ai_ml]. It does not. *)
Lemma ai_ml_not_tagged :
  opportunity_title climate_example = Some (str "AI for Climate Resilience")
  /\ truthy (close_date climate_example) = true
  /\ ~ In (str "ai_ml") (tags (apply_tags climate_example)).
Proof.
  split; [reflexivity|split; [reflexivity|]].
  vm_compute. intros [H|[H|[]]]; discriminate.
Qed.

(* ================================================================== *)
(** * Links *)

Section StringOrder.

Lemma code_inj (a b : ascii) : code a = code b -> a = b.
Proof.
  unfold code. intros H.
  rewrite <- (ascii_nat_embedding a), <- (ascii_nat_embedding b).
  now rewrite H.
Qed.

Lemma str_leb_refl (a : pystr) : str_leb a a = true.
Proof.
  induction a as [|x a IH]; simpl; [reflexivity|].
  now rewrite Nat.ltb_irrefl.
Qed.

Lemma str_leb_antisym (a b : pystr) :
  str_leb a b = true -> str_leb b a = true -> a = b.
Proof.
  revert b. induction a as [|x a IH]; intros [|y b]; simpl;
    try discriminate; [reflexivity|].
  destruct (Nat.ltb_spec (code x) (code y)) as [Hxy|Hxy];
  destruct (Nat.ltb_spec (code y) (code x)) as [Hyx|Hyx];
    try discriminate; try lia.
  intros H1 H2. f_equal; [apply code_inj; lia|now apply IH].
Qed.

Lemma str_leb_trans (a b c : pystr) :
  str_leb a b = true -> str_leb b c = true -> str_leb a c = true.
Proof.
  revert b c. induction a as [|x a IH]; intros [|y b] [|z c]; simpl;
    try discriminate; try reflexivity.
  destruct (Nat.ltb_spec (code x) (code y)) as [Hxy|Hxy];
  destruct (Nat.ltb_spec (code y) (code x)) as [Hyx|Hyx];
  destruct (Nat.ltb_spec (code y) (code z)) as [Hyz|Hyz];
  destruct (Nat.ltb_spec (code z) (code y)) as [Hzy|Hzy];
  destruct (Nat.ltb_spec (code x) (code z)) as [Hxz|Hxz];
  destruct (Nat.ltb_spec (code z) (code x)) as [Hzx|Hzx];
    try discriminate; try reflexivity; try lia.
  apply IH.
Qed.

Lemma str_leb_total (a b : pystr) :
  str_leb a b = true \/ str_leb b a = true.
Proof.
  revert b. induction a as [|x a IH]; intros [|y b]; simpl; auto.
  destruct (Nat.ltb_spec (code x) (code y)) as [Hxy|Hxy];
  destruct (Nat.ltb_spec (code y) (code x)) as [Hyx|Hyx]; auto.
Qed.

Lemma str_lt_irrefl (a : pystr) : ~ str_lt a a.
Proof. intros [_ H]. now apply H. Qed.

Lemma str_lt_trans (a b c : pystr) : str_lt a b -> str_lt b c -> str_lt a c.
Proof.
  intros [Hab Hne] [Hbc Hne']. split; [now apply str_leb_trans with b|].
  intros ->. apply Hne. now apply str_leb_antisym.
Qed.

Lemma str_lt_asym (a b : pystr) : str_lt a b -> ~ str_lt b a.
Proof.
  intros H H'. apply (@str_lt_irrefl a). now apply str_lt_trans with b.
Qed.

End StringOrder.

Section Sorting.

Lemma insert_sorted_perm (x : pystr) (l : list pystr) :
  Permutation (insert_sorted x l) (x :: l).
Proof.
  induction l as [|y l IH]; simpl; [reflexivity|].
  destruct (str_leb x y); [reflexivity|].
  rewrite IH. apply perm_swap.
Qed.

Lemma sorted_perm (l : list pystr) : Permutation (sorted l) l.
Proof.
  induction l as [|x l IH]; simpl; [reflexivity|].
  rewrite insert_sorted_perm. now constructor.
Qed.

Lemma insert_sorted_le (x : pystr) (l : list pystr) :
  StronglySorted str_le l -> StronglySorted str_le (insert_sorted x l).
Proof.
  induction 1 as [|y l Hs IH Hall]; simpl.
  - constructor; constructor.
  - destruct (str_leb x y) eqn:Hxy.
    + constructor; [now constructor|].
      constructor; [exact Hxy|].
      eapply Forall_impl; [|exact Hall].
      intros z Hz. now apply str_leb_trans with y.
    + constructor; [exact IH|].
      assert (Hyx : str_le y x).
      { destruct (str_leb_total x y) as [H|H]; [congruence|exact H]. }
      rewrite Forall_forall in *. intros z Hz.
      apply (Permutation_in _ (insert_sorted_perm x l)) in Hz.
      destruct Hz as [<-|Hz]; auto.
Qed.

Lemma sorted_le (l : list pystr) : StronglySorted str_le (sorted l).
Proof.
  induction l as [|x l IH]; simpl; [constructor|now apply insert_sorted_le].
Qed.

Lemma le_NoDup_strict (l : list pystr) :
  StronglySorted str_le l -> NoDup l -> strictly_sorted l.
Proof.
  induction 1 as [|x l Hs IH Hall]; intros Hnd; [constructor|].
  inversion Hnd as [|? ? Hnotin Hnd']; subst.
  constructor; [now apply IH|].
  rewrite Forall_forall in *. intros y Hy. split; [now apply Hall|].
  intros ->. contradiction.
Qed.

(** [sorted(set(l))] is sorted, has nothing twice, and has the members of
    [l]. *)
Lemma sorted_set_strict (l : list pystr) : strictly_sorted (sorted (set_of l)).
Proof.
  apply le_NoDup_strict; [apply sorted_le|].
  apply (Permutation_NoDup (Permutation_sym (sorted_perm _))).
  apply NoDup_nodup.
Qed.

Lemma sorted_set_In (l : list pystr) (x : pystr) :
  In x (sorted (set_of l)) <-> In x l.
Proof.
  unfold set_of. rewrite <- (nodup_In pystr_eq_dec l x). split.
  - apply Permutation_in, sorted_perm.
  - apply Permutation_in, Permutation_sym, sorted_perm.
Qed.

(** Two strictly sorted lists with the same members are the same list:
    the order in which a set hands out its members does not show under
    [sorted]. *)
Lemma strictly_sorted_unique (l1 l2 : list pystr) :
  strictly_sorted l1 -> strictly_sorted l2 ->
  (forall x, In x l1 <-> In x l2) -> l1 = l2.
Proof.
  intros H1. revert l2.
  induction H1 as [|x l1 Hs1 IH Hall1]; intros l2 H2 Hmem.
  - destruct l2 as [|y l2]; [reflexivity|].
    exfalso. apply (proj2 (Hmem y)). now left.
  - destruct H2 as [|y l2 Hs2 Hall2].
    + exfalso. apply (proj1 (Hmem x)). now left.
    + rewrite Forall_forall in Hall1, Hall2.
      assert (Hxy : x = y).
      { destruct (proj1 (Hmem x) (or_introl eq_refl)) as [Heq|Hin];
          [now symmetry|].
        destruct (proj2 (Hmem y) (or_introl eq_refl)) as [Heq|Hin'];
          [assumption|].
        exfalso. apply (@str_lt_asym x y); auto. }
      subst y. f_equal. apply IH; [assumption|].
      intros z. split; intros Hz.
      * destruct (proj1 (Hmem z) (or_intror Hz)) as [<-|Hin]; [|assumption].
        exfalso. apply (@str_lt_irrefl x). auto.
      * destruct (proj2 (Hmem z) (or_intror Hz)) as [<-|Hin]; [|assumption].
        exfalso. apply (@str_lt_irrefl x). auto.
Qed.

Lemma sorted_set_ext (l1 l2 : list pystr) :
  (forall x, In x l1 <-> In x l2) ->
  sorted (set_of l1) = sorted (set_of l2).
Proof.
  intros H. apply strictly_sorted_unique; try apply sorted_set_strict.
  intros x. now rewrite !sorted_set_In.
Qed.

End Sorting.

Section Links.

Lemma endswith_app (p s : pystr) :
  endswith p s = true <-> exists pre, s = pre ++ p.
Proof.
  unfold endswith. rewrite startswith_app. split.
  - intros [post H]. exists (rev post).
    rewrite <- (rev_involutive s), H, rev_app_distr. now rewrite rev_involutive.
  - intros [pre ->]. exists (rev pre). apply rev_app_distr.
Qed.

Lemma is_pdf_iff (h : pystr) : is_pdf (lower h) = true <-> pdf_like h.
Proof.
  unfold is_pdf, pdf_like.
  now rewrite orb_true_iff, endswith_app, contains_app.
Qed.

Lemma link_step_spec (acc : list pystr * list pystr) (a : anchor) :
  href a <> None ->
  link_step acc a =
  match link_of a with
  | Some (true, h) => (fst acc, snd acc ++ [h])
  | Some (false, h) => (fst acc ++ [h], snd acc)
  | None => acc
  end.
Proof.
  unfold link_step, link_of. destruct (href a) as [raw|]; [|congruence].
  intros _. cbn [or_empty]. destruct (strip raw) as [|c h] eqn:Hs; [reflexivity|].
  destruct (startswith (str "http") (c :: h)); [|reflexivity].
  destruct (is_pdf (lower (c :: h))); reflexivity.
Qed.

Lemma links_loop (l : list anchor) (acc : list pystr * list pystr) :
  Forall (fun a => href a <> None) l ->
  forall h,
    (In h (fst (fold_left link_step l acc)) <->
       In h (fst acc) \/ exists a, In a l /\ link_of a = Some (false, h))
    /\ (In h (snd (fold_left link_step l acc)) <->
       In h (snd acc) \/ exists a, In a l /\ link_of a = Some (true, h)).
Proof.
  intros Hl. revert acc. induction Hl as [|a l Ha Hl IH]; intros acc h; simpl.
  - split; (split; [auto|intros [H|[a [[] _]]]; exact H]).
  - destruct (IH (link_step acc a) h) as [IH1 IH2].
    rewrite IH1, IH2, (link_step_spec acc Ha). clear IH IH1 IH2.
    destruct (link_of a) as [[[|] h']|] eqn:Hlink; simpl;
      rewrite ?in_app_iff; simpl; split; split;
      try (intros [H|[a' [Hin Heq]]]; [tauto|right; exists a'; tauto]);
      try (intros [[H|[<-|[]]]|[a' [Hin Heq]]];
           [tauto|right; exists a; tauto|right; exists a'; tauto]);
      try (intros [H|[a' [[<-|Hin] Heq]]];
           [tauto|congruence|right; exists a'; tauto]);
      try (intros [H|[a' [[<-|Hin] Heq]]];
           [tauto|left; right; left; congruence| right; exists a'; tauto]).
Qed.

Lemma find_all_a_href_In (anchors : list anchor) (a : anchor) :
  In a (find_all_a_href anchors) <-> In a anchors /\ href a <> None.
Proof.
  unfold find_all_a_href. rewrite filter_In.
  destruct (href a); intuition congruence.
Qed.

Lemma link_of_http (anchors : list anchor) (b : bool) (h : pystr) :
  (exists a, In a (find_all_a_href anchors) /\ link_of a = Some (b, h))
  <-> http_href anchors h /\ is_pdf (lower h) = b.
Proof.
  unfold http_href, link_of. split.
  - intros [a [Hin Hlink]]. apply find_all_a_href_In in Hin as [Hin _].
    destruct (href a) as [raw|] eqn:Hhref; [|discriminate].
    destruct (startswith (str "http") (strip raw)) eqn:Hs; [|discriminate].
    inversion Hlink; subst. split; [|reflexivity].
    exists a, raw. auto.
  - intros [[a [raw [Hin [Hhref [-> Hs]]]]] Hpdf].
    exists a. split; [apply find_all_a_href_In; split; congruence|].
    now rewrite Hhref, Hs, Hpdf.
Qed.

Lemma extract_links_In (anchors : list anchor) (h : pystr) :
  (In h (fst (extract_links anchors)) <->
     http_href anchors h /\ is_pdf (lower h) = false)
  /\ (In h (snd (extract_links anchors)) <->
     http_href anchors h /\ is_pdf (lower h) = true).
Proof.
  unfold extract_links.
  assert (Hall : Forall (fun a => href a <> None) (find_all_a_href anchors)).
  { apply Forall_forall. intros a Ha. now apply find_all_a_href_In in Ha. }
  destruct (links_loop ([], []) Hall h) as [H1 H2].
  rewrite H1, H2, !link_of_http. simpl. tauto.
Qed.

Lemma http_href_perm (l l' : list anchor) (h : pystr) :
  Permutation l l' -> http_href l h -> http_href l' h.
Proof.
  intros Hp [a [raw [Hin H]]]. exists a, raw.
  split; [now apply (Permutation_in _ Hp)|exact H].
Qed.

Lemma classify_links_eq (anchors : list anchor) :
  classify_links anchors
  = (sorted (set_of (fst (extract_links anchors))),
     sorted (set_of (snd (extract_links anchors)))).
Proof. unfold classify_links. now destruct (extract_links anchors). Qed.

End Links.

(** C6, as the code has it. The two link lists are sorted with no entry
    twice. The documents are the stripped hrefs that start with ["http"]
    (in lower case, whatever follows) and whose lower-case form ends in
    [.pdf] or has [.pdf?] in it; the external links are the other stripped
    hrefs that start with ["http"]; hrefs that are empty or do not start
    with ["http"] are in neither list. Anchors in another order give the
    same two lists. The hrefs [https://a.gov/x.pdf], [https://a.gov/page],
    [/relative] give the documents [[https://a.gov/x.pdf]] and the external
    links [[https://a.gov/page]]. *)
Theorem classify_links_sorted_partition :
  (forall anchors : list anchor,
     let external_links := fst (classify_links anchors) in
     let documents := snd (classify_links anchors) in
     strictly_sorted documents /\ strictly_sorted external_links
     /\ (forall h, In h documents <-> http_href anchors h /\ pdf_like h)
     /\ (forall h, In h external_links <->
                   http_href anchors h /\ ~ pdf_like h)
     /\ (forall anchors', Permutation anchors anchors' ->
           classify_links anchors' = classify_links anchors))
  /\ classify_links link_example
     = ([str "https://a.gov/page"], [str "https://a.gov/x.pdf"]).
Proof.
  split; [|vm_compute; reflexivity].
  intros anchors. cbv zeta. rewrite classify_links_eq. cbn [fst snd].
  split; [apply sorted_set_strict|]. split; [apply sorted_set_strict|].
  split; [|split].
  - intros h.
    rewrite sorted_set_In, (proj2 (extract_links_In anchors h)), is_pdf_iff.
    reflexivity.
  - intros h.
    rewrite sorted_set_In, (proj1 (extract_links_In anchors h)), <- is_pdf_iff.
    destruct (is_pdf (lower h)); intuition congruence.
  - intros anchors' Hp. rewrite classify_links_eq.
    assert (Habs : forall h, http_href anchors' h <-> http_href anchors h).
    { intros h. split; apply http_href_perm;
        [now apply Permutation_sym|assumption]. }
    f_equal; apply sorted_set_ext; intros h.
    + now rewrite (proj1 (extract_links_In anchors' h)),
                  (proj1 (extract_links_In anchors h)), Habs.
    + now rewrite (proj2 (extract_links_In anchors' h)),
                  (proj2 (extract_links_In anchors h)), Habs.
Qed.

Lemma classify_links_sorted_partition_witness :
  Permutation link_example (rev link_example)
  /\ classify_links (rev link_example) = classify_links link_example.
Proof.
  assert (Hp : Permutation link_example (rev link_example))
    by apply Permutation_rev.
  split; [exact Hp|].
  exact (proj2 (proj2 (proj2 (proj2
           (proj1 classify_links_sorted_partition link_example)))) _ Hp).
Defined.

(* ================================================================== *)
(** * Dates *)

Section Dates.

Lemma strptime_raises (s fmt : pystr) (e : exn) :
  strptime s fmt = Raise e -> e = ValueError.
Proof.
  unfold strptime.
  destruct (format_regex (parse_format false fmt)); [|congruence].
  destruct (re_match true r s); [|congruence].
  destruct (negb (length s =? match_end m)); [congruence|].
  match goal with |- context [valid_date ?d] => destruct (valid_date d) end;
    congruence.
Qed.

Lemma strptime_cases (s fmt : pystr) :
  (exists d, strptime s fmt = Ok d) \/ fails_with s fmt.
Proof.
  destruct (strptime s fmt) as [d|e] eqn:H; [left; now exists d|right].
  unfold fails_with. rewrite H. f_equal. now apply strptime_raises in H.
Qed.

Lemma strptime_valid (s fmt : pystr) (d : date) :
  strptime s fmt = Ok d -> valid_date d = true.
Proof.
  unfold strptime.
  destruct (format_regex (parse_format false fmt)); [|discriminate].
  destruct (re_match true r s); [|discriminate].
  destruct (negb (length s =? match_end m)); [discriminate|].
  match goal with |- context [valid_date ?d] =>
    destruct (valid_date d) eqn:Hv end; [|discriminate].
  intros H. inversion H. now subst.
Qed.

Lemma digit_char_is_digit (n : nat) : is_digit (digit_char (n mod 10)) = true.
Proof.
  assert (H : n mod 10 < 10) by (apply Nat.mod_upper_bound; lia).
  unfold is_digit, between, code, digit_char.
  rewrite nat_ascii_embedding by lia.
  apply andb_true_iff. split; apply Nat.leb_le; lia.
Qed.

Lemma isoformat_is_iso (d : date) : is_iso (isoformat d) = true.
Proof.
  unfold isoformat, is_iso. cbn [app str list_ascii_of_string forallb].
  now rewrite !digit_char_is_digit.
Qed.

Lemma try_formats_first (s : pystr) (pre post : list pystr) (fmt : pystr)
    (d : date) :
  Forall (fails_with s) pre -> strptime s fmt = Ok d ->
  try_formats s (pre ++ fmt :: post) = Ok (isoformat d).
Proof.
  induction 1 as [|f pre Hf Hpre IH]; intros Hd; simpl.
  - now rewrite Hd.
  - rewrite Hf. now apply IH.
Qed.

Lemma try_formats_none (s : pystr) (fmts : list pystr) :
  Forall (fails_with s) fmts -> try_formats s fmts = Ok s.
Proof.
  induction 1 as [|f fmts Hf Hfmts IH]; simpl; [reflexivity|].
  now rewrite Hf.
Qed.

Lemma try_formats_total (s : pystr) (fmts : list pystr) :
  exists r, try_formats s fmts = Ok r.
Proof.
  induction fmts as [|f fmts IH]; simpl; [now exists s|].
  destruct (strptime_cases s f) as [[d ->]| ->]; [now exists (isoformat d)|].
  exact IH.
Qed.

Lemma to_iso_date_some (s : pystr) :
  s <> [] ->
  to_iso_date (Some s)
  = (r <- try_formats (clean s) DATE_FORMATS ;; Ok (Some r)).
Proof. destruct s; [congruence|reflexivity]. Qed.

End Dates.

(** C4. [to_iso_date] tries ["%m/%d/%Y"], ["%B %d, %Y"], ["%b %d, %Y"],
    ["%Y-%m-%d"] in this order on the cleaned input. The first format under
    which [strptime] parses it decides the result, which is the ISO form
    [YYYY-MM-DD] of a date of the calendar; when [strptime] rejects it
    under all four the cleaned input itself is returned. No [ValueError]
    escapes, [None] is returned only for [None] and for the empty
    string. *)
Theorem to_iso_date_formats :
  DATE_FORMATS = map str ["%m/%d/%Y"; "%B %d, %Y"; "%b %d, %Y"; "%Y-%m-%d"]%string
  /\ to_iso_date None = Ok None /\ to_iso_date (Some []) = Ok None
  /\ (forall s : pystr, s <> [] ->
        (forall pre fmt post d,
            DATE_FORMATS = pre ++ fmt :: post ->
            Forall (fails_with (clean s)) pre ->
            strptime (clean s) fmt = Ok d ->
            to_iso_date (Some s) = Ok (Some (isoformat d))
            /\ is_iso (isoformat d) = true /\ valid_date d = true)
        /\ (Forall (fails_with (clean s)) DATE_FORMATS ->
            to_iso_date (Some s) = Ok (Some (clean s)))
        /\ (forall fmt, (exists d, strptime (clean s) fmt = Ok d)
                        \/ fails_with (clean s) fmt)
        /\ exists r, to_iso_date (Some s) = Ok (Some r))
  /\ to_iso_date (Some (str "08/01/2025")) = Ok (Some (str "2025-08-01"))
  /\ to_iso_date (Some (str "August 1, 2025")) = Ok (Some (str "2025-08-01"))
  /\ to_iso_date (Some (str "Aug 1, 2025")) = Ok (Some (str "2025-08-01"))
  /\ to_iso_date (Some (str "2025-8-1")) = Ok (Some (str "2025-08-01"))
  /\ to_iso_date (Some (str " to be   announced ")) =
     Ok (Some (str "to be announced")).
Proof.
  split; [reflexivity|]. split; [reflexivity|]. split; [reflexivity|].
  split; [|repeat split; vm_compute; reflexivity].
  intros s Hs. rewrite (to_iso_date_some Hs).
  split; [|split; [|split]].
  - intros pre fmt post d Hfmts Hpre Hd. rewrite Hfmts.
    rewrite (try_formats_first post Hpre Hd).
    split; [reflexivity|]. split; [apply isoformat_is_iso|].
    exact (strptime_valid Hd).
  - intros Hnone. now rewrite (try_formats_none Hnone).
  - intros fmt. apply strptime_cases.
  - destruct (try_formats_total (clean s) DATE_FORMATS) as [r ->].
    now exists r.
Qed.

Lemma to_iso_date_formats_witness :
  str "Aug 1, 2025" <> []
  /\ to_iso_date (Some (str "Aug 1, 2025")) = Ok (Some (str "2025-08-01")).
Proof.
  assert (Hs : str "Aug 1, 2025" <> []) by discriminate.
  split; [exact Hs|].
  destruct to_iso_date_formats as [_ [_ [_ [H _]]]].
  destruct (H _ Hs) as [Hfirst _].
  refine (proj1 (Hfirst (firstn 2 DATE_FORMATS) (str "%b %d, %Y")
                        (skipn 3 DATE_FORMATS)
                        (Date 2025 8 1) eq_refl _ _)).
  - repeat constructor.
  - vm_compute. reflexivity.
Defined.

(* ================================================================== *)
(** * Nothing raises *)

Section Totality.

Lemma group_of_match (m : option mstate) (n : nat) :
  is_match m = true -> exists g, group m n = Ok g.
Proof. destruct m as [st|]; [intros _; now eexists|discriminate]. Qed.

Lemma find_label_total (text label : pystr) :
  exists v, find_label text label = Ok v.
Proof.
  unfold find_label.
  destruct (is_match _) eqn:Hm; [|now eexists].
  destruct (group_of_match 1 Hm) as [g ->]. now eexists.
Qed.

Lemma extract_opportunity_id_total (url : pystr) :
  exists v, extract_opportunity_id url = Ok v.
Proof.
  unfold extract_opportunity_id.
  destruct (is_match (re_search false re_detail_id url)) eqn:H1;
    [now apply group_of_match|].
  destruct (is_match (re_search false re_opportunity_id url)) eqn:H2;
    [now apply group_of_match|].
  now eexists.
Qed.

Lemma to_iso_date_total (s : option pystr) :
  exists v, to_iso_date s = Ok v.
Proof.
  unfold to_iso_date. destruct (negb (truthy s)); [now eexists|].
  destruct (try_formats_total (clean_text s) DATE_FORMATS) as [r ->].
  now eexists.
Qed.

Lemma first_date_token_total (s : option pystr) :
  exists v, first_date_token s = Ok v.
Proof.
  unfold first_date_token. destruct (negb (truthy s)); [now eexists|].
  destruct (is_match (re_search false re_word_date _)) eqn:H1.
  { destruct (group_of_match 1 H1) as [g ->]. apply to_iso_date_total. }
  destruct (is_match (re_search false re_slash_date _)) eqn:H2.
  { destruct (group_of_match 1 H2) as [g ->]. apply to_iso_date_total. }
  destruct (is_match (re_search false re_iso_date _)) eqn:H3;
    [now apply group_of_match|now eexists].
Qed.

Lemma or_else_total (a : option pystr) (b : result (option pystr)) :
  (exists v, b = Ok v) -> exists v, or_else a b = Ok v.
Proof. unfold or_else. destruct (truthy a); [now eexists|auto]. Qed.

Lemma bind_total {A B : Type} (m : result A) (f : A -> result B) :
  (exists a, m = Ok a) -> (forall a, exists b, f a = Ok b) ->
  exists b, bind m f = Ok b.
Proof. intros [a ->] Hf. apply Hf. Qed.

End Totality.

(** One call of the record assembly returns: name what it returns. *)
Ltac returns :=
  match goal with
  | |- context [bind (find_label ?t ?l) _] =>
      let v := fresh "v" in let H := fresh "Hv" in
      destruct (find_label_total t l) as [v H]; rewrite H; cbn [bind]
  | |- context [bind (first_date_token ?s) _] =>
      let v := fresh "v" in let H := fresh "Hv" in
      destruct (first_date_token_total s) as [v H]; rewrite H; cbn [bind]
  | |- context [bind (extract_opportunity_id ?u) _] =>
      let v := fresh "v" in let H := fresh "Hv" in
      destruct (extract_opportunity_id_total u) as [v H]; rewrite H;
      cbn [bind]
  | |- context [bind (or_else ?a ?b) _] =>
      let v := fresh "v" in let H := fresh "Hv" in
      let Hb := fresh "Hb" in
      assert (Hb : exists v, or_else a b = Ok v);
      [ repeat first [ apply find_label_total
                     | apply or_else_total
                     | apply bind_total; [|intros] ]
      | destruct Hb as [v H]; rewrite H; cbn [bind] ]
  end.

Section Assembly.

Variables (url title text created updated : pystr) (anchors : list anchor).

(** The record assembly returns a record, whose cost-sharing flag is what
    lines 255-257 make of the label's value. *)
Lemma collect_fields_returns :
  exists opp cost_sharing,
    collect_fields url title text created updated anchors = Ok opp
    /\ find_label (clean text) COST_SHARING_LABEL = Ok cost_sharing
    /\ is_cost_sharing opp =
       if truthy cost_sharing
       then Some (startswith (str "y")
                    (lower (strip (or_empty cost_sharing))))
       else None.
Proof.
  unfold collect_fields. cbv zeta.
  repeat returns.
  destruct (classify_links anchors) as [external_links documents].
  match goal with
  | H : find_label _ (str "Cost sharing or matching requirement") = Ok ?v
    |- _ => eexists; exists v; split; [reflexivity|split; [exact H|reflexivity]]
  end.
Qed.

Lemma assemble_returns :
  exists opp, assemble url title text created updated anchors = Ok opp.
Proof.
  unfold assemble.
  destruct collect_fields_returns as [opp [cs [-> _]]]. now eexists.
Qed.

End Assembly.


(* ================================================================== *)
(** * The cost-sharing flag *)

Section CostSharing.

Lemma lower_char_y (c : ascii) :
  lower_char c = "y"%char <-> c = "y"%char \/ c = "Y"%char.
Proof.
  destruct c as [[|] [|] [|] [|] [|] [|] [|] [|]]; vm_compute;
    (split; [intros H; try discriminate H; auto
            |intros [H|H]; try discriminate H; reflexivity]).
Qed.

Lemma startswith_y (s : pystr) :
  startswith (str "y") (lower s) = true <-> begins_with_y s.
Proof.
  unfold begins_with_y. change (str "y") with ["y"%char].
  destruct s as [|c s]; cbn [lower map startswith].
  - split; [discriminate|]. intros [c [s' [H _]]]. discriminate.
  - rewrite andb_true_r, ascii_eqb_eq. split.
    + intros H. exists c, s. split; [reflexivity|].
      apply lower_char_y. now symmetry.
    + intros [c' [s' [Heq Hy]]]. inversion Heq; subst.
      symmetry. now apply lower_char_y.
Qed.

Lemma cost_sharing_tag (opp : Opportunity) :
  In (str "cost_sharing") (tags (apply_tags opp))
  <-> is_cost_sharing opp = Some true.
Proof.
  rewrite apply_tags_tags, in_app_iff, rule_tags_filter. split.
  - intros [Hin|Hin].
    + exfalso. apply in_map_iff in Hin as [r [Hr Hin]].
      apply filter_In in Hin as [Hin _]. simpl in Hin.
      repeat (destruct Hin as [Hin|Hin]; [subst r; discriminate Hr|]).
      exact Hin.
    + unfold derived_tags in Hin.
      destruct (is_cost_sharing opp) as [[|]|]; [reflexivity| |];
        destruct (truthy (close_date opp)); simpl in Hin;
        repeat (destruct Hin as [Hin|Hin]; [discriminate Hin|]);
        contradiction.
  - intros H. right. unfold derived_tags. rewrite H. simpl.
    apply in_or_app. right. now left.
Qed.

End CostSharing.

(** C10. The record that the assembly returns has its cost-sharing flag
    from the value of the label "Cost sharing or matching requirement":
    with a value that is not empty the flag is set, to true exactly when
    the stripped value begins with y or Y; with no value or an empty one
    the flag stays unset. The tag [cost_sharing] is given exactly when the
    flag is true. *)
Theorem cost_sharing_from_label :
  forall (url title text created updated : pystr) (anchors : list anchor),
  exists opp cost_sharing,
    assemble url title text created updated anchors = Ok opp
    /\ find_label (clean text) COST_SHARING_LABEL = Ok cost_sharing
    /\ (forall v, cost_sharing = Some v -> v <> [] ->
          exists flag, is_cost_sharing opp = Some flag
                       /\ (flag = true <-> begins_with_y (strip v)))
    /\ (cost_sharing = None \/ cost_sharing = Some [] ->
          is_cost_sharing opp = None)
    /\ (In (str "cost_sharing") (tags opp)
        <-> is_cost_sharing opp = Some true).
Proof.
  intros url title text created updated anchors.
  destruct (collect_fields_returns url title text created updated anchors)
    as [opp [cs [Hopp [Hcs Hflag]]]].
  exists (apply_tags opp), cs.
  split; [unfold assemble; now rewrite Hopp|].
  split; [exact Hcs|].
  assert (Hsame : is_cost_sharing (apply_tags opp) = is_cost_sharing opp)
    by reflexivity.
  rewrite Hsame, Hflag. split; [|split].
  - intros v -> Hv. destruct v as [|c v]; [congruence|]. cbn [truthy or_empty].
    eexists. split; [reflexivity|]. apply startswith_y.
  - intros [-> | ->]; reflexivity.
  - rewrite <- Hflag. apply cost_sharing_tag.
Qed.

Lemma cost_sharing_from_label_witness :
  exists opp,
    assemble (str "https://www.grants.gov/search-results-detail/350693")
      (str "Title") cost_sharing_page (str "T1") (str "T2") [] = Ok opp
    /\ is_cost_sharing opp = Some true.
Proof.
  destruct (cost_sharing_from_label
              (str "https://www.grants.gov/search-results-detail/350693")
              (str "Title") cost_sharing_page (str "T1") (str "T2") [])
    as [opp [cs [Hopp [Hcs [Hset _]]]]].
  exists opp. split; [exact Hopp|].
  assert (Hyes : cs = Some (str "Yes")).
  { vm_compute in Hcs. now inversion Hcs. }
  destruct (Hset (str "Yes") Hyes) as [flag [Hflag Hy]]; [discriminate|].
  rewrite Hflag. f_equal. apply Hy.
  exists "Y"%char, (str "es"). split; [vm_compute; reflexivity|now right].
Defined.


(* ================================================================== *)
(** * The matcher *)

(** Case analysis on a character. *)
Ltac each_char c :=
  destruct c as [[|] [|] [|] [|] [|] [|] [|] [|]].

Section Runs.

Variable p : ascii -> bool.

Lemma take_drop_while (s : pystr) : take_while p s ++ drop_while p s = s.
Proof.
  induction s as [|c s IH]; simpl; [reflexivity|].
  destruct (p c); simpl; [now rewrite IH|reflexivity].
Qed.

Lemma take_while_all (s : pystr) : all_of p (take_while p s).
Proof.
  induction s as [|c s IH]; simpl; [constructor|].
  destruct (p c) eqn:Hc; constructor; assumption.
Qed.

Lemma drop_while_head (s : pystr) : head_is p (drop_while p s) = false.
Proof.
  induction s as [|c s IH]; simpl; [reflexivity|].
  destruct (p c) eqn:Hc; [exact IH|simpl; exact Hc].
Qed.

Lemma take_while_app (a b : pystr) :
  all_of p a -> head_is p b = false -> take_while p (a ++ b) = a.
Proof.
  induction 1 as [|c a Hc Ha IH]; intros Hb; simpl.
  - destruct b as [|c b]; simpl in *; [reflexivity|now rewrite Hb].
  - rewrite Hc. now rewrite IH.
Qed.

Lemma drop_while_app (a b : pystr) :
  all_of p a -> head_is p b = false -> drop_while p (a ++ b) = b.
Proof.
  induction 1 as [|c a Hc Ha IH]; intros Hb; simpl.
  - destruct b as [|c b]; simpl in *; [reflexivity|now rewrite Hb].
  - rewrite Hc. now apply IH.
Qed.

Lemma drop_while_all (a b : pystr) :
  all_of p a -> drop_while p (a ++ b) = drop_while p b.
Proof.
  induction 1 as [|c a Hc Ha IH]; simpl; [reflexivity|now rewrite Hc].
Qed.

Lemma take_while_length_app (a b : pystr) :
  all_of p a -> length a <= length (take_while p (a ++ b)).
Proof.
  induction 1 as [|c a Hc Ha IH]; simpl; [lia|]. rewrite Hc. simpl. lia.
Qed.

Lemma take_while_firstn (n : nat) (s : pystr) :
  n <= length (take_while p s) -> all_of p (firstn n s).
Proof.
  revert s. induction n as [|n IH]; intros s Hn; simpl; [constructor|].
  destruct s as [|c s]; simpl in *; [lia|].
  destruct (p c) eqn:Hc; simpl in *; [|lia].
  constructor; [assumption|]. apply IH. lia.
Qed.

End Runs.

Section Matcher.

Variable icase : bool.

Lemma option_match_id {A : Type} (o : option A) :
  match o with Some m => Some m | None => None end = o.
Proof. now destruct o. Qed.

Lemma bt_lits (l sn rs : pystr) (cs : list (nat * pystr)) (k : cont) :
  bt icase (lits l) (MState sn rs cs) k =
  if lit_match icase l rs
  then k (MState (rev (firstn (length l) rs) ++ sn) (skipn (length l) rs) cs)
  else None.
Proof.
  revert sn rs. induction l as [|c l IH]; intros sn rs; [reflexivity|].
  cbn [lits bt rest seen caps lit_match].
  destruct rs as [|x rs]; [reflexivity|].
  destruct (chr_match icase c x); [|reflexivity].
  rewrite IH. cbn [andb length firstn skipn rev].
  now rewrite <- app_assoc.
Qed.

(** When what follows cannot start with a character of the class, a greedy
    repetition takes the whole run or fails. *)
Lemma rep_greedy_committed (p : ascii -> bool) (k : cont) :
  rejects p k ->
  forall rs lo hi sn cs,
    rep_greedy p lo hi k sn cs rs =
    if (lo <=? length (take_while p rs)) && hi_ok hi (length (take_while p rs))
    then k (MState (rev (take_while p rs) ++ sn) (drop_while p rs) cs)
    else None.
Proof.
  intros Hk. induction rs as [|c rs IH]; intros lo hi sn cs.
  - cbn [rep_greedy take_while drop_while length rev app].
    destruct lo as [|lo], hi as [[|h]|]; reflexivity.
  - cbn [rep_greedy take_while drop_while].
    destruct (p c) eqn:Hc.
    + assert (Hhere : (if lo =? 0 then k (MState sn (c :: rs) cs) else None)
                      = None).
      { destruct (lo =? 0); [now apply Hk|reflexivity]. }
      rewrite Hhere.
      destruct (hi_zero hi) eqn:Hz.
      * destruct hi as [[|h]|]; try discriminate.
        cbn [hi_ok length]. now rewrite andb_false_r.
      * rewrite IH. cbn [length rev].
        replace (pred lo <=? length (take_while p rs))
          with (lo <=? S (length (take_while p rs)))
          by (destruct lo; reflexivity).
        replace (hi_ok (hi_pred hi) (length (take_while p rs)))
          with (hi_ok hi (S (length (take_while p rs))))
          by (destruct hi as [[|h]|]; try discriminate; reflexivity).
        rewrite <- app_assoc. cbn [app].
        apply option_match_id.
    + cbn [length rev app].
      destruct lo as [|lo], hi as [[|h]|]; reflexivity.
Qed.

(** A repetition with a fixed count takes that many characters. *)
Lemma rep_greedy_exact (p : ascii -> bool) (k : cont) :
  forall n rs sn cs,
    rep_greedy p n (Some n) k sn cs rs =
    if n <=? length (take_while p rs)
    then k (MState (rev (firstn n rs) ++ sn) (skipn n rs) cs)
    else None.
Proof.
  induction n as [|n IH]; intros rs sn cs.
  - destruct rs; reflexivity.
  - destruct rs as [|c rs]; [reflexivity|].
    cbn [rep_greedy hi_zero hi_pred option_map pred take_while Nat.eqb].
    destruct (p c) eqn:Hc; [|reflexivity].
    rewrite IH. cbn [length firstn skipn rev Nat.leb].
    rewrite <- app_assoc. cbn [app].
    apply option_match_id.
Qed.

(** Without an upper bound, the whole run is tried first. *)
Lemma rep_greedy_longest (p : ascii -> bool) (k : cont) (m : mstate) :
  forall rs lo sn cs,
    lo <= length (take_while p rs) ->
    k (MState (rev (take_while p rs) ++ sn) (drop_while p rs) cs) = Some m ->
    rep_greedy p lo None k sn cs rs = Some m.
Proof.
  induction rs as [|c rs IH]; intros lo sn cs Hlo Hk.
  - cbn in *. replace lo with 0 by lia. exact Hk.
  - cbn [rep_greedy hi_zero hi_pred option_map take_while drop_while] in *.
    destruct (p c) eqn:Hc.
    + rewrite (IH (pred lo) (c :: sn) cs); [reflexivity| |].
      * cbn [length] in Hlo. lia.
      * cbn [rev] in Hk. now rewrite <- app_assoc in Hk.
    + cbn in Hlo. replace lo with 0 by lia. exact Hk.
Qed.

Lemma rep_greedy_short (p : ascii -> bool) (k : cont) :
  forall rs lo hi sn cs,
    length (take_while p rs) < lo -> rep_greedy p lo hi k sn cs rs = None.
Proof.
  induction rs as [|c rs IH]; intros lo hi sn cs Hlo.
  - cbn in *. destruct lo; [lia|]. now destruct (hi_zero hi).
  - cbn [rep_greedy take_while] in *.
    destruct lo as [|lo]; [lia|]. cbn [Nat.eqb].
    destruct (hi_zero hi); [reflexivity|].
    destruct (p c); [|reflexivity].
    rewrite IH; [reflexivity|]. cbn [length pred] in *. lia.
Qed.

(** A lazy [p*?] and the search for a match are both first splits. *)
Lemma rep_lazy_first_split (p : ascii -> bool) (k : cont)
    (cs : list (nat * pystr)) :
  forall rs sn,
    rep_lazy p 0 None k sn cs rs
    = first_split p (fun sn rs => k (MState sn rs cs)) sn rs.
Proof.
  induction rs as [|c rs IH]; intros sn; cbn; [reflexivity|].
  now rewrite IH.
Qed.

Lemma search_first_split (r : regex) :
  forall rs sn,
    search_from icase r sn rs
    = first_split (fun _ => true)
        (fun sn rs => bt icase (whole r) (MState sn rs []) (fun st => Some st))
        sn rs.
Proof.
  induction rs as [|c rs IH]; intros sn; cbn [search_from first_split];
    [reflexivity|].
  now rewrite IH.
Qed.

End Matcher.

Section FirstSplit.

Variables (p : ascii -> bool) (f : pystr -> pystr -> option mstate).

(** A result of [first_split] comes from a split that only characters of
    [p] lead to, and no split before it gives one. *)
Lemma first_split_some (rs sn : pystr) (m : mstate) :
  first_split p f sn rs = Some m ->
  exists a b,
    rs = a ++ b /\ all_of p a /\ f (rev a ++ sn) b = Some m
    /\ forall a1 a2, a = a1 ++ a2 -> a2 <> [] ->
         f (rev a1 ++ sn) (a2 ++ b) = None.
Proof.
  revert sn. induction rs as [|c rs IH]; intros sn; cbn [first_split].
  - destruct (f sn []) eqn:Hf; [|discriminate].
    intros H. inversion H; subst. exists [], []. repeat split; auto.
    + constructor.
    + intros a1 a2 Ha Hne. destruct a1, a2; try discriminate. congruence.
  - destruct (f sn (c :: rs)) eqn:Hf.
    + intros H. inversion H; subst. exists [], (c :: rs).
      repeat split; auto; [constructor|].
      intros a1 a2 Ha Hne. destruct a1, a2; try discriminate. congruence.
    + destruct (p c) eqn:Hc; [|discriminate].
      intros H. apply IH in H as [a [b [-> [Ha [Hm Hfirst]]]]].
      exists (c :: a), b. cbn [rev app]. rewrite <- app_assoc.
      repeat split; auto; [now constructor|].
      intros a1 a2 Heq Hne. destruct a1 as [|x a1].
      * cbn in Heq. subst a2. exact Hf.
      * cbn in Heq. inversion Heq; subst. cbn [rev].
        rewrite <- app_assoc. now apply Hfirst.
Qed.

Lemma first_split_none (rs sn : pystr) :
  first_split p f sn rs = None ->
  forall a b, rs = a ++ b -> all_of p a -> f (rev a ++ sn) b = None.
Proof.
  revert sn. induction rs as [|c rs IH]; intros sn; cbn [first_split].
  - destruct (f sn []) eqn:Hf; [discriminate|].
    intros _ a b Heq _. destruct a, b; try discriminate. exact Hf.
  - destruct (f sn (c :: rs)) eqn:Hf; [discriminate|].
    intros H a b Heq Ha. destruct a as [|x a].
    + cbn in Heq. subst b. exact Hf.
    + cbn in Heq. inversion Heq; subst. inversion Ha; subst.
      match goal with Hx : p x = true |- _ => rewrite Hx in H end.
      cbn [rev]. rewrite <- app_assoc. now apply (IH (x :: sn)).
Qed.

(** A split at which [f] gives a result makes [first_split] give one. *)
Lemma first_split_found (a b sn : pystr) :
  all_of p a -> f (rev a ++ sn) b <> None ->
  first_split p f sn (a ++ b) <> None.
Proof.
  intros Ha Hf Hnone.
  apply Hf. now apply (first_split_none Hnone).
Qed.

End FirstSplit.

Section Spans.

Lemma span_app (a sn r1 r2 : pystr) (c1 c2 : list (nat * pystr)) :
  span (MState sn r1 c1) (MState (rev a ++ sn) r2 c2) = a.
Proof.
  unfold span. cbn [seen].
  rewrite length_app, length_rev, Nat.add_sub.
  rewrite <- (length_rev a), firstn_app, Nat.sub_diag, firstn_all.
  cbn [firstn]. now rewrite app_nil_r, rev_involutive.
Qed.

End Spans.

(* ================================================================== *)
(** * The opportunity identifier *)

Section Identifier.

Variables (marker : pystr) (lo : nat) (p : ascii -> bool).

Lemma app_same_length {A : Type} (a a' b b' : list A) :
  a ++ b = a' ++ b' -> length a = length a' -> a = a' /\ b = b'.
Proof.
  revert a'. induction a as [|x a IH]; intros [|y a'] H Hlen;
    try discriminate; [now split|].
  cbn in H. inversion H; subst. cbn in Hlen.
  destruct (IH a' H2) as [-> ->]; [lia|]. now split.
Qed.

Lemma app_same_prefix {A : Type} (pre t pre' t' : list A) :
  pre ++ t = pre' ++ t' -> ~ length pre < length pre' ->
  ~ length pre' < length pre -> pre = pre' /\ t = t'.
Proof. intros Heq H1 H2. apply app_same_length; [assumption|lia]. Qed.

(** Of two splits of one text, the earlier one cuts the prefix of the
    later. *)
Lemma app_split_earlier {A : Type} (pre t pre' t' : list A) :
  pre ++ t = pre' ++ t' -> length pre' < length pre ->
  exists a2, pre = pre' ++ a2 /\ a2 <> [] /\ t' = a2 ++ t.
Proof.
  revert pre. induction pre' as [|x pre' IH]; intros pre Heq Hlen.
  - exists pre. cbn in *. repeat split; auto.
    intros ->. cbn in Hlen. lia.
  - destruct pre as [|y pre]; [cbn in Hlen; lia|].
    cbn in Heq. inversion Heq; subst.
    destruct (IH pre H1) as [a2 [-> [Hne ->]]]; [cbn in Hlen; lia|].
    exists a2. repeat split; auto.
Qed.

Lemma lit_match_startswith (l rs : pystr) :
  lit_match false l rs = startswith l rs.
Proof.
  revert rs. induction l as [|c l IH]; intros [|x rs]; cbn; try reflexivity.
  now rewrite IH.
Qed.

Lemma prefix_split (l post : pystr) :
  firstn (length l) (l ++ post) = l /\ skipn (length l) (l ++ post) = post.
Proof.
  split.
  - rewrite firstn_app, Nat.sub_diag, firstn_all. cbn. apply app_nil_r.
  - rewrite skipn_app, Nat.sub_diag, skipn_all. reflexivity.
Qed.

(** The match of an [id_pattern] at one place. *)
Lemma id_pattern_at (sn rs : pystr) :
  bt false (whole (id_pattern marker lo p)) (MState sn rs [])
     (fun st => Some st)
  = if startswith marker rs
       && (lo <=? length (take_while p (skipn (length marker) rs)))
    then Some (MState
           (rev (take_while p (skipn (length marker) rs))
              ++ rev (firstn (length marker) rs) ++ sn)
           (drop_while p (skipn (length marker) rs))
           [(0, firstn (length marker) rs
                  ++ take_while p (skipn (length marker) rs));
            (1, take_while p (skipn (length marker) rs))])
    else None.
Proof.
  unfold whole, id_pattern. cbn [bt]. rewrite bt_lits, lit_match_startswith.
  destruct (startswith marker rs); [|reflexivity].
  cbn [bt seen rest caps andb].
  destruct (Nat.leb_spec lo (length (take_while p (skipn (length marker) rs))))
    as [Hlo|Hlo].
  - apply rep_greedy_longest; [exact Hlo|].
    cbn [seen rest caps]. rewrite span_app.
    rewrite app_assoc, <- rev_app_distr, span_app. reflexivity.
  - now apply rep_greedy_short.
Qed.

Lemma run_after_at (t : pystr) :
  startswith marker t
    && (lo <=? length (take_while p (skipn (length marker) t))) = true
  <-> exists id, run_after marker p lo t id.
Proof.
  rewrite andb_true_iff, startswith_app, Nat.leb_le. split.
  - intros [[post ->] Hlo].
    rewrite (proj2 (prefix_split marker post)) in Hlo.
    exists (take_while p post), (drop_while p post).
    rewrite take_drop_while. repeat split; auto.
    + apply take_while_all.
    + apply drop_while_head.
  - intros [id [post [-> [Hid [Hpost Hlo]]]]]. split; [now eexists|].
    rewrite (proj2 (prefix_split marker (id ++ post))).
    now rewrite take_while_app.
Qed.

Lemma run_after_unique (t id : pystr) :
  run_after marker p lo t id ->
  id = take_while p (skipn (length marker) t).
Proof.
  intros [post [-> [Hid [Hpost Hlo]]]].
  rewrite (proj2 (prefix_split marker (id ++ post))).
  now rewrite take_while_app.
Qed.

Lemma all_of_true (s : pystr) : all_of (fun _ => true) s.
Proof. induction s; constructor; auto. Qed.

(** What [re.search] finds for an [id_pattern]. *)
Lemma search_id_pattern (url : pystr) :
  match re_search false (id_pattern marker lo p) url with
  | Some m =>
      exists id, lookup_cap 1 (caps m) = Some id
                 /\ first_run_after marker p lo url id
  | None => no_run_after marker p lo url
  end.
Proof.
  unfold re_search. rewrite search_first_split.
  destruct (first_split _ _ [] url) as [m|] eqn:Hs.
  - apply first_split_some in Hs as [pre [t [-> [_ [Hm Hfirst]]]]].
    rewrite id_pattern_at in Hm.
    destruct (startswith marker t && _) eqn:Hc; [|discriminate].
    inversion Hm; subst m. clear Hm. cbn [caps lookup_cap Nat.eqb].
    eexists. split; [reflexivity|].
    apply run_after_at in Hc as [id Hid].
    rewrite <- (run_after_unique Hid).
    exists pre, t. split; [reflexivity|]. split; [exact Hid|].
    intros pre' t' id' Heq Hlen Hrun.
    destruct (app_split_earlier Heq Hlen) as [a2 [-> [Hne ->]]].
    specialize (Hfirst pre' a2 eq_refl Hne).
    rewrite id_pattern_at in Hfirst.
    assert (Hc' : startswith marker (a2 ++ t)
              && (lo <=? length (take_while p
                                   (skipn (length marker) (a2 ++ t)))) = true)
      by (apply run_after_at; now exists id').
    rewrite Hc' in Hfirst. discriminate.
  - intros pre t id -> Hrun.
    assert (Hnone := first_split_none Hs (a := pre) (b := t) eq_refl
                       (all_of_true pre)).
    cbv beta in Hnone. rewrite id_pattern_at in Hnone.
    assert (Hc : startswith marker t
              && (lo <=? length (take_while p (skipn (length marker) t)))
              = true) by (apply run_after_at; now exists id).
    rewrite Hc in Hnone. discriminate.
Qed.

End Identifier.

Section IdentifierResult.

Lemma first_run_after_present (marker : pystr) (p : ascii -> bool) (lo : nat)
    (url id : pystr) :
  first_run_after marker p lo url id -> ~ no_run_after marker p lo url.
Proof. intros [pre [t [Hu [Hrun _]]]] Hno. exact (Hno pre t id Hu Hrun). Qed.

Lemma first_run_after_unique (marker : pystr) (p : ascii -> bool) (lo : nat)
    (url id id' : pystr) :
  first_run_after marker p lo url id -> first_run_after marker p lo url id' ->
  id = id'.
Proof.
  intros [pre [t [Hu [Hrun Hleft]]]] [pre' [t' [Hu' [Hrun' Hleft']]]].
  assert (Heq : pre ++ t = pre' ++ t') by congruence.
  destruct (app_same_prefix Heq) as [_ Ht].
  - intros Hlt. exact (Hleft' pre t id Hu Hlt Hrun).
  - intros Hlt. exact (Hleft pre' t' id' Hu' Hlt Hrun').
  - subst t'. rewrite (run_after_unique Hrun), (run_after_unique Hrun').
    reflexivity.
Qed.

(** The result of [extract_opportunity_id], by cases. *)
Lemma extract_opportunity_id_cases (url : pystr) :
  match extract_opportunity_id url with
  | Ok (Some id) =>
      first_run_after DETAIL_MARKER is_digit 1 url id
      \/ (no_run_after DETAIL_MARKER is_digit 1 url
          /\ first_run_after OPPORTUNITY_MARKER is_hex_or_dash 16 url id)
  | Ok None =>
      no_run_after DETAIL_MARKER is_digit 1 url
      /\ no_run_after OPPORTUNITY_MARKER is_hex_or_dash 16 url
  | Raise _ => False
  end.
Proof.
  unfold extract_opportunity_id.
  assert (H1 := search_id_pattern DETAIL_MARKER 1 is_digit url).
  assert (H2 := search_id_pattern OPPORTUNITY_MARKER 16 is_hex_or_dash url).
  change (id_pattern DETAIL_MARKER 1 is_digit) with re_detail_id in H1.
  change (id_pattern OPPORTUNITY_MARKER 16 is_hex_or_dash)
    with re_opportunity_id in H2.
  destruct (re_search false re_detail_id url) as [m1|]; cbn [is_match group].
  - destruct H1 as [id [-> Hid]]. now left.
  - destruct (re_search false re_opportunity_id url) as [m2|];
      cbn [is_match group].
    + destruct H2 as [id [-> Hid]]. right. now split.
    + now split.
Qed.

End IdentifierResult.

(** C8, as the code has it. The result is the run of digits after the
    leftmost [/search-results-detail/] that a digit follows; when the URL
    has no such place, it is the run of hexadecimal digits and hyphens
    after the leftmost [/opportunity/] that at least sixteen of them
    follow; when it has neither, the result is [None]. *)
Theorem extract_opportunity_id_patterns :
  (forall url id : pystr,
     extract_opportunity_id url = Ok (Some id) <->
     first_run_after DETAIL_MARKER is_digit 1 url id
     \/ (no_run_after DETAIL_MARKER is_digit 1 url
         /\ first_run_after OPPORTUNITY_MARKER is_hex_or_dash 16 url id))
  /\ (forall url : pystr,
        extract_opportunity_id url = Ok None <->
        no_run_after DETAIL_MARKER is_digit 1 url
        /\ no_run_after OPPORTUNITY_MARKER is_hex_or_dash 16 url)
  /\ extract_opportunity_id
       (str "https://www.grants.gov/search-results-detail/350693")
     = Ok (Some (str "350693"))
  /\ extract_opportunity_id uuid_url
     = Ok (Some (str "f7a1e2b3-0c4d-4e5f-8a9b-1c2d3e4f5a6b"))
  /\ extract_opportunity_id (str "https://www.grants.gov/opportunity/12345")
     = Ok None.
Proof.
  split; [|split; [|repeat split; vm_compute; reflexivity]].
  - intros url id. assert (H := extract_opportunity_id_cases url). split.
    + intros Hid. now rewrite Hid in H.
    + intros Hid.
      destruct (extract_opportunity_id url) as [[id'|]|e]; [|exfalso|contradiction].
      * do 2 f_equal.
        destruct H as [H|[Hno H]], Hid as [Hid|[Hno' Hid]].
        -- exact (first_run_after_unique H Hid).
        -- now apply first_run_after_present in H.
        -- now apply first_run_after_present in Hid.
        -- exact (first_run_after_unique H Hid).
      * destruct H as [Hno1 Hno2], Hid as [Hid|[_ Hid]];
          now apply first_run_after_present in Hid.
  - intros url. assert (H := extract_opportunity_id_cases url). split.
    + intros Hid. now rewrite Hid in H.
    + intros [Hno1 Hno2].
      destruct (extract_opportunity_id url) as [[id'|]|e];
        [exfalso|reflexivity|contradiction].
      destruct H as [H|[_ H]]; now apply first_run_after_present in H.
Qed.

Lemma extract_opportunity_id_patterns_witness :
  extract_opportunity_id uuid_url
  = Ok (Some (str "f7a1e2b3-0c4d-4e5f-8a9b-1c2d3e4f5a6b"))
  /\ (first_run_after DETAIL_MARKER is_digit 1 uuid_url
        (str "f7a1e2b3-0c4d-4e5f-8a9b-1c2d3e4f5a6b")
      \/ (no_run_after DETAIL_MARKER is_digit 1 uuid_url
          /\ first_run_after OPPORTUNITY_MARKER is_hex_or_dash 16 uuid_url
               (str "f7a1e2b3-0c4d-4e5f-8a9b-1c2d3e4f5a6b"))).
Proof.
  assert (Hid : extract_opportunity_id uuid_url
                = Ok (Some (str "f7a1e2b3-0c4d-4e5f-8a9b-1c2d3e4f5a6b")))
    by (vm_compute; reflexivity).
  split; [exact Hid|].
  exact (proj1 (proj1 extract_opportunity_id_patterns _ _) Hid).
Defined.

(** C8 as the specification words it, with sixteen or more hexadecimal
    digits after [/opportunity/]: this address has no such run and no
    [/search-results-detail/], so its identifier would be absent. The code
    returns the hyphenated identifier. *)
Lemma hyphenated_id_extracted :
  no_run_after DETAIL_MARKER is_digit 1 uuid_url
  /\ no_run_after OPPORTUNITY_MARKER is_hex 16 uuid_url
  /\ extract_opportunity_id uuid_url
     = Ok (Some (str "f7a1e2b3-0c4d-4e5f-8a9b-1c2d3e4f5a6b"))
  /\ ~ all_of is_hex (str "f7a1e2b3-0c4d-4e5f-8a9b-1c2d3e4f5a6b").
Proof.
  split; [|split; [|split]].
  - assert (H := search_id_pattern DETAIL_MARKER 1 is_digit uuid_url).
    assert (Hn : re_search false (id_pattern DETAIL_MARKER 1 is_digit) uuid_url
                 = None) by (vm_compute; reflexivity).
    now rewrite Hn in H.
  - assert (H := search_id_pattern OPPORTUNITY_MARKER 16 is_hex uuid_url).
    assert (Hn : re_search false (id_pattern OPPORTUNITY_MARKER 16 is_hex)
                   uuid_url = None) by (vm_compute; reflexivity).
    now rewrite Hn in H.
  - vm_compute. reflexivity.
  - intros H. unfold all_of in H. rewrite Forall_forall in H.
    specialize (H "-"%char). vm_compute in H.
    assert (Hf : false = true) by (apply H; do 8 right; left; reflexivity).
    discriminate.
Qed.

(* ================================================================== *)
(** * Date tokens *)

Section Items.

Lemma items_regex_cons (i : item) (its : list item) (st : mstate) (k : cont) :
  bt false (items_regex (i :: its)) st k
  = bt false (item_regex i) st (fun st' => bt false (items_regex its) st' k).
Proof. destruct its; reflexivity. Qed.

Lemma lit_rejects (p : ascii -> bool) (c : ascii) (its : list item)
    (k : cont) :
  p c = false ->
  rejects p (fun st' => bt false (items_regex (ILit c :: its)) st' k).
Proof.
  intros Hc sn x rs cs Hx. rewrite items_regex_cons.
  cbn [item_regex bt rest chr_match].
  destruct (ascii_eqb c x) eqn:Heq; [|reflexivity].
  apply ascii_eqb_eq in Heq. congruence.
Qed.

(** The matcher reads a well-formed row of items as [items_at] does. *)
Lemma items_regex_at (its : list item) :
  wf_items its = true ->
  forall sn rs cs k,
    bt false (items_regex its) (MState sn rs cs) k
    = match items_at its rs with
      | Some (tok, r) => k (MState (rev tok ++ sn) r cs)
      | None => None
      end.
Proof.
  induction its as [|[p lo hi|c] its IH]; intros Hwf sn rs cs k.
  - reflexivity.
  - cbn [wf_items] in Hwf. apply andb_true_iff in Hwf as [Hrun Hwf].
    rewrite items_regex_cons. cbn [item_regex bt seen rest caps items_at].
    destruct (is_exact lo hi) eqn:Hex.
    + destruct hi as [h|]; [|discriminate]. cbn in Hex.
      apply Nat.eqb_eq in Hex. subst h.
      rewrite rep_greedy_exact.
      destruct (lo <=? length (take_while p rs)); [|reflexivity].
      rewrite (IH Hwf).
      destruct (items_at its (skipn lo rs)) as [[tok r]|]; [|reflexivity].
      now rewrite rev_app_distr, <- app_assoc.
    + cbn [orb] in Hrun.
      destruct its as [|[|c] its']; try discriminate.
      apply negb_true_iff in Hrun.
      rewrite (rep_greedy_committed (lit_rejects its' k Hrun)).
      destruct (_ && _); [|reflexivity].
      rewrite (IH Hwf).
      destruct (items_at (ILit c :: its') (drop_while p rs)) as [[tok r]|];
        [|reflexivity].
      now rewrite rev_app_distr, <- app_assoc.
  - cbn [wf_items] in Hwf.
    rewrite items_regex_cons. cbn [item_regex bt seen rest caps items_at].
    destruct rs as [|x rs]; [reflexivity|]. cbn [chr_match].
    destruct (ascii_eqb c x); [|reflexivity].
    rewrite (IH Hwf).
    destruct (items_at its rs) as [[tok r]|]; [|reflexivity].
    cbn [rev]. now rewrite <- app_assoc.
Qed.

(** What [items_at] reads is a row of pieces, one for each item. *)
Lemma items_at_sound (its : list item) :
  forall rs tok r,
    items_at its rs = Some (tok, r) -> rs = tok ++ r /\ items_match its tok.
Proof.
  induction its as [|[p lo hi|c] its IH]; intros rs tok r; cbn [items_at].
  - intros H. inversion H; subst. now split.
  - destruct (is_exact lo hi) eqn:Hex.
    + destruct hi as [h|]; [|discriminate]. cbn in Hex.
      apply Nat.eqb_eq in Hex. subst h.
      destruct (Nat.leb_spec lo (length (take_while p rs))) as [Hlo|];
        [|discriminate].
      destruct (items_at its (skipn lo rs)) as [[tok' r']|] eqn:Hat;
        [|discriminate].
      intros H. inversion H; subst. apply IH in Hat as [Hrs Hm].
      split.
      * rewrite <- app_assoc, <- Hrs. symmetry. apply firstn_skipn.
      * exists (firstn lo rs), tok'. split; [reflexivity|]. split; [|exact Hm].
        assert (Hlen : length (firstn lo rs) = lo).
        { apply firstn_length_le.
          rewrite <- (take_drop_while p rs), length_app. lia. }
        cbn [item_matches hi_ok]. rewrite Hlen.
        split; [now apply take_while_firstn|].
        split; [lia|apply Nat.leb_refl].
    + destruct ((lo <=? _) && _) eqn:Hc; [|discriminate].
      apply andb_true_iff in Hc as [Hlo Hhi]. apply Nat.leb_le in Hlo.
      destruct (items_at its (drop_while p rs)) as [[tok' r']|] eqn:Hat;
        [|discriminate].
      intros H. inversion H; subst. apply IH in Hat as [Hrs Hm].
      split.
      * rewrite <- app_assoc, <- Hrs. symmetry. apply take_drop_while.
      * exists (take_while p rs), tok'. split; [reflexivity|].
        split; [|exact Hm].
        cbn [item_matches]. split; [apply take_while_all|now split].
  - destruct rs as [|x rs]; [discriminate|].
    destruct (ascii_eqb c x) eqn:Heq; [|discriminate].
    apply ascii_eqb_eq in Heq. subst x.
    destruct (items_at its rs) as [[tok' r']|] eqn:Hat; [|discriminate].
    intros H. inversion H; subst. apply IH in Hat as [-> Hm].
    split; [reflexivity|].
    exists [c], tok'. now repeat split.
Qed.

(** A well-formed row of items can be read in one way only. *)
Lemma items_at_complete (its : list item) :
  wf_items its = true ->
  forall tok r, items_match its tok -> items_at its (tok ++ r) = Some (tok, r).
Proof.
  induction its as [|[p lo hi|c] its IH]; intros Hwf tok r;
    cbn [items_match items_at wf_items] in *.
  - intros ->. reflexivity.
  - apply andb_true_iff in Hwf as [Hrun Hwf].
    intros [s [t [-> [[Hs [Hlo Hhi]] Ht]]]].
    rewrite <- app_assoc.
    destruct (is_exact lo hi) eqn:Hex.
    + destruct hi as [h|]; [|discriminate]. cbn in Hex, Hhi.
      apply Nat.eqb_eq in Hex. subst h. apply Nat.leb_le in Hhi.
      assert (Hlen : length s = lo) by lia. subst lo.
      assert (Hrun' := take_while_length_app (t ++ r) Hs).
      apply Nat.leb_le in Hrun'. rewrite Hrun'.
      rewrite (proj1 (prefix_split s (t ++ r))),
              (proj2 (prefix_split s (t ++ r))).
      now rewrite (IH Hwf).
    + cbn [orb] in Hrun.
      destruct its as [|[|c] its']; try discriminate.
      apply negb_true_iff in Hrun.
      assert (Hhead : head_is p (t ++ r) = false).
      { cbn [items_match item_matches] in Ht.
        destruct Ht as [s' [t' [-> [-> _]]]]. exact Hrun. }
      rewrite take_while_app, drop_while_app by assumption.
      apply Nat.leb_le in Hlo. rewrite Hlo, Hhi. cbn [andb].
      now rewrite (IH Hwf).
  - intros [s [t [-> [-> Ht]]]]. cbn [app].
    assert (Hcc : ascii_eqb c c = true) by now apply ascii_eqb_eq.
    rewrite Hcc. now rewrite (IH Hwf).
Qed.

End Items.

Section Tokens.

Variable its : list item.
Hypothesis Hwf : wf_items its = true.

(** The match of a token pattern at one place. *)
Lemma token_pattern_at (sn rs : pystr) :
  bt false (whole (token_pattern its)) (MState sn rs []) (fun st => Some st)
  = if xorb (head_is is_word sn) (head_is is_word rs) then
      match items_at its rs with
      | Some (tok, r) =>
          if xorb (head_is is_word (rev tok ++ sn)) (head_is is_word r)
          then Some (MState (rev tok ++ sn) r [(0, tok); (1, tok)])
          else None
      | None => None
      end
    else None.
Proof.
  unfold whole, token_pattern. cbn [bt seen rest caps].
  destruct (xorb (head_is is_word sn) (head_is is_word rs)); [|reflexivity].
  rewrite (items_regex_at Hwf).
  destruct (items_at its rs) as [[tok r]|]; [|reflexivity].
  cbn [bt seen rest caps].
  destruct (xorb (head_is is_word (rev tok ++ sn)) (head_is is_word r));
    [|reflexivity].
  now rewrite !span_app.
Qed.

Lemma token_at_found (pre t tok : pystr) :
  token_at its (pre ++ t) pre tok ->
  exists r,
    bt false (whole (token_pattern its)) (MState (rev pre ++ []) t [])
       (fun st => Some st)
    = Some (MState (rev tok ++ rev pre ++ []) r [(0, tok); (1, tok)]).
Proof.
  intros [post [Heq [Hm [Hb1 Hb2]]]].
  apply app_inv_head in Heq. subst t.
  exists post. rewrite token_pattern_at, app_nil_r.
  unfold boundary in Hb1, Hb2. rewrite Hb1.
  rewrite (items_at_complete Hwf post Hm).
  rewrite <- rev_app_distr. now rewrite Hb2.
Qed.

Lemma token_at_read (pre t : pystr) (m : mstate) :
  bt false (whole (token_pattern its)) (MState (rev pre ++ []) t [])
     (fun st => Some st) = Some m ->
  exists tok, lookup_cap 1 (caps m) = Some tok
              /\ token_at its (pre ++ t) pre tok.
Proof.
  rewrite token_pattern_at, app_nil_r.
  destruct (xorb (head_is is_word (rev pre)) (head_is is_word t)) eqn:Hb1;
    [|discriminate].
  destruct (items_at its t) as [[tok r]|] eqn:Hat; [|discriminate].
  destruct (xorb (head_is is_word (rev tok ++ rev pre)) (head_is is_word r))
    eqn:Hb2; [|discriminate].
  intros H. inversion H; subst m. clear H.
  apply items_at_sound in Hat as [-> Hm].
  exists tok. split; [reflexivity|].
  exists r. repeat split; auto.
  unfold boundary. now rewrite rev_app_distr.
Qed.

(** What [re.search] finds for a token pattern. *)
Lemma search_token_pattern (text : pystr) :
  match re_search false (token_pattern its) text with
  | Some m =>
      exists tok, lookup_cap 1 (caps m) = Some tok /\ first_token its text tok
  | None => no_token its text
  end.
Proof.
  unfold re_search. rewrite search_first_split.
  destruct (first_split _ _ [] text) as [m|] eqn:Hs.
  - apply first_split_some in Hs as [pre [t [-> [_ [Hm Hfirst]]]]].
    apply token_at_read in Hm as [tok [Hcap Htok]].
    exists tok. split; [exact Hcap|]. exists pre. split; [exact Htok|].
    intros pre' tok' Htok'.
    destruct (Nat.le_gt_cases (length pre) (length pre')) as [|Hlt];
      [assumption|exfalso].
    assert (Hpost := Htok'). destruct Hpost as [post' [Heq _]].
    destruct (app_split_earlier Heq Hlt) as [a2 [-> [Hne Ht']]].
    specialize (Hfirst pre' a2 eq_refl Hne).
    rewrite <- app_assoc in Htok'.
    apply token_at_found in Htok' as [r Hr]. congruence.
  - intros pre tok Htok.
    assert (Hpost := Htok). destruct Hpost as [post [-> _]].
    assert (Hnone := first_split_none Hs (a := pre) (b := tok ++ post)
                       eq_refl (all_of_true pre)).
    cbv beta in Hnone.
    apply token_at_found in Htok as [r Hr]. congruence.
Qed.

End Tokens.

Section DateToken.

Lemma re_word_date_items : re_word_date = token_pattern WORD_DATE.
Proof. reflexivity. Qed.

Lemma re_slash_date_items : re_slash_date = token_pattern SLASH_DATE.
Proof. reflexivity. Qed.

Lemma re_iso_date_items : re_iso_date = token_pattern ISO_DATE.
Proof. reflexivity. Qed.

Lemma first_date_token_some (s : pystr) :
  s <> [] ->
  first_date_token (Some s) =
  let t := clean s in
  let m := re_search false re_word_date t in
  if is_match m then g <- group m 1 ;; to_iso_date g else
  let m := re_search false re_slash_date t in
  if is_match m then g <- group m 1 ;; to_iso_date g else
  let m := re_search false re_iso_date t in
  if is_match m then group m 1 else
  Ok None.
Proof. destruct s; [congruence|reflexivity]. Qed.

End DateToken.

Section DateTokenResult.

Lemma first_token_present (its : list item) (text tok : pystr) :
  first_token its text tok -> ~ no_token its text.
Proof. intros [pre [Htok _]] Hno. exact (Hno pre tok Htok). Qed.

Lemma first_token_unique (its : list item) (text tok tok' : pystr) :
  wf_items its = true ->
  first_token its text tok -> first_token its text tok' -> tok = tok'.
Proof.
  intros Hwf [pre [Htok Hleft]] [pre' [Htok' Hleft']].
  assert (Hlen : length pre = length pre').
  { apply Nat.le_antisymm; [exact (Hleft _ _ Htok')|exact (Hleft' _ _ Htok)]. }
  destruct Htok as [post [Hu [Hm _]]], Htok' as [post' [Hu' [Hm' _]]].
  assert (Heq : pre ++ tok ++ post = pre' ++ tok' ++ post') by congruence.
  apply app_same_length in Heq as [_ Heq]; [|assumption].
  assert (H := items_at_complete Hwf post Hm).
  rewrite Heq, (items_at_complete Hwf post' Hm') in H. now inversion H.
Qed.

(** The result of [first_date_token], by cases. *)
Lemma first_date_token_cases (s : pystr) :
  s <> [] ->
  match first_date_token (Some s) with
  | Ok r => token_result (clean s) r
  | Raise _ => False
  end.
Proof.
  intros Hs. rewrite (first_date_token_some Hs). cbv zeta.
  unfold token_result.
  assert (H1 := search_token_pattern (its := WORD_DATE) eq_refl (clean s)).
  assert (H2 := search_token_pattern (its := SLASH_DATE) eq_refl (clean s)).
  assert (H3 := search_token_pattern (its := ISO_DATE) eq_refl (clean s)).
  rewrite <- re_word_date_items in H1. rewrite <- re_slash_date_items in H2.
  rewrite <- re_iso_date_items in H3.
  destruct (re_search false re_word_date (clean s)) as [m1|];
    cbn [is_match group bind].
  { destruct H1 as [tok [-> Htok]].
    destruct (to_iso_date_total (Some tok)) as [r Hr]. rewrite Hr.
    left. now exists tok. }
  destruct (re_search false re_slash_date (clean s)) as [m2|];
    cbn [is_match group bind].
  { destruct H2 as [tok [-> Htok]].
    destruct (to_iso_date_total (Some tok)) as [r Hr]. rewrite Hr.
    right. left. split; [assumption|]. now exists tok. }
  destruct (re_search false re_iso_date (clean s)) as [m3|];
    cbn [is_match group bind].
  { destruct H3 as [tok [-> Htok]].
    right. right. left. repeat split; try assumption. now exists tok. }
  right. right. right. now repeat split.
Qed.

(** The cases exclude one another and each names one result. *)
Lemma token_result_unique (text : pystr) (r r' : option pystr) :
  token_result text r -> token_result text r' -> r = r'.
Proof.
  assert (Hw : wf_items WORD_DATE = true) by reflexivity.
  assert (Hsl : wf_items SLASH_DATE = true) by reflexivity.
  assert (Hiso : wf_items ISO_DATE = true) by reflexivity.
  intros [[tok [Ht Hr]]|[[Hn1 [tok [Ht Hr]]]|[[Hn1 [Hn2 [tok [Ht Hr]]]]
                                             |[Hn1 [Hn2 [Hn3 Hr]]]]]]
         [[tok' [Ht' Hr']]|[[Hn1' [tok' [Ht' Hr']]]
                           |[[Hn1' [Hn2' [tok' [Ht' Hr']]]]
                            |[Hn1' [Hn2' [Hn3' Hr']]]]]];
    try (exfalso;
         match goal with
         | Hf : first_token ?its _ _, Hn : no_token ?its _ |- _ =>
             exact (first_token_present Hf Hn)
         end).
  - rewrite (first_token_unique Hw Ht Ht') in Hr. congruence.
  - rewrite (first_token_unique Hsl Ht Ht') in Hr. congruence.
  - rewrite (first_token_unique Hiso Ht Ht') in Hr. congruence.
  - congruence.
Qed.

End DateTokenResult.

(** What [first_date_token] does, by cases. On the cleaned span the
    result comes from the leftmost token of the first of three shapes that
    has a token at all:
    (1) letters, a blank, one or two digits, a comma, a blank, four digits
    (any word of ASCII letters, a month name or not), (2) one or two
    digits, a slash, one or two digits, a slash, four digits, (3) four
    digits, a hyphen, two digits, a hyphen, two digits; each with a word
    boundary on either side. A token of (1) or (2) goes through
    [to_iso_date], a token of (3) is returned as it is; [None], the empty
    string and a span with no token give [None]. *)
Theorem first_date_token_priority :
  first_date_token None = Ok None
  /\ first_date_token (Some []) = Ok None
  /\ (forall s : pystr, s <> [] ->
        forall r, first_date_token (Some s) = Ok r
                  <-> token_result (clean s) r)
  /\ first_date_token
       (Some (str "Closing on or about August 1, 2025 at 5:00 PM"))
     = Ok (Some (str "2025-08-01"))
  /\ first_date_token (Some (str "by 8/1/2025, or 2025-09-30"))
     = Ok (Some (str "2025-08-01"))
  /\ first_date_token (Some (str "due 2025-09-30."))
     = Ok (Some (str "2025-09-30"))
  /\ first_date_token (Some room_span) = Ok (Some (str "Room 12, 2025"))
  /\ first_date_token (Some (str "to be announced")) = Ok None.
Proof.
  split; [reflexivity|]. split; [reflexivity|].
  split; [|repeat split; vm_compute; reflexivity].
  intros s Hs r. assert (H := first_date_token_cases Hs). split.
  - intros Hr. now rewrite Hr in H.
  - intros Hr. destruct (first_date_token (Some s)) as [r'|e]; [|contradiction].
    f_equal. exact (token_result_unique H Hr).
Qed.

Lemma first_date_token_priority_witness :
  str "due 2025-09-30." <> []
  /\ first_date_token (Some (str "due 2025-09-30."))
     = Ok (Some (str "2025-09-30"))
  /\ token_result (clean (str "due 2025-09-30.")) (Some (str "2025-09-30")).
Proof.
  assert (Hs : str "due 2025-09-30." <> []) by discriminate.
  assert (Hr : first_date_token (Some (str "due 2025-09-30."))
               = Ok (Some (str "2025-09-30"))) by (vm_compute; reflexivity).
  split; [exact Hs|]. split; [exact Hr|].
  exact (proj1 (proj1 (proj2 (proj2 first_date_token_priority)) _ Hs _) Hr).
Defined.

(** C5. The span "Room 12, 2025 due 08/01/2025" has one date, the slash
    date 08/01/2025, which [to_iso_date] normalises to 2025-08-01; "Room"
    is no month name, in full or abbreviated, so pattern (1) of the
    specification has no match there. [first_date_token], whose docstring
    says that it extracts and normalises the first date of a string,
    returns "Room 12, 2025", which is no date: its first pattern takes any
    word of letters where the month stands, and [to_iso_date] hands back
    what no format parses. *)
Lemma word_date_without_month :
  first_token WORD_DATE (clean room_span) (str "Room 12, 2025")
  /\ ~ month_word (str "Room")
  /\ first_token SLASH_DATE (clean room_span) (str "08/01/2025")
  /\ to_iso_date (Some (str "08/01/2025")) = Ok (Some (str "2025-08-01"))
  /\ first_date_token (Some room_span) = Ok (Some (str "Room 12, 2025")).
Proof.
  split; [|split; [|split; [|split]]].
  - assert (H := search_token_pattern (its := WORD_DATE) eq_refl
                   (clean room_span)).
    destruct (re_search false (token_pattern WORD_DATE) (clean room_span))
      as [m|] eqn:Hm; [|vm_compute in Hm; discriminate].
    destruct H as [tok [Hcap Htok]].
    vm_compute in Hm. inversion Hm; subst m. cbn in Hcap.
    inversion Hcap; subst tok. exact Htok.
  - intros [H|H]; vm_compute in H;
      repeat (destruct H as [H|H]; [discriminate|]); exact H.
  - assert (H := search_token_pattern (its := SLASH_DATE) eq_refl
                   (clean room_span)).
    destruct (re_search false (token_pattern SLASH_DATE) (clean room_span))
      as [m|] eqn:Hm; [|vm_compute in Hm; discriminate].
    destruct H as [tok [Hcap Htok]].
    vm_compute in Hm. inversion Hm; subst m. cbn in Hcap.
    inversion Hcap; subst tok. exact Htok.
  - vm_compute. reflexivity.
  - vm_compute. reflexivity.
Qed.

(* ================================================================== *)
(** * Cleaned text *)

Section Cleaned.

(** The match of [\s+] at one place. *)
Lemma ws_plus_at (sn rs : pystr) :
  bt false (whole ws_plus) (MState sn rs []) (fun st => Some st)
  = if 1 <=? length (take_while is_space rs)
    then Some (MState (rev (take_while is_space rs) ++ sn)
                      (drop_while is_space rs)
                      [(0, take_while is_space rs)])
    else None.
Proof.
  unfold whole, ws_plus. cbn [bt seen rest caps].
  destruct (Nat.leb_spec 1 (length (take_while is_space rs))) as [Hlo|Hlo].
  - apply rep_greedy_longest; [exact Hlo|].
    cbn [seen rest caps]. now rewrite span_app.
  - now apply rep_greedy_short.
Qed.

(** [re.sub] copies no blank. *)
Lemma scan_ws_copies (rs : pystr) :
  forall skip sn c,
    In (inr c) (scan_matches false ws_plus skip sn rs) -> is_space c = false.
Proof.
  induction rs as [|x rs IH]; intros skip sn c; cbn [scan_matches];
    [intros []|].
  destruct skip as [|n]; [|apply IH].
  rewrite ws_plus_at. cbn [take_while].
  destruct (is_space x) eqn:Hx.
  - cbn [length Nat.leb seen]. rewrite length_app, length_rev. cbn [length].
    replace (S (length (take_while is_space rs)) + length sn - length sn)
      with (S (length (take_while is_space rs))) by lia.
    intros [H|H]; [discriminate|]. now apply IH in H.
  - cbn [length Nat.leb]. intros [H|H]; [|now apply IH in H].
    inversion H. now subst.
Qed.

Lemma drop_while_incl (p : ascii -> bool) (s : pystr) (c : ascii) :
  In c (drop_while p s) -> In c s.
Proof.
  induction s as [|x s IH]; cbn; [auto|].
  destruct (p x); [auto|]. cbn. auto.
Qed.

Lemma strip_incl (s : pystr) (c : ascii) : In c (strip s) -> In c s.
Proof.
  unfold strip. rewrite <- in_rev. intros H.
  apply drop_while_incl in H. rewrite <- in_rev in H.
  now apply drop_while_incl in H.
Qed.

(** A character of cleaned text is a space or no blank at all. *)
Lemma clean_chars (s : pystr) (c : ascii) :
  In c (clean s) -> c = " "%char \/ is_space c = false.
Proof.
  unfold clean, clean_text, re_sub. intros H. apply strip_incl in H.
  apply in_flat_map in H as [[m|x] [He Hc]].
  - left. cbn in Hc. destruct Hc as [Hc|[]]. now symmetry.
  - right. cbn in Hc. destruct Hc as [Hc|[]]. subst x.
    now apply scan_ws_copies in He.
Qed.

Lemma not_space_dot (c : ascii) : is_space c = false -> dot c = true.
Proof. each_char c; vm_compute; congruence. Qed.

(** Cleaned text has no newline in it. *)
Lemma clean_dot (text : pystr) : clean text = text -> all_of dot text.
Proof.
  intros H. apply Forall_forall. intros c Hc. rewrite <- H in Hc.
  apply clean_chars in Hc as [->|Hc]; [reflexivity|now apply not_space_dot].
Qed.

End Cleaned.

(* ================================================================== *)
(** * Labels *)

Section CaseBlind.

Lemma lower_space (c : ascii) : is_space (lower_char c) = is_space c.
Proof. each_char c; vm_compute; reflexivity. Qed.

Lemma chr_match_colon (c : ascii) : chr_match true ":" c = ascii_eqb c ":".
Proof. each_char c; vm_compute; reflexivity. Qed.

Lemma space_not_colon (c : ascii) :
  is_space c = true -> ascii_eqb c ":" = false.
Proof. each_char c; vm_compute; congruence. Qed.

Lemma chr_match_space (c x : ascii) :
  chr_match true c x = true -> is_space x = is_space c.
Proof.
  cbn [chr_match]. rewrite ascii_eqb_eq. intros H.
  now rewrite <- (lower_space x), <- H, lower_space.
Qed.

Lemma lit_match_ci (l rs : pystr) :
  lit_match true l rs = true <-> ci_begins l rs.
Proof.
  unfold ci_begins. revert rs. induction l as [|c l IH]; intros rs.
  - cbn. split; [intros _; now exists [], rs|reflexivity].
  - destruct rs as [|x rs]; cbn [lit_match].
    + split; [discriminate|]. intros [[|y lab] [post [H1 H2]]]; discriminate.
    + rewrite andb_true_iff, IH. cbn [chr_match]. rewrite ascii_eqb_eq. split.
      * intros [Hc [lab [post [-> Hl]]]]. exists (x :: lab), post.
        split; [reflexivity|]. unfold lower in *. cbn [map].
        now rewrite Hl, Hc.
      * intros [[|y lab] [post [H1 H2]]]; [discriminate|].
        unfold lower in H2. cbn [app map] in H1, H2.
        inversion H1; inversion H2; subst.
        split; [congruence|]. now exists lab, post.
Qed.

Lemma ci_length (l lab : pystr) : lower lab = lower l -> length lab = length l.
Proof. intros H. now rewrite <- (lower_length lab), H, lower_length. Qed.

Lemma ci_split (l lab post : pystr) :
  lower lab = lower l ->
  firstn (length l) (lab ++ post) = lab
  /\ skipn (length l) (lab ++ post) = post.
Proof. intros H. rewrite <- (ci_length H). apply prefix_split. Qed.

Lemma solid_head (l t : pystr) :
  solid l = true -> ci_begins l t -> head_is is_space t = false.
Proof.
  intros Hl [lab [post [-> Hlab]]].
  destruct l as [|c l]; [discriminate|].
  destruct lab as [|x lab]; [discriminate|].
  cbn in *. inversion Hlab as [[Hc Hrest]].
  rewrite <- (lower_space x), Hc, lower_space.
  now apply negb_true_iff.
Qed.

Lemma colon_next_iff (t : pystr) :
  colon_next t = true
  <-> exists ws r, t = ws ++ ":"%char :: r /\ all_of is_space ws.
Proof.
  unfold colon_next. split.
  - destruct (drop_while is_space t) as [|x r] eqn:Hd; [discriminate|].
    intros Hx. apply ascii_eqb_eq in Hx. subst x.
    exists (take_while is_space t), r.
    split; [now rewrite <- Hd, take_drop_while|apply take_while_all].
  - intros [ws [r [-> Hws]]].
    rewrite drop_while_app; [reflexivity|assumption|reflexivity].
Qed.

Lemma colon_next_tail (ws r : pystr) :
  all_of is_space ws ->
  take_while is_space (ws ++ ":"%char :: r) = ws
  /\ drop_while is_space (ws ++ ":"%char :: r) = ":"%char :: r.
Proof.
  intros Hws. split.
  - now apply take_while_app.
  - now apply drop_while_app.
Qed.

Lemma label_colon_b_iff (l t : pystr) :
  label_colon_b l t = true <-> begins_label l t.
Proof.
  unfold label_colon_b, begins_label.
  rewrite andb_true_iff, lit_match_ci. split.
  - intros [[lab [post [-> Hlab]]] Hc].
    rewrite (proj2 (ci_split post Hlab)) in Hc.
    apply colon_next_iff in Hc as [ws [r [-> Hws]]].
    now exists lab, ws, r.
  - intros [lab [ws [r [-> [Hlab Hws]]]]]. split.
    + now exists lab, (ws ++ ":"%char :: r).
    + rewrite (proj2 (ci_split _ Hlab)). apply colon_next_iff.
      now exists ws, r.
Qed.

Lemma begins_label_ci (l t : pystr) : begins_label l t -> ci_begins l t.
Proof. intros [lab [ws [r [-> [H _]]]]]. now exists lab, (ws ++ ":"%char :: r). Qed.

Lemma follows_label_iff (l b : pystr) :
  solid l = true ->
  (label_colon_b l (drop_while is_space b) = true <-> follows_label l b).
Proof.
  intros Hl. rewrite label_colon_b_iff. unfold follows_label. split.
  - intros H. exists (take_while is_space b), (drop_while is_space b).
    split; [now rewrite take_drop_while|]. split; [apply take_while_all|exact H].
  - intros [ws [t' [-> [Hws Ht']]]].
    rewrite drop_while_app; auto.
    apply (solid_head Hl). now apply begins_label_ci.
Qed.

End CaseBlind.

Section LabelPattern.

Lemma bt_grp (ic : bool) (n : nat) (r : regex) (st : mstate) (k : cont) :
  bt ic (Grp n r) st k
  = bt ic r st (fun st' =>
      k (MState (seen st') (rest st') (set_cap n (span st st') (caps st')))).
Proof. reflexivity. Qed.

Lemma bt_seq (ic : bool) (r1 r2 : regex) (st : mstate) (k : cont) :
  bt ic (Seq r1 r2) st k = bt ic r1 st (fun st' => bt ic r2 st' k).
Proof. reflexivity. Qed.

Lemma bt_alt (ic : bool) (r1 r2 : regex) (st : mstate) (k : cont) :
  bt ic (Alt r1 r2) st k
  = match bt ic r1 st k with Some m => Some m | None => bt ic r2 st k end.
Proof. reflexivity. Qed.

Lemma bt_ahead (ic : bool) (r : regex) (st : mstate) (k : cont) :
  bt ic (Ahead r) st k
  = match bt ic r st (fun st' => Some st') with
    | Some _ => k st
    | None => None
    end.
Proof. reflexivity. Qed.

Lemma bt_eos (ic : bool) (st : mstate) (k : cont) :
  bt ic Eos st k = if eos_b (rest st) then k st else None.
Proof.
  cbn [bt]. unfold eos_b. destruct (rest st) as [|c [|c' b]]; reflexivity.
Qed.

Lemma bt_ws_star (ic : bool) (st : mstate) (k : cont) :
  bt ic ws_star st k
  = rep_greedy is_space 0 None k (seen st) (caps st) (rest st).
Proof. reflexivity. Qed.

Lemma colon_rejects (k : cont) :
  rejects is_space (fun st' => bt true (Chr ":") st' k).
Proof.
  intros sn c rs cs Hc. cbn [bt rest].
  now rewrite chr_match_colon, space_not_colon.
Qed.

(** [\s*:] at one place. *)
Lemma ws_colon_at (sn rs : pystr) (cs : list (nat * pystr)) (k : cont) :
  rep_greedy is_space 0 None (fun st' => bt true (Chr ":") st' k) sn cs rs
  = if colon_next rs
    then k (MState (":"%char :: rev (take_while is_space rs) ++ sn)
                   (tl (drop_while is_space rs)) cs)
    else None.
Proof.
  rewrite (rep_greedy_committed (colon_rejects k)).
  cbn [Nat.leb hi_ok andb bt rest seen caps]. unfold colon_next.
  destruct (drop_while is_space rs) as [|x r]; [reflexivity|].
  rewrite chr_match_colon. destruct (ascii_eqb x ":") eqn:Hx; [|reflexivity].
  apply ascii_eqb_eq in Hx. now subst x.
Qed.

Lemma ws_colon_seq_at (R : regex) (sn rs : pystr) (cs : list (nat * pystr))
    (k : cont) :
  rep_greedy is_space 0 None (fun st' => bt true (Seq (Chr ":") R) st' k)
    sn cs rs
  = if colon_next rs
    then bt true R
           (MState (":"%char :: rev (take_while is_space rs) ++ sn)
                   (tl (drop_while is_space rs)) cs) k
    else None.
Proof. exact (ws_colon_at sn rs cs (fun st'' => bt true R st'' k)). Qed.

(** [{label}\s*:] at one place, before the rest [R] of a pattern. *)
Lemma label_colon_at (l : pystr) (R : regex) (sn rs : pystr)
    (cs : list (nat * pystr)) (k : cont) :
  bt true (Seq (lits l) (Seq ws_star (Seq (Chr ":") R))) (MState sn rs cs) k
  = if label_colon_b l rs
    then bt true R
           (MState (":"%char
                      :: rev (take_while is_space (skipn (length l) rs))
                      ++ rev (firstn (length l) rs) ++ sn)
                   (tl (drop_while is_space (skipn (length l) rs))) cs) k
    else None.
Proof.
  rewrite bt_seq, bt_lits. unfold label_colon_b.
  destruct (lit_match true l rs); [|reflexivity].
  rewrite bt_seq, bt_ws_star. cbn [seen rest caps andb].
  now rewrite ws_colon_seq_at.
Qed.

Lemma alts_none (ic : bool) (rs : list regex) (st : mstate) (k : cont) :
  rs <> [] ->
  (bt ic (alts rs) st k = None <-> forall r, In r rs -> bt ic r st k = None).
Proof.
  induction rs as [|r rs IH]; [congruence|]. intros _.
  destruct rs as [|r' rs].
  - cbn [alts]. split; [intros H r0 [<-|[]]; exact H|intros H; apply H; now left].
  - change (alts (r :: r' :: rs)) with (Alt r (alts (r' :: rs))).
    rewrite bt_alt. destruct (bt ic r st k) eqn:Hr.
    + split; [discriminate|]. intros H. rewrite <- Hr. apply H. now left.
    + rewrite IH by discriminate. split.
      * intros H r0 [<-|Hin]; auto.
      * intros H r0 Hin. apply H. now right.
Qed.

Variable stop : list pystr.
Hypothesis Hsolid : forall l, In l stop -> solid l = true.
Hypothesis Hstop : stop <> [].

Lemma map_lits_stop : map lits stop <> [].
Proof. destruct stop; [congruence|discriminate]. Qed.

Lemma lits_reject (X : regex) (k : cont) :
  rejects is_space
    (fun st' => bt true (Seq (alts (map lits stop)) X) st' k).
Proof.
  intros sn c rs cs Hc. rewrite bt_seq. apply alts_none; [apply map_lits_stop|].
  intros r Hr. apply in_map_iff in Hr as [l [<- Hl]].
  rewrite bt_lits. apply Hsolid in Hl.
  destruct l as [|c0 l]; [discriminate|]. cbn [lit_match].
  destruct (chr_match true c0 c) eqn:Hm; [|reflexivity].
  apply chr_match_space in Hm. cbn in Hl.
  rewrite <- Hm, Hc in Hl. discriminate.
Qed.

(** One label of the lookahead, with [\s*:] after it. *)
Lemma stop_label_at (l : pystr) (sn b : pystr) (cs : list (nat * pystr)) :
  bt true (lits l) (MState sn b cs)
     (fun st' => bt true (Seq ws_star (Chr ":")) st' (fun st => Some st))
  = None
  <-> label_colon_b l b = false.
Proof.
  rewrite bt_lits. unfold label_colon_b.
  destruct (lit_match true l b); [|tauto].
  rewrite bt_seq, bt_ws_star. cbn [seen rest caps andb].
  rewrite ws_colon_at. destruct (colon_next _); split; congruence.
Qed.

(** The first branch of the lookahead: [\s*(?:{stop})\s*:]. *)
Lemma stop_branch_none (sn b : pystr) (cs : list (nat * pystr)) :
  bt true (Seq ws_star (Seq (alts (map lits stop)) (Seq ws_star (Chr ":"))))
     (MState sn b cs) (fun st => Some st) = None
  <-> existsb (fun l => label_colon_b l (drop_while is_space b)) stop = false.
Proof.
  rewrite bt_seq, bt_ws_star. cbn [seen rest caps].
  rewrite (rep_greedy_committed (lits_reject _ _)).
  cbn [Nat.leb hi_ok andb].
  rewrite bt_seq, (alts_none _ _ _ map_lits_stop).
  split.
  - intros H. apply not_true_is_false. intros Hex.
    apply existsb_exists in Hex as [l [Hl Hlc]].
    specialize (H (lits l) (in_map lits _ _ Hl)).
    apply stop_label_at in H. congruence.
  - intros Hex r Hr. apply in_map_iff in Hr as [l [<- Hl]].
    apply stop_label_at. apply not_true_is_false. intros Hlc.
    assert (Ht : existsb (fun l => label_colon_b l (drop_while is_space b))
                   stop = true)
      by (apply existsb_exists; now exists l).
    congruence.
Qed.

(** The lookahead [(?=\s*(?:{stop})\s*:|$)] at one place. *)
Lemma re_stop_at (st : mstate) (k : cont) :
  bt true (re_stop stop) st k
  = if stop_here stop (rest st) then k st else None.
Proof.
  unfold re_stop, stop_here. rewrite bt_ahead, bt_alt, bt_eos.
  destruct st as [sn b cs]. cbn [rest].
  destruct (existsb _ stop) eqn:Hex.
  - destruct (bt true (Seq ws_star _) (MState sn b cs) _) eqn:Hb;
      [reflexivity|].
    apply stop_branch_none in Hb. congruence.
  - apply (stop_branch_none sn b cs) in Hex. rewrite Hex. cbn [orb].
    now destruct (eos_b b).
Qed.

Lemma stop_here_iff (b : pystr) :
  all_of dot b -> (stop_here stop b = true <-> stop_at stop b).
Proof.
  intros Hb. unfold stop_here, stop_at.
  rewrite orb_true_iff, existsb_exists. split.
  - intros [[l [Hl Hlc]]|He].
    + right. exists l. split; [assumption|].
      now apply (follows_label_iff b (Hsolid Hl)).
    + left. destruct b as [|c [|c' b]]; try discriminate; [reflexivity|].
      inversion Hb as [|? ? Hc _]; subst. unfold dot in Hc. cbn in He.
      rewrite He in Hc. discriminate.
  - intros [->|[l [Hl Hf]]]; [now right|].
    left. exists l. split; [assumption|].
    now apply (follows_label_iff b (Hsolid Hl)).
Qed.

End LabelPattern.

Section FindLabel.

Variables (label : pystr) (stop : list pystr).
Hypothesis Hsolid : forall l, In l stop -> solid l = true.
Hypothesis Hstop : stop <> [].

Lemma all_of_app_r (p : ascii -> bool) (a b : pystr) :
  all_of p (a ++ b) -> all_of p b.
Proof. intros H. now apply Forall_app in H. Qed.

Lemma all_of_cons_r (p : ascii -> bool) (c : ascii) (b : pystr) :
  all_of p (c :: b) -> all_of p b.
Proof. intros H. now inversion H. Qed.

(** The match of the pattern of [find_label] at one place of a text
    without newlines. *)
Lemma find_label_at (sn rs : pystr) :
  all_of dot rs ->
  match bt true (whole (find_label_pattern label stop)) (MState sn rs [])
          (fun st => Some st) with
  | Some m =>
      exists lab ws1 ws2 raw tail,
        rs = lab ++ ws1 ++ ":"%char :: ws2 ++ raw ++ tail
        /\ lower lab = lower label
        /\ all_of is_space ws1 /\ all_of is_space ws2
        /\ head_is is_space (raw ++ tail) = false
        /\ lookup_cap 1 (caps m) = Some raw
        /\ stop_at stop tail
        /\ (forall a b, raw = a ++ b -> b <> [] -> ~ stop_at stop (b ++ tail))
  | None => ~ begins_label label rs
  end.
Proof.
  intros Hdot. unfold whole, find_label_pattern.
  rewrite bt_grp, label_colon_at.
  destruct (label_colon_b label rs) eqn:Hlc.
  2: { intros Hb. apply label_colon_b_iff in Hb. congruence. }
  apply label_colon_b_iff in Hlc as [lab [ws1 [r3 [-> [Hlab Hws1]]]]].
  rewrite (proj1 (ci_split _ Hlab)), (proj2 (ci_split _ Hlab)).
  destruct (colon_next_tail r3 Hws1) as [Htake Hdrop].
  rewrite Htake, Hdrop. cbn [tl].
  assert (Hdot3 : all_of dot r3).
  { apply all_of_app_r, all_of_app_r in Hdot. now apply all_of_cons_r in Hdot. }
  rewrite bt_seq, bt_ws_star. cbn [seen rest caps].
  set (sn3 := ":"%char :: rev ws1 ++ rev lab ++ sn).
  set (st0 := MState sn (lab ++ ws1 ++ ":"%char :: r3) []).
  match goal with
  | |- match rep_greedy _ _ _ ?k _ _ _ with _ => _ end =>
      destruct (k (MState (rev (take_while is_space r3) ++ sn3)
                          (drop_while is_space r3) [])) as [m|] eqn:Hk2
  end.
  - rewrite (rep_greedy_longest (Nat.le_0_l _) Hk2).
    rewrite bt_seq, bt_grp in Hk2. cbn [bt seen rest caps] in Hk2.
    rewrite rep_lazy_first_split in Hk2.
    apply first_split_some in Hk2 as [raw [tail [Hr4 [Hraw [Hm Hfirst]]]]].
    assert (Hdot4 : all_of dot (raw ++ tail)).
    { rewrite <- Hr4. rewrite <- (take_drop_while is_space r3) in Hdot3.
      now apply all_of_app_r in Hdot3. }
    rewrite re_stop_at in Hm by assumption. cbn [rest] in Hm.
    destruct (stop_here stop tail) eqn:Hst; [|discriminate].
    inversion Hm; subst m. clear Hm.
    exists lab, ws1, (take_while is_space r3), raw, tail.
    rewrite <- Hr4, take_drop_while.
    repeat split; auto.
    + apply take_while_all.
    + apply drop_while_head.
    + cbn [caps lookup_cap set_cap filter fst Nat.eqb negb].
      now rewrite span_app.
    + apply stop_here_iff; auto. now apply all_of_app_r in Hdot4.
    + intros a b -> Hb Hs.
      specialize (Hfirst a b eq_refl Hb).
      rewrite re_stop_at in Hfirst by assumption. cbn [rest] in Hfirst.
      rewrite <- app_assoc in Hdot4. apply all_of_app_r in Hdot4.
      apply stop_here_iff in Hs; auto. rewrite Hs in Hfirst. discriminate.
  - exfalso.
    rewrite bt_seq, bt_grp in Hk2. cbn [bt seen rest caps] in Hk2.
    rewrite rep_lazy_first_split in Hk2.
    assert (Hdot4 : all_of dot (drop_while is_space r3)).
    { rewrite <- (take_drop_while is_space r3) in Hdot3.
      now apply all_of_app_r in Hdot3. }
    assert (Hnone := first_split_none Hk2 (a := drop_while is_space r3)
                       (b := []) (eq_sym (app_nil_r _)) Hdot4).
    cbv beta in Hnone. rewrite re_stop_at in Hnone by assumption.
    cbn in Hnone. unfold stop_here in Hnone. cbn [eos_b] in Hnone.
    rewrite orb_true_r in Hnone. discriminate.
Qed.

(** What [re.search] finds for the pattern of [find_label] in a text
    without newlines. *)
Lemma search_find_label (text : pystr) :
  all_of dot text ->
  match re_search true (find_label_pattern label stop) text with
  | Some m =>
      exists raw, lookup_cap 1 (caps m) = Some raw
                  /\ label_value label stop text raw
  | None => label_absent label text
  end.
Proof.
  intros Hdot. unfold re_search. rewrite search_first_split.
  destruct (first_split _ _ [] text) as [m|] eqn:Hs.
  - apply first_split_some in Hs as [pre [t [-> [_ [Hm Hfirst]]]]].
    assert (Hat := find_label_at (rev pre ++ []) (all_of_app_r Hdot)).
    rewrite Hm in Hat.
    destruct Hat as [lab [ws1 [ws2 [raw [tail Hat]]]]].
    destruct Hat as [-> [Hlab [Hws1 [Hws2 [Hhead [Hcap [Hstop' Hmin]]]]]]].
    exists raw. split; [exact Hcap|].
    exists pre, lab, ws1, ws2, tail. repeat split; auto.
    intros pre' t' Heq Hlen Hb.
    destruct (app_split_earlier Heq Hlen) as [a2 [-> [Hne ->]]].
    specialize (Hfirst pre' a2 eq_refl Hne).
    rewrite <- app_assoc in Hdot.
    assert (Hat := find_label_at (rev pre' ++ []) (all_of_app_r Hdot)).
    rewrite Hfirst in Hat. contradiction.
  - intros pre t -> Hb.
    assert (Hnone := first_split_none Hs (a := pre) (b := t) eq_refl
                       (all_of_true pre)).
    cbv beta in Hnone.
    assert (Hat := find_label_at (rev pre ++ []) (all_of_app_r Hdot)).
    rewrite Hnone in Hat. contradiction.
Qed.

End FindLabel.

Section Vocabulary.

Lemma labels_solid (l : pystr) : In l LABELS -> solid l = true.
Proof.
  assert (H : forallb solid LABELS = true) by (vm_compute; reflexivity).
  rewrite forallb_forall in H. apply H.
Qed.

Lemma other_labels_incl (label l : pystr) :
  In l (other_labels label) -> In l LABELS.
Proof. unfold other_labels. rewrite filter_In. tauto. Qed.

Lemma other_labels_solid (label l : pystr) :
  In l (other_labels label) -> solid l = true.
Proof. intros H. apply labels_solid. now apply other_labels_incl in H. Qed.

Lemma other_labels_nonempty (label : pystr) : other_labels label <> [].
Proof.
  intros Hnil.
  assert (Hall : forall l, In l LABELS ->
            str_eqb (lower l) (lower label) = true).
  { intros l Hl. destruct (str_eqb (lower l) (lower label)) eqn:He;
      [reflexivity|].
    assert (Hin : In l (other_labels label)).
    { unfold other_labels. apply filter_In. split; [assumption|].
      now rewrite He. }
    rewrite Hnil in Hin. contradiction. }
  assert (H1 := Hall (str "Agency") (or_introl eq_refl)).
  assert (H2 := Hall (str "Closing")
                  (or_intror (or_intror (or_intror (or_introl eq_refl))))).
  apply str_eqb_eq in H1, H2. rewrite <- H2 in H1. discriminate.
Qed.

Lemma NoDup_map_inj {A B : Type} (f : A -> B) (l : list A) (x y : A) :
  NoDup (map f l) -> In x l -> In y l -> f x = f y -> x = y.
Proof.
  induction l as [|a l IH]; cbn; [tauto|].
  intros Hnd Hx Hy Hf. inversion Hnd as [|? ? Hnotin Hnd']; subst.
  destruct Hx as [->|Hx], Hy as [->|Hy]; auto.
  - exfalso. apply Hnotin. rewrite Hf. now apply in_map.
  - exfalso. apply Hnotin. rewrite <- Hf. now apply in_map.
Qed.

Lemma labels_lower_NoDup : NoDup (map lower LABELS).
Proof.
  assert (H : nodup pystr_eq_dec (map lower LABELS) = map lower LABELS)
    by (vm_compute; reflexivity).
  rewrite <- H. apply NoDup_nodup.
Qed.

(** The stop labels of a label of the vocabulary are the other labels of
    the vocabulary. *)
Lemma other_labels_In (label l : pystr) :
  In label LABELS ->
  (In l (other_labels label) <-> In l LABELS /\ l <> label).
Proof.
  intros Hlabel. unfold other_labels.
  rewrite filter_In, negb_true_iff, str_eqb_neq. split.
  - intros [Hl Hne]. split; [assumption|]. intros ->. now apply Hne.
  - intros [Hl Hne]. split; [assumption|]. intros Heq. apply Hne.
    now apply (NoDup_map_inj labels_lower_NoDup Hl Hlabel).
Qed.

(** What [find_label] returns on cleaned text. *)
Lemma find_label_cleaned (text label : pystr) :
  clean text = text ->
  match find_label text label with
  | Ok (Some v) =>
      exists raw, label_value label (other_labels label) text raw
                  /\ v = clean raw
  | Ok None => label_absent label text
  | Raise _ => False
  end.
Proof.
  intros Hclean. unfold find_label.
  assert (H := search_find_label label (@other_labels_solid label)
                 (@other_labels_nonempty label) (clean_dot Hclean)).
  destruct (re_search true _ text) as [m|]; cbn [is_match group bind].
  - destruct H as [raw [-> Hv]]. cbn [bind]. now exists raw.
  - exact H.
Qed.

End Vocabulary.

Section LabelResult.

Lemma label_value_present (label : pystr) (stop : list pystr)
    (text raw : pystr) :
  label_value label stop text raw -> ~ label_absent label text.
Proof.
  intros [pre [lab [ws1 [ws2 [tail [-> [Hlab [Hws1 _]]]]]]]] Habs.
  apply (Habs pre _ eq_refl). now exists lab, ws1, (ws2 ++ raw ++ tail).
Qed.

Lemma label_value_unique (label : pystr) (stop : list pystr)
    (text raw raw' : pystr) :
  label_value label stop text raw -> label_value label stop text raw' ->
  raw = raw'.
Proof.
  intros [pre [lab [ws1 [ws2 [tail H]]]]] [pre' [lab' [ws1' [ws2' [tail' H']]]]].
  destruct H as [Hu [Hlab [Hws1 [Hws2 [Hleft [Hhead [Hstop Hmin]]]]]]].
  destruct H' as [Hu' [Hlab' [Hws1' [Hws2' [Hleft' [Hhead' [Hstop' Hmin']]]]]]].
  assert (Heq : pre ++ lab ++ ws1 ++ ":"%char :: ws2 ++ raw ++ tail
                = pre' ++ lab' ++ ws1' ++ ":"%char :: ws2' ++ raw' ++ tail')
    by congruence.
  apply app_same_prefix in Heq as [_ Heq].
  2: { intros Hlt. apply (Hleft' pre _ Hu Hlt).
       now exists lab, ws1, (ws2 ++ raw ++ tail). }
  2: { intros Hlt. apply (Hleft pre' _ Hu' Hlt).
       now exists lab', ws1', (ws2' ++ raw' ++ tail'). }
  apply app_same_length in Heq as [_ Heq];
    [|now rewrite (ci_length Hlab), (ci_length Hlab')].
  assert (Hcolon := f_equal (drop_while is_space) Heq).
  rewrite (proj2 (colon_next_tail _ Hws1)),
          (proj2 (colon_next_tail _ Hws1')) in Hcolon.
  injection Hcolon as Hrest.
  assert (Hvalue := f_equal (drop_while is_space) Hrest).
  rewrite !drop_while_app in Hvalue by assumption.
  destruct (Nat.lt_trichotomy (length raw) (length raw')) as [Hlt|[Hlen|Hlt]].
  - exfalso. symmetry in Hvalue.
    destruct (app_split_earlier Hvalue Hlt) as [b [Hraw [Hb Htail]]].
    apply (Hmin' raw b Hraw Hb). now rewrite <- Htail.
  - now apply app_same_length in Hvalue as [Hraw _].
  - exfalso.
    destruct (app_split_earlier Hvalue Hlt) as [b [Hraw [Hb Htail]]].
    apply (Hmin raw' b Hraw Hb). now rewrite <- Htail.
Qed.

End LabelResult.

(** C1. On cleaned page text and for a label of the vocabulary,
    [find_label] returns the cleaned text that stands after the leftmost
    occurrence of the label (in any case) with its colon, up to the first
    place where the text ends or another label of the vocabulary (in any
    case) with its colon follows, and [None] when the label stands
    nowhere with a colon. On "Agency: National Science Foundation Closing
    date: 08/01/2025" the value of "Agency" is "National Science
    Foundation". *)
Theorem find_label_value :
  (forall text label : pystr,
     clean text = text -> In label LABELS ->
     (forall l, In l (other_labels label) <-> In l LABELS /\ l <> label)
     /\ (forall v, find_label text label = Ok (Some v) <->
           exists raw, label_value label (other_labels label) text raw
                       /\ v = clean raw)
     /\ (find_label text label = Ok None <-> label_absent label text))
  /\ find_label
       (str "Agency: National Science Foundation Closing date: 08/01/2025")
       (str "Agency")
     = Ok (Some (str "National Science Foundation"))
  /\ find_label (str "AGENCY : National Science Foundation closing DATE: x")
       (str "Agency")
     = Ok (Some (str "National Science Foundation")).
Proof.
  split; [|split; vm_compute; reflexivity].
  intros text label Hclean Hlabel.
  split; [intros l; now apply other_labels_In|].
  assert (H := find_label_cleaned label Hclean).
  destruct (find_label text label) as [[v'|]|e]; [| |contradiction].
  - destruct H as [raw' [Hraw' Hv']]. split.
    + intros v. split.
      * intros Hv. inversion Hv; subst v. now exists raw'.
      * intros [raw [Hraw Hv]].
        rewrite (label_value_unique Hraw Hraw') in Hv. congruence.
    + split; [discriminate|]. intros Habs.
      now apply label_value_present in Hraw'.
  - split.
    + intros v. split; [discriminate|].
      intros [raw [Hraw _]]. now apply label_value_present in Hraw.
    + tauto.
Qed.

Lemma find_label_value_witness :
  clean (str "Agency: National Science Foundation Closing date: 08/01/2025")
  = str "Agency: National Science Foundation Closing date: 08/01/2025"
  /\ In (str "Agency") LABELS
  /\ exists raw,
       label_value (str "Agency") (other_labels (str "Agency"))
         (str "Agency: National Science Foundation Closing date: 08/01/2025")
         raw
       /\ str "National Science Foundation" = clean raw.
Proof.
  assert (Hc : clean (str "Agency: National Science Foundation Closing date: 08/01/2025")
               = str "Agency: National Science Foundation Closing date: 08/01/2025")
    by (vm_compute; reflexivity).
  assert (Hl : In (str "Agency") LABELS) by (left; reflexivity).
  split; [exact Hc|]. split; [exact Hl|].
  assert (Hv : find_label
            (str "Agency: National Science Foundation Closing date: 08/01/2025")
            (str "Agency")
          = Ok (Some (str "National Science Foundation")))
    by (vm_compute; reflexivity).
  destruct find_label_value as [Hall _].
  destruct (Hall _ _ Hc Hl) as [_ [Hsome _]].
  exact (proj1 (Hsome _) Hv).
Defined.

Section LabelPrefixes.

Lemma lower_char_same_space (x y : ascii) :
  lower_char x = lower_char y -> is_space x = is_space y.
Proof. intros H. now rewrite <- (lower_space x), H, lower_space. Qed.

Lemma lower_drop_spaces (a b : pystr) :
  lower a = lower b ->
  lower (drop_while is_space a) = lower (drop_while is_space b).
Proof.
  revert b. induction a as [|x a IH]; intros [|y b] H; try discriminate;
    [reflexivity|].
  unfold lower in H. cbn [map] in H. inversion H as [[Hxy Hab]].
  cbn [drop_while]. rewrite (lower_char_same_space Hxy).
  destruct (is_space y); [now apply IH|].
  unfold lower. cbn [map]. now rewrite Hxy, Hab.
Qed.

Lemma drop_while_app_head (p : ascii -> bool) (a b : pystr) (c : ascii)
    (r : pystr) :
  drop_while p a = c :: r -> drop_while p (a ++ b) = c :: r ++ b.
Proof.
  induction a as [|x a IH]; cbn; [discriminate|].
  destruct (p x); [exact IH|]. intros H. inversion H. now subst.
Qed.

Lemma lower_char_colon (c : ascii) :
  ascii_eqb (lower_char c) ":" = true <-> c = ":"%char.
Proof.
  each_char c; vm_compute; split; intros H; try discriminate H; reflexivity.
Qed.

(** Where the longer label begins, the shorter one does not stand with its
    colon. *)
Lemma prefix_label_safe (short long t : pystr) :
  goes_on short long = true -> ci_begins long t -> ~ begins_label short t.
Proof.
  unfold goes_on. rewrite andb_true_iff, startswith_app.
  intros [[more ->] Hmore] [lab [post [-> Hlab]]] [lab' [ws [r [Heq [Hlab' Hws]]]]].
  rewrite (proj2 (prefix_split short more)) in Hmore.
  unfold lower in Hlab. rewrite map_app in Hlab.
  apply map_eq_app in Hlab as [lab1 [lab2 [-> [H1 H2]]]].
  rewrite <- app_assoc in Heq.
  apply app_same_length in Heq as [_ Heq];
    [|now rewrite (ci_length H1), (ci_length Hlab')].
  destruct (drop_while is_space more) as [|c m'] eqn:Hd; [discriminate|].
  assert (Hl := lower_drop_spaces (a := lab2) (b := more) H2).
  rewrite Hd in Hl.
  destruct (drop_while is_space lab2) as [|c' l'] eqn:Hd'; [discriminate|].
  unfold lower in Hl. cbn [map] in Hl. injection Hl as Hc _.
  apply (drop_while_app_head post) in Hd'.
  rewrite Heq, (proj2 (colon_next_tail r Hws)) in Hd'.
  injection Hd' as Hc' _. subst c'.
  apply negb_true_iff in Hmore. rewrite <- Hc in Hmore.
  now rewrite (proj2 (lower_char_colon ":") eq_refl) in Hmore.
Qed.

Lemma labels_go_on (short long : pystr) :
  In short LABELS -> In long LABELS -> proper_prefix short long ->
  goes_on short long = true.
Proof.
  intros Hs Hl [more [Hlong Hmore]].
  assert (H : forallb (fun s =>
                forallb (fun l =>
                  implb (startswith s l && negb (str_eqb s l)) (goes_on s l))
                  LABELS) LABELS = true) by (vm_compute; reflexivity).
  rewrite forallb_forall in H. specialize (H short Hs).
  rewrite forallb_forall in H. specialize (H long Hl).
  assert (Hsw : startswith short long = true)
    by (apply startswith_app; now exists more).
  assert (Hne : str_eqb short long = false).
  { apply str_eqb_neq. intros Heq. rewrite <- Heq in Hlong.
    rewrite <- (app_nil_r short) in Hlong at 1.
    apply app_inv_head in Hlong. now subst more. }
  now rewrite Hsw, Hne in H.
Qed.

Lemma find_label_none_iff (text label : pystr) :
  clean text = text ->
  (find_label text label = Ok None <-> label_absent label text).
Proof.
  intros Hclean. assert (H := find_label_cleaned label Hclean).
  destruct (find_label text label) as [[v|]|e]; [|tauto|contradiction].
  destruct H as [raw [Hv _]]. apply label_value_present in Hv.
  split; [discriminate|contradiction].
Qed.

End LabelPrefixes.

(** C3, as the code has it. A label is matched wherever its text stands,
    in any case, with blanks or none and a colon after it; nothing is asked
    of what stands before it. So a label that begins a longer label
    ("Closing" in "Closing date", "Opportunity Category" in "Opportunity
    Category Explanation") is not found where only the longer label
    stands, but a label that ends a longer one ("Category Explanation" in
    "Opportunity Category Explanation") is found inside it, as the label
    looked for and as the label that ends a value. *)
Theorem label_matching_unanchored :
  (forall text label : pystr,
     clean text = text -> In label LABELS ->
     (find_label text label = Ok None <-> label_absent label text))
  /\ (forall text short long : pystr,
        clean text = text -> In short LABELS -> In long LABELS ->
        proper_prefix short long ->
        (forall pre t, text = pre ++ t -> ci_begins short t ->
                       ci_begins long t) ->
        find_label text short = Ok None)
  /\ find_label (str "Closing date: 08/01/2025") (str "Closing") = Ok None
  /\ find_label (str "Opportunity Category Explanation: none")
       (str "Opportunity Category") = Ok None
  /\ find_label explanation_text (str "Category Explanation")
     = Ok (Some (str "foo"))
  /\ find_label
       (str "Opportunity Category Explanation: see Opportunity Category Explanation: none")
       (str "Opportunity Category Explanation")
     = Ok (Some (str "see Opportunity")).
Proof.
  split; [|split; [|repeat split; vm_compute; reflexivity]].
  - intros text label Hclean _. now apply find_label_none_iff.
  - intros text short long Hclean Hs Hl Hpre Hinside.
    apply find_label_none_iff; [assumption|].
    intros pre t Heq Hb.
    apply (prefix_label_safe (labels_go_on Hs Hl Hpre)
             (Hinside pre t Heq (begins_label_ci Hb)) Hb).
Qed.

Lemma label_matching_unanchored_witness :
  clean (str "Closing date: 08/01/2025") = str "Closing date: 08/01/2025"
  /\ In (str "Closing") LABELS
  /\ (find_label (str "Closing date: 08/01/2025") (str "Closing") = Ok None
      <-> label_absent (str "Closing") (str "Closing date: 08/01/2025")).
Proof.
  assert (Hc : clean (str "Closing date: 08/01/2025")
               = str "Closing date: 08/01/2025") by (vm_compute; reflexivity).
  assert (Hl : In (str "Closing") LABELS)
    by (do 3 right; left; reflexivity).
  split; [exact Hc|]. split; [exact Hl|].
  exact (proj1 label_matching_unanchored _ _ Hc Hl).
Defined.

(** C3 as the specification words it: "Category Explanation" would not be
    matched inside "Opportunity Category Explanation :". In this cleaned
    text the shorter label stands only there, and [find_label] takes the
    value from it. *)
Lemma category_explanation_matched_inside :
  clean explanation_text = explanation_text
  /\ In (str "Category Explanation") LABELS
  /\ In (str "Opportunity Category Explanation") LABELS
  /\ explanation_text
     = str "Opportunity " ++ str "Category Explanation" ++ str ": foo"
  /\ explanation_text = str "Opportunity Category Explanation" ++ str ": foo"
  /\ find_label explanation_text (str "Category Explanation")
     = Ok (Some (str "foo")).
Proof.
  repeat split; try (vm_compute; reflexivity).
  - do 13 right. left. reflexivity.
  - do 11 right. left. reflexivity.
Qed.

(* ================================================================== *)
(** * More on [clean_text] *)

Section Squeeze.

(** [re.sub(r"\s+", " ", s)] makes each run of blanks one space. *)
Lemma scan_squeeze (rs : pystr) :
  forall sn,
    flat_map sub_text (scan_matches false ws_plus 0 sn rs) = squeeze false rs
    /\ flat_map sub_text
         (scan_matches false ws_plus (length (take_while is_space rs)) sn rs)
       = squeeze true rs.
Proof.
  induction rs as [|c rs IH]; intros sn; [split; reflexivity|].
  assert (Hzero : flat_map sub_text (scan_matches false ws_plus 0 sn (c :: rs))
                  = squeeze false (c :: rs)).
  { cbn [scan_matches]. rewrite ws_plus_at. cbn [take_while squeeze].
    destruct (is_space c) eqn:Hc.
    - cbn [length Nat.leb seen]. rewrite length_app, length_rev. cbn [length].
      replace (S (length (take_while is_space rs)) + length sn - length sn)
        with (S (length (take_while is_space rs))) by lia.
      cbn [flat_map sub_text]. rewrite (proj2 (IH (c :: sn))). reflexivity.
    - cbn [length Nat.leb flat_map sub_text]. rewrite (proj1 (IH (c :: sn))).
      reflexivity. }
  split; [exact Hzero|].
  cbn [take_while]. destruct (is_space c) eqn:Hc.
  - cbn [length scan_matches squeeze]. rewrite Hc. apply (proj2 (IH (c :: sn))).
  - cbn [length]. rewrite Hzero. cbn [squeeze]. now rewrite Hc.
Qed.

Lemma clean_squeeze (s : pystr) : clean s = strip (squeeze false s).
Proof.
  exact (f_equal strip (proj1 (scan_squeeze s []))).
Qed.

Lemma squeeze_single (s : pystr) :
  forall b, single_spaced b (squeeze b s) = true.
Proof.
  induction s as [|c s IH]; intros b; [reflexivity|].
  cbn [squeeze]. destruct (is_space c) eqn:Hc.
  - destruct b; [apply IH|]. cbn [single_spaced].
    change (is_space " ") with true. cbn. apply IH.
  - cbn [single_spaced]. rewrite Hc. apply IH.
Qed.

Lemma squeeze_fixed (s : pystr) :
  forall b, single_spaced b s = true -> squeeze b s = s.
Proof.
  induction s as [|c s IH]; intros b; [reflexivity|].
  cbn [squeeze single_spaced]. destruct (is_space c).
  - rewrite !andb_true_iff, ascii_eqb_eq, negb_true_iff.
    intros [[-> ->] Hs]. now rewrite (IH true Hs).
  - intros Hs. now rewrite (IH false Hs).
Qed.

Lemma single_spaced_weaken (s : pystr) :
  single_spaced true s = true -> single_spaced false s = true.
Proof.
  destruct s as [|c s]; [reflexivity|]. cbn [single_spaced].
  destruct (is_space c); [|auto]. rewrite andb_false_r. discriminate.
Qed.

Lemma single_spaced_any (b : bool) (s : pystr) :
  single_spaced b s = true -> single_spaced false s = true.
Proof. destruct b; [apply single_spaced_weaken|auto]. Qed.

Lemma single_spaced_head (s : pystr) :
  single_spaced true s = true -> head_is is_space s = false.
Proof.
  destruct s as [|c s]; [reflexivity|]. cbn [single_spaced head_is].
  destruct (is_space c); [|reflexivity]. rewrite andb_false_r. discriminate.
Qed.

Lemma single_spaced_start (s : pystr) :
  single_spaced false s = true -> head_is is_space s = false ->
  single_spaced true s = true.
Proof.
  destruct s as [|c s]; [reflexivity|]. cbn [single_spaced head_is].
  intros H Hc. now rewrite Hc in *.
Qed.

Lemma single_spaced_prefix (a c : pystr) :
  forall b, single_spaced b (a ++ c) = true -> single_spaced b a = true.
Proof.
  induction a as [|x a IH]; intros b; [reflexivity|].
  cbn [app single_spaced]. destruct (is_space x).
  - rewrite !andb_true_iff. intros [H1 H2]. split; [assumption|eauto].
  - apply IH.
Qed.

Lemma single_spaced_suffix (a c : pystr) :
  forall b, single_spaced b (a ++ c) = true -> single_spaced false c = true.
Proof.
  induction a as [|x a IH]; intros b; [apply single_spaced_any|].
  cbn [app single_spaced]. destruct (is_space x).
  - rewrite !andb_true_iff. intros [_ H]. eauto.
  - apply IH.
Qed.

Lemma single_spaced_drop (s : pystr) :
  forall b, single_spaced b s = true ->
            single_spaced true (drop_while is_space s) = true.
Proof.
  induction s as [|c s IH]; intros b; [reflexivity|].
  cbn [single_spaced drop_while]. destruct (is_space c) eqn:Hc.
  - rewrite !andb_true_iff. intros [_ H]. eauto.
  - intros H. cbn [single_spaced]. now rewrite Hc.
Qed.

Lemma drop_while_solid (p : ascii -> bool) (s : pystr) :
  head_is p s = false -> drop_while p s = s.
Proof. destruct s as [|c s]; cbn; [reflexivity|]. now intros ->. Qed.

(** [strip] cuts blanks off both ends. *)
Lemma strip_split (s : pystr) :
  exists a c, s = a ++ strip s ++ c /\ all_of is_space a /\ all_of is_space c.
Proof.
  exists (take_while is_space s),
         (rev (take_while is_space (rev (drop_while is_space s)))).
  split; [|split].
  - unfold strip. rewrite <- rev_app_distr, take_drop_while, rev_involutive.
    symmetry. apply take_drop_while.
  - apply take_while_all.
  - apply Forall_rev, take_while_all.
Qed.

Lemma strip_fixed (s : pystr) :
  head_is is_space s = false -> head_is is_space (rev s) = false ->
  strip s = s.
Proof.
  intros H1 H2. unfold strip.
  rewrite (drop_while_solid H1), (drop_while_solid H2). apply rev_involutive.
Qed.

Lemma strip_single (s : pystr) (b : bool) :
  single_spaced b s = true -> normalized (strip s) = true.
Proof.
  intros Hs. unfold normalized. apply andb_true_iff. split.
  - apply single_spaced_drop in Hs.
    unfold strip.
    rewrite <- (rev_involutive (drop_while is_space s)) in Hs.
    rewrite <- (take_drop_while is_space (rev (drop_while is_space s))) in Hs.
    rewrite rev_app_distr in Hs.
    now apply single_spaced_prefix in Hs.
  - apply negb_true_iff. unfold strip. rewrite rev_involutive.
    apply drop_while_head.
Qed.

Lemma clean_normalized (s : pystr) : normalized (clean s) = true.
Proof. rewrite clean_squeeze. apply (strip_single (squeeze_single s false)). Qed.

Lemma normalized_clean (s : pystr) : normalized s = true -> clean s = s.
Proof.
  unfold normalized. rewrite andb_true_iff, negb_true_iff. intros [Hs Hend].
  rewrite clean_squeeze, (squeeze_fixed (single_spaced_weaken Hs)).
  apply strip_fixed; [now apply single_spaced_head|exact Hend].
Qed.

Lemma clean_idempotent (s : pystr) : clean (clean s) = clean s.
Proof. apply normalized_clean, clean_normalized. Qed.

Lemma solid_chars_app (a b : pystr) :
  solid_chars (a ++ b) = solid_chars a ++ solid_chars b.
Proof. apply filter_app. Qed.

Lemma solid_chars_blank (s : pystr) : all_of is_space s -> solid_chars s = [].
Proof.
  induction 1 as [|c s Hc Hs IH]; [reflexivity|].
  cbn [solid_chars filter]. now rewrite Hc.
Qed.

Lemma solid_chars_squeeze (s : pystr) :
  forall b, solid_chars (squeeze b s) = solid_chars s.
Proof.
  induction s as [|c s IH]; intros b; [reflexivity|].
  cbn [squeeze]. unfold solid_chars in *. cbn [filter].
  destruct (is_space c) eqn:Hc; cbn [negb].
  - destruct b; [apply IH|]. cbn [filter]. change (is_space " ") with true.
    cbn [negb]. apply IH.
  - cbn [filter]. rewrite Hc. cbn [negb]. f_equal. apply IH.
Qed.

Lemma solid_chars_strip (s : pystr) : solid_chars (strip s) = solid_chars s.
Proof.
  destruct (strip_split s) as [a [c [Hs [Ha Hc]]]].
  apply (f_equal solid_chars) in Hs.
  now rewrite !solid_chars_app, (solid_chars_blank Ha), (solid_chars_blank Hc),
              app_nil_r in Hs.
Qed.

Lemma solid_chars_clean (s : pystr) : solid_chars (clean s) = solid_chars s.
Proof. now rewrite clean_squeeze, solid_chars_strip, solid_chars_squeeze. Qed.

Lemma squeeze_length (s : pystr) :
  forall b, length (squeeze b s) <= length s.
Proof.
  induction s as [|c s IH]; intros b; [apply Nat.le_refl|].
  cbn [squeeze]. destruct (is_space c); [destruct b|]; cbn [length];
    pose proof (IH true); pose proof (IH false); lia.
Qed.

Lemma strip_length (s : pystr) : length (strip s) <= length s.
Proof.
  destruct (strip_split s) as [a [c [Hs _]]].
  apply (f_equal (@length ascii)) in Hs. rewrite !length_app in Hs. lia.
Qed.

Lemma clean_length (s : pystr) : length (clean s) <= length s.
Proof.
  rewrite clean_squeeze.
  apply Nat.le_trans with (length (squeeze false s));
    [apply strip_length|apply squeeze_length].
Qed.

(** A blank text cleans to the empty string. *)
Lemma normalized_blank (s : pystr) :
  normalized s = true -> all_of is_space s -> s = [].
Proof.
  unfold normalized. rewrite andb_true_iff. intros [Hs _] Hall.
  apply single_spaced_head in Hs.
  destruct s as [|c s]; [reflexivity|]. inversion Hall; subst.
  cbn in Hs. congruence.
Qed.

Lemma solid_chars_nil (s : pystr) : solid_chars s = [] -> all_of is_space s.
Proof.
  induction s as [|c s IH]; [constructor|].
  unfold solid_chars in *. cbn [filter].
  destruct (is_space c) eqn:Hc; cbn [negb]; [|discriminate].
  intros H. constructor; [exact Hc|exact (IH H)].
Qed.

Lemma clean_blank (s : pystr) : all_of is_space s -> clean s = [].
Proof.
  intros Hs. apply normalized_blank; [apply clean_normalized|].
  apply solid_chars_nil. rewrite solid_chars_clean.
  now apply solid_chars_blank.
Qed.

End Squeeze.

(** X1. [clean_text] returns text with single spaces between the words and
    none at either end; such text is exactly the text it leaves unchanged;
    so cleaning twice is cleaning once. [None] is cleaned to the empty
    string. *)
Theorem clean_text_idempotent :
  (forall s : option pystr, normalized (clean_text s) = true)
  /\ (forall s : pystr, clean s = s <-> normalized s = true)
  /\ (forall s : option pystr,
        clean_text (Some (clean_text s)) = clean_text s)
  /\ clean_text None = [].
Proof.
  split; [|split; [|split; [|reflexivity]]].
  - intros [s|]; [apply clean_normalized|reflexivity].
  - intros s. split; [|apply normalized_clean].
    intros H. rewrite <- H. apply clean_normalized.
  - intros [s|]; [apply clean_idempotent|reflexivity].
Qed.

(** X2. [clean_text] changes blanks only: the characters that are no
    blanks come out as they went in, in their order, and the text does not
    get longer; a text of blanks alone is cleaned to the empty string. *)
Theorem clean_text_keeps_words :
  (forall s : pystr, solid_chars (clean s) = solid_chars s)
  /\ (forall s : pystr, length (clean s) <= length s)
  /\ (forall s : pystr, clean s = [] <-> all_of is_space s).
Proof.
  split; [exact solid_chars_clean|]. split; [exact clean_length|].
  intros s. split; [|apply clean_blank].
  intros H. apply solid_chars_nil. rewrite <- solid_chars_clean. now rewrite H.
Qed.

(* ================================================================== *)
(** * More on [find_label] *)

Section LabelVerbatim.

Lemma single_spaced_middle (a m c : pystr) (b : bool) :
  single_spaced b (a ++ m ++ c) = true -> single_spaced false m = true.
Proof.
  intros H. apply single_spaced_suffix in H.
  now apply single_spaced_prefix in H.
Qed.

Lemma head_is_app_solid (p : ascii -> bool) (a c : pystr) :
  head_is p (a ++ c) = false -> a <> [] -> head_is p a = false.
Proof. destruct a as [|x a]; [congruence|now cbn]. Qed.

Lemma stop_at_blank (stop : list pystr) (c : ascii) (tail : pystr) :
  is_space c = true -> tail <> [] -> stop_at stop tail ->
  stop_at stop (c :: tail).
Proof.
  intros Hc Hne [->|[l [Hl [ws [t' [-> [Hws Hb]]]]]]]; [congruence|].
  right. exists l. split; [assumption|].
  exists (c :: ws), t'. split; [reflexivity|]. split; [|assumption].
  now constructor.
Qed.

(** In cleaned text the value of a label has no blank at either end and
    single spaces inside. *)
Lemma label_value_normalized (label : pystr) (stop : list pystr)
    (text raw : pystr) :
  normalized text = true -> label_value label stop text raw ->
  normalized raw = true.
Proof.
  unfold normalized at 1. rewrite andb_true_iff, negb_true_iff.
  intros [Hs Hend] [pre [lab [ws1 [ws2 [tail H]]]]].
  destruct H as [Hu [_ [_ [_ [_ [Hhead [Hstop Hmin]]]]]]].
  assert (Hu' : text = (pre ++ lab ++ ws1 ++ ":"%char :: ws2) ++ raw ++ tail).
  { rewrite Hu, <- !app_assoc. reflexivity. }
  destruct raw as [|x raw]; [reflexivity|].
  assert (Hmid : single_spaced false (x :: raw) = true).
  { rewrite Hu' in Hs. now apply single_spaced_middle in Hs. }
  assert (Hfirst : head_is is_space (x :: raw) = false)
    by (apply (head_is_app_solid Hhead); discriminate).
  unfold normalized. apply andb_true_iff.
  split; [now apply single_spaced_start|]. apply negb_true_iff.
  destruct (rev (x :: raw)) as [|c r] eqn:Hrev; [reflexivity|].
  cbn [head_is]. destruct (is_space c) eqn:Hc; [|reflexivity]. exfalso.
  assert (Hraw : x :: raw = rev r ++ [c]).
  { rewrite <- (rev_involutive (x :: raw)), Hrev. reflexivity. }
  destruct tail as [|y tail].
  - rewrite Hu', Hraw, app_nil_r, app_assoc, rev_app_distr in Hend.
    cbn in Hend. congruence.
  - apply (Hmin (rev r) [c] Hraw); [discriminate|].
    apply (stop_at_blank Hc); [discriminate|assumption].
Qed.

Lemma find_label_normalized (text label v : pystr) :
  find_label text label = Ok (Some v) -> normalized v = true.
Proof.
  unfold find_label.
  destruct (is_match (re_search true _ text)); [|discriminate].
  destruct (group _ 1) as [g|e]; cbn [bind]; [|discriminate].
  intros H. injection H as <-. apply clean_normalized.
Qed.

(** On cleaned text the value that [find_label] returns is the value of
    the label as it stands in the text. *)
Lemma find_label_piece (text label v : pystr) :
  clean text = text -> find_label text label = Ok (Some v) ->
  label_value label (other_labels label) text v
  /\ exists before after, text = before ++ v ++ after.
Proof.
  intros Hclean Hv. assert (H := find_label_cleaned label Hclean).
  rewrite Hv in H. destruct H as [raw [Hraw ->]].
  assert (Hn : normalized raw = true).
  { apply (label_value_normalized (text:=text) (label:=label)
             (stop:=other_labels label)); [|assumption].
    rewrite <- Hclean. apply clean_normalized. }
  rewrite (normalized_clean Hn). split; [assumption|].
  destruct Hraw as [pre [lab [ws1 [ws2 [tail [Hu _]]]]]].
  exists (pre ++ lab ++ ws1 ++ ":"%char :: ws2), tail.
  rewrite Hu, <- !app_assoc. reflexivity.
Qed.

End LabelVerbatim.

(** X3. What [find_label] returns is cleaned text, whatever the text and
    the label: single spaces between the words, no blank at either end. On
    a cleaned page text the cleaning changes nothing: the result is the
    value of the label as it stands in the text, a piece of the text
    itself. *)
Theorem find_label_verbatim (text label v : pystr) :
  find_label text label = Ok (Some v) ->
  clean v = v
  /\ (clean text = text ->
      label_value label (other_labels label) text v
      /\ exists before after, text = before ++ v ++ after).
Proof.
  intros Hv. split; [apply normalized_clean, (find_label_normalized Hv)|].
  intros Hclean. now apply find_label_piece.
Qed.

Lemma find_label_verbatim_witness :
  find_label (str "Agency: National  Science Foundation Closing date: x")
    (str "Agency")
  = Ok (Some (str "National Science Foundation"))
  /\ clean (str "National Science Foundation")
     = str "National Science Foundation".
Proof.
  assert (Hv : find_label
                 (str "Agency: National  Science Foundation Closing date: x")
                 (str "Agency")
               = Ok (Some (str "National Science Foundation")))
    by (vm_compute; reflexivity).
  split; [exact Hv|]. exact (proj1 (find_label_verbatim Hv)).
Defined.

(* ================================================================== *)
(** * More on [to_iso_date] *)

Ltac each_in H := repeat (destruct H as [<-|H]); try contradiction.

Section IsoRoundTrip.

Lemma digit_cases (c : ascii) : is_digit c = true -> In c DIGITS.
Proof. each_char c; vm_compute; intros H; try discriminate H; tauto. Qed.

Lemma digit_not_space (c : ascii) : is_digit c = true -> is_space c = false.
Proof. each_char c; vm_compute; congruence. Qed.

Lemma code_digit_char (n : nat) : n < 10 -> code (digit_char n) = 48 + n.
Proof. intros H. unfold code, digit_char. apply nat_ascii_embedding. lia. Qed.

Lemma bt_re_Y (y1 y2 y3 y4 : ascii) (rs : pystr) (k : cont) :
  is_digit y1 = true -> is_digit y2 = true -> is_digit y3 = true ->
  is_digit y4 = true ->
  bt true re_Y (MState [] (y1 :: y2 :: y3 :: y4 :: rs) []) k
  = k (MState [y4; y3; y2; y1] rs [(gY, [y1; y2; y3; y4])]).
Proof.
  intros H1 H2 H3 H4. unfold re_Y. rewrite bt_grp, !bt_seq.
  cbn [bt rest seen caps]. now rewrite H1, H2, H3, H4.
Qed.

(** The match of the pattern of ["%Y-%m-%d"] on four digits, a month and a
    day of two digits each. *)
Lemma iso_regex_match (y1 y2 y3 y4 : ascii) (m dd : nat) :
  is_digit y1 = true -> is_digit y2 = true -> is_digit y3 = true ->
  is_digit y4 = true -> 1 <= m <= 12 -> 1 <= dd <= 31 ->
  exists st,
    re_match true ISO_REGEX
      ([y1; y2; y3; y4] ++ str "-" ++ two_digits m ++ str "-" ++ two_digits dd)
    = Some st
    /\ match_end st = 10
    /\ lookup_cap gY (caps st) = Some [y1; y2; y3; y4]
    /\ lookup_cap gm (caps st) = Some (two_digits m)
    /\ lookup_cap gd (caps st) = Some (two_digits dd)
    /\ int_of (two_digits m) = m /\ int_of (two_digits dd) = dd.
Proof.
  intros H1 H2 H3 H4 Hm Hd.
  unfold re_match, whole, ISO_REGEX. rewrite bt_grp, bt_seq.
  cbn [app]. rewrite (bt_re_Y _ _ H1 H2 H3 H4).
  assert (Im : In m (seq 1 12)) by (apply in_seq; lia).
  assert (Id : In dd (seq 1 31)) by (apply in_seq; lia).
  clear Hm Hd H1 H2 H3 H4. cbn [seq In] in Im, Id.
  each_in Im; each_in Id;
    (eexists; split; [vm_compute; reflexivity|repeat split; reflexivity]).
Qed.

Lemma int_of_digits (a b c e : nat) :
  a < 10 -> b < 10 -> c < 10 -> e < 10 ->
  int_of [digit_char a; digit_char b; digit_char c; digit_char e]
  = 1000 * a + 100 * b + 10 * c + e.
Proof.
  intros Ha Hb Hc He.
  assert (D : forall n, n < 10 -> is_digit (digit_char n) = true).
  { intros n Hn. unfold is_digit, between. rewrite (code_digit_char Hn).
    apply andb_true_iff. split; apply Nat.leb_le; lia. }
  unfold int_of. cbn [fold_left].
  rewrite !D, !code_digit_char by assumption. lia.
Qed.

Lemma year_digits (y : nat) :
  y < 100 * 100 ->
  1000 * (y / 1000 mod 10) + 100 * (y / 100 mod 10) + 10 * (y / 10 mod 10)
  + y mod 10 = y.
Proof.
  intros Hy.
  assert (D2 : y / 10 / 10 = y / 100) by apply Nat.Div0.div_div.
  assert (D3 : y / 100 / 10 = y / 1000) by apply Nat.Div0.div_div.
  assert (D4 : y / 1000 / 10 = 0).
  { rewrite Nat.Div0.div_div. now apply Nat.div_small. }
  assert (E1 := Nat.div_mod_eq y 10).
  assert (E2 := Nat.div_mod_eq (y / 10) 10).
  assert (E3 := Nat.div_mod_eq (y / 100) 10).
  assert (E4 := Nat.div_mod_eq (y / 1000) 10).
  rewrite D2 in E2. rewrite D3 in E3. rewrite D4 in E4.
  lia.
Qed.

Lemma days_in_month_le (y m : nat) : days_in_month y m <= 31.
Proof.
  unfold days_in_month.
  do 12 (destruct m as [|m]; [try destruct (is_leap y); lia|]). lia.
Qed.

Lemma valid_date_bounds (d : date) :
  valid_date d = true ->
  year d < 100 * 100 /\ 1 <= month d <= 12 /\ 1 <= day d <= 31.
Proof.
  unfold valid_date. rewrite !andb_true_iff, !Nat.leb_le, Nat.ltb_lt.
  intros [[[[[H1 H2] H3] H4] H5] H6].
  assert (H := days_in_month_le (year d) (month d)). lia.
Qed.

Lemma strptime_matched (s fmt : pystr) (r : regex) (st : mstate) :
  format_regex (parse_format false fmt) = Some r ->
  re_match true r s = Some st -> match_end st = length s ->
  strptime s fmt
  = (let d := Date (found_year (caps st)) (found_month (caps st))
                   (found_day (caps st)) in
     if valid_date d then Ok d else Raise ValueError).
Proof.
  intros Hr Hst Hend. unfold strptime.
  now rewrite Hr, Hst, Hend, Nat.eqb_refl.
Qed.

(** [strptime] reads the ISO form of a date back as that date. *)
Lemma strptime_isoformat (d : date) :
  valid_date d = true -> strptime (isoformat d) (str "%Y-%m-%d") = Ok d.
Proof.
  intros Hv. destruct (valid_date_bounds Hv) as [Hy [Hm Hd]].
  destruct (@iso_regex_match
              (digit_char (year d / 1000 mod 10))
              (digit_char (year d / 100 mod 10))
              (digit_char (year d / 10 mod 10))
              (digit_char (year d mod 10)) (month d) (day d))
    as [st [Hst [Hend [HY [HM [HD [Im Id]]]]]]];
    try apply digit_char_is_digit; try assumption.
  rewrite (strptime_matched (r:=ISO_REGEX) (st:=st));
    [|reflexivity|exact Hst|exact Hend].
  unfold found_year, found_month, found_day. rewrite HY, HM, HD, Im, Id.
  rewrite int_of_digits by (apply Nat.mod_upper_bound; lia).
  rewrite (year_digits Hy). destruct d as [y m dd]. cbn [year month day] in *.
  cbv zeta. now rewrite Hv.
Qed.

(** The three formats before ["%Y-%m-%d"] reject what begins with three
    digits. *)
Lemma digits_rejected (a b c : ascii) (rs : pystr) :
  is_digit a = true -> is_digit b = true -> is_digit c = true ->
  Forall (fails_with (a :: b :: c :: rs)) (firstn 3 DATE_FORMATS).
Proof.
  intros Ha Hb Hc.
  apply digit_cases in Ha, Hb, Hc. unfold DIGITS in *.
  cbn [str list_ascii_of_string In] in Ha, Hb, Hc.
  cbn [firstn DATE_FORMATS map]. constructor; [|clear Hb Hc].
  - each_in Ha; each_in Hb; each_in Hc; vm_compute; reflexivity.
  - each_in Ha; repeat constructor; vm_compute; reflexivity.
Qed.

Lemma solid_normalized (s : pystr) :
  Forall (fun c => is_space c = false) s -> normalized s = true.
Proof.
  intros Hs. unfold normalized. apply andb_true_iff. split.
  - assert (H : forall b, single_spaced b s = true).
    { induction Hs as [|c s Hc Hs IH]; intros b; [reflexivity|].
      cbn [single_spaced]. now rewrite Hc. }
    apply H.
  - apply Forall_rev in Hs. destruct Hs as [|c r Hc _]; [reflexivity|].
    cbn [head_is]. now rewrite Hc.
Qed.

Lemma isoformat_clean (d : date) : clean (isoformat d) = isoformat d.
Proof.
  apply normalized_clean, solid_normalized. unfold isoformat.
  cbn [app str list_ascii_of_string].
  repeat constructor; try (apply digit_not_space, digit_char_is_digit).
Qed.

Lemma to_iso_date_isoformat (d : date) :
  valid_date d = true ->
  to_iso_date (Some (isoformat d)) = Ok (Some (isoformat d)).
Proof.
  intros Hv. rewrite to_iso_date_some by discriminate.
  rewrite isoformat_clean.
  change DATE_FORMATS with (firstn 3 DATE_FORMATS ++ [str "%Y-%m-%d"]).
  assert (H : try_formats (isoformat d)
                (firstn 3 DATE_FORMATS ++ [str "%Y-%m-%d"])
              = Ok (isoformat d)); [|now rewrite H].
  apply try_formats_first; [|now apply strptime_isoformat].
  unfold isoformat. cbn [app].
  apply digits_rejected; apply digit_char_is_digit.
Qed.

Lemma try_formats_cases (s : pystr) (fmts : list pystr) (r : pystr) :
  try_formats s fmts = Ok r ->
  (exists d, valid_date d = true /\ r = isoformat d)
  \/ (r = s /\ Forall (fails_with s) fmts).
Proof.
  induction fmts as [|f fmts IH]; cbn [try_formats].
  - intros H. injection H as <-. right. split; [reflexivity|constructor].
  - destruct (strptime s f) as [d|e] eqn:Hf.
    + intros H. injection H as <-. left. exists d.
      split; [exact (strptime_valid Hf)|reflexivity].
    + assert (He := strptime_raises Hf). subst e. intros H.
      destruct (IH H) as [Hd|[-> Hall]]; [now left|right].
      split; [reflexivity|]. now constructor.
Qed.

Lemma to_iso_date_fixed (s : option pystr) (r : pystr) :
  to_iso_date s = Ok (Some r) -> r <> [] ->
  to_iso_date (Some r) = Ok (Some r).
Proof.
  destruct s as [[|c s]|]; try discriminate.
  rewrite to_iso_date_some by discriminate.
  destruct (try_formats (clean (c :: s)) DATE_FORMATS) as [r'|e] eqn:Hr;
    cbn [bind]; [|discriminate].
  intros H Hne. injection H as ->.
  destruct (try_formats_cases Hr) as [[d [Hv ->]]|[-> Hall]].
  - now apply to_iso_date_isoformat.
  - rewrite (to_iso_date_some Hne), clean_idempotent.
    now rewrite (try_formats_none Hall).
Qed.

Lemma to_iso_date_blank (s : pystr) :
  s <> [] -> all_of is_space s -> to_iso_date (Some s) = Ok (Some []).
Proof.
  intros Hne Hs. rewrite (to_iso_date_some Hne), (clean_blank Hs).
  reflexivity.
Qed.

End IsoRoundTrip.

(** X4. [to_iso_date] leaves its own results as they are: the ISO form of
    every date of the calendar is read back under ["%Y-%m-%d"] and comes
    out unchanged, no earlier format takes it; and any result that is not
    empty, given to [to_iso_date] again, is returned as it is. The empty
    result is what an input of blanks alone gives: not [None], which only
    [None] and the empty string give. *)
Theorem to_iso_date_idempotent :
  (forall d : date, valid_date d = true ->
     strptime (isoformat d) (str "%Y-%m-%d") = Ok d
     /\ to_iso_date (Some (isoformat d)) = Ok (Some (isoformat d)))
  /\ (forall (s : option pystr) (r : pystr),
        to_iso_date s = Ok (Some r) -> r <> [] ->
        to_iso_date (Some r) = Ok (Some r))
  /\ (forall s : pystr, s <> [] -> all_of is_space s ->
        to_iso_date (Some s) = Ok (Some [])).
Proof.
  split; [|split].
  - intros d Hv. split;
      [now apply strptime_isoformat|now apply to_iso_date_isoformat].
  - exact to_iso_date_fixed.
  - exact to_iso_date_blank.
Qed.

Lemma to_iso_date_idempotent_witness :
  to_iso_date (Some (str "Aug 1, 2025")) = Ok (Some (str "2025-08-01"))
  /\ str "2025-08-01" <> []
  /\ to_iso_date (Some (str "2025-08-01")) = Ok (Some (str "2025-08-01")).
Proof.
  assert (Hr : to_iso_date (Some (str "Aug 1, 2025"))
               = Ok (Some (str "2025-08-01"))) by (vm_compute; reflexivity).
  assert (Hne : str "2025-08-01" <> []) by discriminate.
  split; [exact Hr|]. split; [exact Hne|].
  exact (proj1 (proj2 to_iso_date_idempotent) _ _ Hr Hne).
Defined.

(* ================================================================== *)
(** * More on [extract_links] *)

Section LinkOrder.

Lemma links_of_href (pdf : bool) (anchors : list anchor) :
  links_of pdf (find_all_a_href anchors) = links_of pdf anchors.
Proof.
  induction anchors as [|a l IH]; [reflexivity|].
  unfold find_all_a_href, links_of in *. cbn [filter flat_map].
  destruct (href a) as [raw|] eqn:Ha; cbn [flat_map].
  - now rewrite IH.
  - unfold link_of at 2. rewrite Ha. exact IH.
Qed.

Lemma links_fold (l : list anchor) :
  Forall (fun a => href a <> None) l ->
  forall acc,
    fold_left link_step l acc
    = (fst acc ++ links_of false l, snd acc ++ links_of true l).
Proof.
  induction 1 as [|a l Ha Hl IH]; intros [ext docs]; cbn [fold_left fst snd].
  - unfold links_of. cbn [flat_map]. now rewrite !app_nil_r.
  - rewrite IH, (link_step_spec _ Ha). unfold links_of. cbn [flat_map fst snd].
    destruct (link_of a) as [[[|] h]|]; cbn [fst snd Bool.eqb app];
      now rewrite <- ?app_assoc.
Qed.

Lemma extract_links_order (anchors : list anchor) :
  extract_links anchors = (links_of false anchors, links_of true anchors).
Proof.
  unfold extract_links. rewrite links_fold.
  - cbn [fst snd app]. now rewrite !links_of_href.
  - apply Forall_forall. intros a Ha. now apply find_all_a_href_In in Ha.
Qed.

Lemma strip_strip (s : pystr) : strip (strip s) = strip s.
Proof.
  apply strip_fixed.
  - unfold strip.
    destruct (rev (drop_while is_space s)) as [|c r] eqn:Hr.
    + reflexivity.
    + assert (Hd := drop_while_head is_space s).
      assert (Hs : drop_while is_space s = rev (c :: r))
        by (now rewrite <- Hr, rev_involutive).
      destruct (is_space c) eqn:Hc.
      * cbn [drop_while]. rewrite Hc.
        destruct (rev (drop_while is_space r)) as [|x t] eqn:Hx;
          [reflexivity|].
        cbn [head_is]. rewrite Hs in Hd. cbn [rev] in Hd.
        rewrite <- (take_drop_while is_space r) in Hd.
        rewrite rev_app_distr, Hx in Hd. cbn [app head_is] in Hd. exact Hd.
      * cbn [drop_while]. rewrite Hc, <- Hs. exact Hd.
  - unfold strip. rewrite rev_involutive. apply drop_while_head.
Qed.

End LinkOrder.

(** X5. [extract_links] keeps the order of the page: each of its two lists
    holds the links that the anchors give to it, one after the other, a
    link as often as it occurs. A link it returns is a stripped [href]: not
    empty, no blank at either end, starting with ["http"]; and no link is
    in both lists. *)
Theorem extract_links_in_order (anchors : list anchor) :
  extract_links anchors = (links_of false anchors, links_of true anchors)
  /\ (forall more : list anchor,
        extract_links (anchors ++ more)
        = (fst (extract_links anchors) ++ fst (extract_links more),
           snd (extract_links anchors) ++ snd (extract_links more)))
  /\ (forall h, In h (fst (extract_links anchors))
                \/ In h (snd (extract_links anchors)) ->
        h <> [] /\ strip h = h /\ startswith (str "http") h = true)
  /\ (forall h, In h (fst (extract_links anchors)) ->
                ~ In h (snd (extract_links anchors))).
Proof.
  split; [apply extract_links_order|]. split; [|split].
  - intros more. rewrite !extract_links_order. cbn [fst snd].
    unfold links_of. now rewrite !flat_map_app.
  - intros h Hh.
    assert (Habs : http_href anchors h).
    { destruct Hh as [Hh|Hh];
        [apply (proj1 (extract_links_In anchors h)) in Hh
        |apply (proj2 (extract_links_In anchors h)) in Hh]; tauto. }
    destruct Habs as [a [raw [_ [_ [-> Hs]]]]].
    split; [|split; [apply strip_strip|exact Hs]].
    intros He. now rewrite He in Hs.
  - intros h H1 H2.
    apply (proj1 (extract_links_In anchors h)) in H1.
    apply (proj2 (extract_links_In anchors h)) in H2.
    destruct H1 as [_ H1], H2 as [_ H2]. congruence.
Qed.

(* ================================================================== *)
(** * More on [first_date_token] *)

Section TokenShape.

Lemma items_match_head (p : ascii -> bool) (lo : nat) (hi : option nat)
    (its : list item) (tok : pystr) :
  1 <= lo -> items_match (IRun p lo hi :: its) tok ->
  exists c t, tok = c :: t /\ p c = true.
Proof.
  intros Hlo [s [t [-> [[Hs [Hlen _]] _]]]].
  destruct s as [|c s]; [cbn in Hlen; lia|].
  inversion Hs; subst. now exists c, (s ++ t).
Qed.

Lemma items_match_last (p : ascii -> bool) (lo : nat) (hi : option nat)
    (its : list item) :
  1 <= lo ->
  forall tok, items_match (its ++ [IRun p lo hi]) tok ->
              exists t c, tok = t ++ [c] /\ p c = true.
Proof.
  intros Hlo. induction its as [|i its IH]; intros tok;
    cbn [app items_match].
  - intros [s [t [-> [[Hs [Hlen _]] ->]]]]. rewrite app_nil_r.
    destruct (exists_last (l:=s)) as [l [a ->]];
      [intros ->; cbn in Hlen; lia|].
    exists l, a. split; [reflexivity|].
    apply Forall_app in Hs as [_ Ha]. now inversion Ha.
  - intros [s [t [-> [_ Ht]]]]. destruct (IH _ Ht) as [t' [c [-> Hc]]].
    exists (s ++ t'), c. now rewrite app_assoc.
Qed.

Lemma items_match_chars (q : ascii -> bool) (its : list item) :
  Forall (item_chars q) its ->
  forall tok, items_match its tok -> all_of q tok.
Proof.
  induction 1 as [|i its Hi Hits IH]; intros tok; cbn [items_match].
  - intros ->. constructor.
  - intros [s [t [-> [Hs Ht]]]]. apply Forall_app. split; [|now apply IH].
    destruct i as [p lo hi|c]; cbn [item_matches item_chars] in *.
    + destruct Hs as [Hs _]. apply Forall_forall. intros c Hc.
      apply Hi. revert c Hc. now apply Forall_forall.
    + subst s. now repeat constructor.
Qed.

Lemma exact_run (p : ascii -> bool) (n : nat) (s : pystr) :
  item_matches (IRun p n (Some n)) s -> length s = n /\ all_of p s.
Proof.
  cbn [item_matches hi_ok]. intros [Hs [Hlo Hhi]].
  apply Nat.leb_le in Hhi. split; [lia|assumption].
Qed.

Lemma iso_items (r : pystr) : is_iso r = true <-> items_match ISO_DATE r.
Proof.
  split.
  - unfold is_iso.
    destruct r as [|y1 [|y2 [|y3 [|y4 [|h1 [|m1 [|m2 [|h2 [|d1 [|d2 [|x r]]]]]]]]]]];
      try discriminate.
    cbn [forallb]. rewrite !andb_true_iff, !ascii_eqb_eq.
    intros [[[Hy1 [Hy2 [Hy3 [Hy4 [Hm1 [Hm2 [Hd1 [Hd2 _]]]]]]]] ->] ->].
    exists [y1; y2; y3; y4], ["-"; m1; m2; "-"; d1; d2]%char.
    split; [reflexivity|]. split; [now repeat constructor|].
    exists ["-"%char], [m1; m2; "-"; d1; d2]%char.
    split; [reflexivity|]. split; [reflexivity|].
    exists [m1; m2], ["-"; d1; d2]%char.
    split; [reflexivity|]. split; [now repeat constructor|].
    exists ["-"%char], [d1; d2].
    split; [reflexivity|]. split; [reflexivity|].
    exists [d1; d2], []. split; [reflexivity|].
    split; [now repeat constructor|reflexivity].
  - intros [s1 [t1 [-> [H1 [s2 [t2 [-> [-> [s3 [t3 [-> [H3
            [s4 [t4 [-> [-> [s5 [t5 [-> [H5 ->]]]]]]]]]]]]]]]]]]]].
    apply exact_run in H1 as [L1 D1], H3 as [L3 D3], H5 as [L5 D5].
    destruct s1 as [|y1 [|y2 [|y3 [|y4 [|x s1]]]]]; try discriminate.
    destruct s3 as [|m1 [|m2 [|x s3]]]; try discriminate.
    destruct s5 as [|d1 [|d2 [|x s5]]]; try discriminate.
    repeat match goal with
           | H : all_of _ (_ :: _) |- _ => inversion H; subst; clear H
           | H : Forall _ (_ :: _) |- _ => inversion H; subst; clear H
           end.
    cbn [app is_iso forallb].
    repeat match goal with H : is_digit _ = true |- _ => rewrite H; clear H end.
    reflexivity.
Qed.

Lemma alpha_word (c : ascii) : is_alpha c = true -> is_word c = true.
Proof. each_char c; vm_compute; congruence. Qed.

Lemma digit_word (c : ascii) : is_digit c = true -> is_word c = true.
Proof. each_char c; vm_compute; congruence. Qed.

Lemma alpha_not_space (c : ascii) : is_alpha c = true -> is_space c = false.
Proof. each_char c; vm_compute; congruence. Qed.

Lemma iso_char_plain (c : ascii) :
  is_digit c || ascii_eqb c "-" = true ->
  is_alpha c = false /\ ascii_eqb "/" c = false /\ is_space c = false.
Proof. each_char c; vm_compute; intros H; try discriminate H; auto. Qed.

Lemma slash_char_plain (c : ascii) :
  is_digit c || ascii_eqb c "/" = true ->
  is_alpha c = false /\ is_space c = false.
Proof. each_char c; vm_compute; intros H; try discriminate H; auto. Qed.

Lemma iso_chars (r : pystr) :
  items_match ISO_DATE r ->
  all_of (fun c => is_digit c || ascii_eqb c "-") r.
Proof.
  apply items_match_chars. unfold ISO_DATE.
  repeat constructor; cbn [item_chars]; try reflexivity; intros c ->;
    reflexivity.
Qed.

Lemma slash_chars (r : pystr) :
  items_match SLASH_DATE r ->
  all_of (fun c => is_digit c || ascii_eqb c "/") r.
Proof.
  apply items_match_chars. unfold SLASH_DATE.
  repeat constructor; cbn [item_chars]; try reflexivity; intros c ->;
    reflexivity.
Qed.

(** A token is inside the text. *)
Lemma token_at_chars (its : list item) (text pre tok : pystr) (c : ascii) :
  token_at its text pre tok -> In c tok -> In c text.
Proof.
  intros [post [-> _]] Hc. apply in_or_app. right.
  apply in_or_app. now left.
Qed.

Lemma no_word_date (r : pystr) :
  Forall (fun c => is_alpha c = false) r -> no_token WORD_DATE r.
Proof.
  intros Hr pre tok Htok.
  assert (Hm : items_match WORD_DATE tok) by (destruct Htok as [? [_ [H _]]]; exact H).
  apply items_match_head in Hm as [c [t [-> Hc]]]; [|apply Nat.le_refl].
  assert (Hin : In c r) by (apply (token_at_chars Htok); now left).
  rewrite Forall_forall in Hr. apply Hr in Hin. congruence.
Qed.

Lemma no_slash_date (r : pystr) :
  Forall (fun c => ascii_eqb "/" c = false) r -> no_token SLASH_DATE r.
Proof.
  intros Hr pre tok Htok.
  assert (Hm : items_match SLASH_DATE tok) by (destruct Htok as [? [_ [H _]]]; exact H).
  destruct Hm as [s1 [t1 [-> [_ [s2 [t2 [-> [-> _]]]]]]]].
  assert (Hin : In "/"%char r).
  { apply (token_at_chars Htok). apply in_or_app. right. now left. }
  rewrite Forall_forall in Hr. apply Hr in Hin. discriminate.
Qed.

(** A text that is one token from end to end has this token first. *)
Lemma first_token_self (its : list item) (r : pystr) :
  items_match its r -> head_is is_word r = true ->
  head_is is_word (rev r) = true -> first_token its r r.
Proof.
  intros Hm Hhead Hlast. exists []. split.
  - exists []. rewrite app_nil_r. split; [reflexivity|]. split; [exact Hm|].
    unfold boundary. cbn [rev app head_is]. rewrite Hhead, Hlast. now split.
  - intros pre' tok' _. apply Nat.le_0_l.
Qed.

Lemma head_last (p : ascii -> bool) (t : pystr) (c : ascii) :
  head_is p (rev (t ++ [c])) = p c.
Proof. now rewrite rev_app_distr. Qed.

Lemma word_date_ends (r : pystr) :
  items_match WORD_DATE r ->
  (exists c t, r = c :: t /\ is_alpha c = true)
  /\ (exists t c, r = t ++ [c] /\ is_digit c = true).
Proof.
  intros Hm. split.
  - apply (items_match_head (Nat.le_refl 1) Hm).
  - apply (items_match_last (p:=is_digit) (lo:=4) (hi:=Some 4)
             (its:=firstn 5 WORD_DATE)); [lia|exact Hm].
Qed.

Lemma slash_date_ends (r : pystr) :
  items_match SLASH_DATE r ->
  (exists c t, r = c :: t /\ is_digit c = true)
  /\ (exists t c, r = t ++ [c] /\ is_digit c = true).
Proof.
  intros Hm. split.
  - apply (items_match_head (Nat.le_refl 1) Hm).
  - apply (items_match_last (p:=is_digit) (lo:=4) (hi:=Some 4)
             (its:=firstn 4 SLASH_DATE)); [lia|exact Hm].
Qed.

Lemma iso_date_ends (r : pystr) :
  items_match ISO_DATE r ->
  (exists c t, r = c :: t /\ is_digit c = true)
  /\ (exists t c, r = t ++ [c] /\ is_digit c = true).
Proof.
  intros Hm. split.
  - apply (items_match_head (p:=is_digit) (lo:=4) (hi:=Some 4)
             (its:=skipn 1 ISO_DATE)); [lia|exact Hm].
  - apply (items_match_last (p:=is_digit) (lo:=2) (hi:=Some 2)
             (its:=firstn 4 ISO_DATE)); [lia|exact Hm].
Qed.

Lemma single_spaced_run (a t : pystr) (b : bool) :
  Forall (fun c => is_space c = false) a -> a <> [] ->
  single_spaced b (a ++ t) = single_spaced false t.
Proof.
  intros Ha. revert b. induction Ha as [|c a Hc Ha IH]; intros b Hne;
    [congruence|].
  cbn [app single_spaced]. rewrite Hc.
  destruct a as [|c' a]; [reflexivity|]. apply IH. discriminate.
Qed.

Lemma run_solid (p : ascii -> bool) (s : pystr) :
  (forall c, p c = true -> is_space c = false) -> all_of p s ->
  Forall (fun c => is_space c = false) s.
Proof. intros Hp Hs. eapply Forall_impl; [|exact Hs]. exact Hp. Qed.

Lemma nonempty_run (s : pystr) (n : nat) : S n <= length s -> s <> [].
Proof. intros H ->. cbn in H. lia. Qed.

Lemma word_date_normalized (r : pystr) :
  items_match WORD_DATE r -> normalized r = true.
Proof.
  intros Hm. unfold normalized. apply andb_true_iff. split.
  - destruct Hm as [w [t1 [-> [[Hw [Lw _]] [s2 [t2 [-> [->
              [ds [t3 [-> [[Hds [Lds _]] [s4 [t4 [-> [->
              [s5 [t5 [-> [-> [ys [t6 [-> [[Hys [Lys _]] ->]]]]]]]]]]]]]]]]]]]]]]]].
    rewrite (single_spaced_run _ _ (run_solid alpha_not_space Hw)
               (nonempty_run Lw)).
    cbn [app single_spaced]. change (is_space " ") with true.
    cbn [ascii_eqb negb andb]. change (Ascii.eqb " " " ") with true.
    cbn [andb].
    rewrite (single_spaced_run _ _ (run_solid digit_not_space Hds)
               (nonempty_run Lds)).
    cbn [app single_spaced]. change (is_space ",") with false.
    change (is_space " ") with true. change (ascii_eqb " " " ") with true.
    cbn [negb andb]. rewrite app_nil_r.
    rewrite <- (app_nil_r ys).
    now rewrite (single_spaced_run _ _ (run_solid digit_not_space Hys)
                   (nonempty_run Lys)).
  - destruct (proj2 (word_date_ends Hm)) as [t [c [-> Hc]]].
    rewrite head_last. now rewrite (digit_not_space Hc).
Qed.

Lemma slash_date_normalized (r : pystr) :
  items_match SLASH_DATE r -> normalized r = true.
Proof.
  intros Hm. apply solid_normalized.
  eapply Forall_impl; [|exact (slash_chars Hm)].
  intros c Hc. now apply slash_char_plain in Hc.
Qed.

Lemma iso_normalized (r : pystr) : is_iso r = true -> normalized r = true.
Proof.
  intros Hm. apply iso_items in Hm. apply solid_normalized.
  eapply Forall_impl; [|exact (iso_chars Hm)].
  intros c Hc. now apply iso_char_plain in Hc.
Qed.

(** What [to_iso_date] makes of a token of the first or second shape. *)
Lemma token_to_iso (tok r : pystr) :
  items_match WORD_DATE tok \/ items_match SLASH_DATE tok ->
  to_iso_date (Some tok) = Ok (Some r) -> date_like r.
Proof.
  intros Hm.
  assert (Hn : normalized tok = true)
    by (destruct Hm; [now apply word_date_normalized
                     |now apply slash_date_normalized]).
  assert (Hne : tok <> []).
  { destruct Hm as [Hm|Hm];
      [apply word_date_ends in Hm as [[c [t [-> _]]] _]
      |apply slash_date_ends in Hm as [[c [t [-> _]]] _]]; discriminate. }
  rewrite (to_iso_date_some Hne), (normalized_clean Hn).
  destruct (try_formats tok DATE_FORMATS) as [r'|e] eqn:Hr; cbn [bind];
    [|discriminate].
  intros H. injection H as ->.
  destruct (try_formats_cases Hr) as [[d [_ ->]]|[-> Hall]].
  - left. apply isoformat_is_iso.
  - right. now split.
Qed.

Lemma first_date_token_date_like (s : option pystr) (r : pystr) :
  first_date_token s = Ok (Some r) -> date_like r.
Proof.
  destruct s as [[|c s]|]; try discriminate.
  intros Hr. assert (H := @first_date_token_cases (c :: s)).
  rewrite Hr in H. specialize (H ltac:(discriminate)).
  destruct H as [[tok [Ht Hiso]]|[[_ [tok [Ht Hiso]]]
                |[[_ [_ [tok [Ht Heq]]]]|[_ [_ [_ Heq]]]]]].
  - apply (token_to_iso (tok:=tok)); [left|exact Hiso].
    destruct Ht as [pre [[post [_ [Hm _]]] _]]. exact Hm.
  - apply (token_to_iso (tok:=tok)); [right|exact Hiso].
    destruct Ht as [pre [[post [_ [Hm _]]] _]]. exact Hm.
  - injection Heq as ->. left. apply iso_items.
    destruct Ht as [pre [[post [_ [Hm _]]] _]]. exact Hm.
  - discriminate.
Qed.

Lemma date_like_clean (r : pystr) : date_like r -> r <> [] /\ clean r = r.
Proof.
  intros [Hiso|[[Hm|Hm] _]].
  - split; [intros ->; discriminate|].
    now apply normalized_clean, iso_normalized.
  - split; [|now apply normalized_clean, word_date_normalized].
    apply word_date_ends in Hm as [[c [t [-> _]]] _]. discriminate.
  - split; [|now apply normalized_clean, slash_date_normalized].
    apply slash_date_ends in Hm as [[c [t [-> _]]] _]. discriminate.
Qed.

Lemma ends_word (r : pystr) (p : ascii -> bool) (q : ascii -> bool) :
  (forall c, p c = true -> is_word c = true) ->
  (forall c, q c = true -> is_word c = true) ->
  (exists c t, r = c :: t /\ p c = true)
  /\ (exists t c, r = t ++ [c] /\ q c = true) ->
  head_is is_word r = true /\ head_is is_word (rev r) = true.
Proof.
  intros Hp Hq [[c [t [Hr Hc]]] [t' [c' [Hr' Hc']]]]. split.
  - rewrite Hr. cbn [head_is]. now apply Hp.
  - rewrite Hr', head_last. now apply Hq.
Qed.

Lemma date_like_token (r : pystr) :
  date_like r -> token_result r (Some r).
Proof.
  intros Hd. destruct (date_like_clean Hd) as [Hne Hclean].
  destruct Hd as [Hiso|[[Hm|Hm] Hall]].
  - apply iso_items in Hiso.
    assert (Hchars := iso_chars Hiso).
    right. right. left. split; [|split].
    + apply no_word_date. eapply Forall_impl; [|exact Hchars].
      intros c Hc. now apply iso_char_plain in Hc.
    + apply no_slash_date. eapply Forall_impl; [|exact Hchars].
      intros c Hc. now apply iso_char_plain in Hc.
    + exists r. split; [|reflexivity].
      destruct (ends_word digit_word digit_word (iso_date_ends Hiso)).
      now apply first_token_self.
  - left. exists r. split.
    + destruct (ends_word alpha_word digit_word (word_date_ends Hm)).
      now apply first_token_self.
    + now rewrite (to_iso_date_some Hne), Hclean, (try_formats_none Hall).
  - right. left. split; [|exists r; split].
    + apply no_word_date. eapply Forall_impl; [|exact (slash_chars Hm)].
      intros c Hc. now apply slash_char_plain in Hc.
    + destruct (ends_word digit_word digit_word (slash_date_ends Hm)).
      now apply first_token_self.
    + now rewrite (to_iso_date_some Hne), Hclean, (try_formats_none Hall).
Qed.

Lemma date_like_fixed (r : pystr) :
  date_like r -> first_date_token (Some r) = Ok (Some r).
Proof.
  intros Hd. destruct (date_like_clean Hd) as [Hne Hclean].
  assert (H := first_date_token_cases Hne). rewrite Hclean in H.
  destruct (first_date_token (Some r)) as [x|e]; [|contradiction].
  f_equal. exact (token_result_unique H (date_like_token Hd)).
Qed.

End TokenShape.

(** X6. What [first_date_token] returns is never empty and has one of two
    forms: ten characters [YYYY-MM-DD], digits around two hyphens (which
    need not be a date of the calendar when the token had this form
    already), or the token itself, of the first or second shape, when
    [strptime] rejects it under all four formats. Such a result is cleaned
    text, and [first_date_token] returns it unchanged when it is given
    it again. *)
Theorem first_date_token_shape (s : option pystr) (r : pystr) :
  first_date_token s = Ok (Some r) ->
  r <> [] /\ clean r = r
  /\ (is_iso r = true
      \/ ((items_match WORD_DATE r \/ items_match SLASH_DATE r)
          /\ Forall (fails_with r) DATE_FORMATS))
  /\ first_date_token (Some r) = Ok (Some r).
Proof.
  intros Hr. apply first_date_token_date_like in Hr.
  destruct (date_like_clean Hr) as [Hne Hclean].
  split; [exact Hne|]. split; [exact Hclean|]. split; [exact Hr|].
  now apply date_like_fixed.
Qed.

Lemma first_date_token_shape_witness :
  first_date_token (Some room_span) = Ok (Some (str "Room 12, 2025"))
  /\ str "Room 12, 2025" <> []
  /\ first_date_token (Some (str "Room 12, 2025"))
     = Ok (Some (str "Room 12, 2025")).
Proof.
  assert (Hr : first_date_token (Some room_span)
               = Ok (Some (str "Room 12, 2025"))) by (vm_compute; reflexivity).
  split; [exact Hr|].
  destruct (first_date_token_shape Hr) as [Hne [_ [_ Hfix]]].
  split; [exact Hne|exact Hfix].
Defined.

(* ================================================================== *)
(** * More on the record assembly *)

Section Fields.

Variables (url title text created updated : pystr) (anchors : list anchor).

Ltac name_label l v H :=
  destruct (find_label_total (clean_text (Some text)) (str l)) as [v H];
  rewrite H; cbn [bind].

(** The fields of the record that the assembly returns, read off lines
    247-284. *)
Lemma collect_fields_fields :
  exists opp posted_raw c1 c2 c3 archive_raw al,
    collect_fields url title text created updated anchors = Ok opp
    /\ find_label (clean text) (str "Posted date") = Ok posted_raw
    /\ find_label (clean text) (str "Closing") = Ok c1
    /\ find_label (clean text) (str "Close date") = Ok c2
    /\ find_label (clean text) (str "Closing date") = Ok c3
    /\ find_label (clean text) (str "Archive date") = Ok archive_raw
    /\ find_label (clean text) (str "Assistance Listings") = Ok al
    /\ first_date_token posted_raw = Ok (post_date opp)
    /\ first_date_token (or_opt c1 (or_opt c2 c3)) = Ok (close_date opp)
    /\ first_date_token archive_raw = Ok (archive_date opp)
    /\ opportunity_assistance_listings opp
       = (if truthy al then listing_codes (or_empty al) else None)
    /\ additional_info_url opp
       = match snd (classify_links anchors), fst (classify_links anchors) with
         | d :: _, _ => Some d
         | [], e :: _ => Some e
         | [], [] => None
         end
    /\ additional_info_url_description opp
       = match snd (classify_links anchors), fst (classify_links anchors) with
         | _ :: _, _ => Some (str "primary_pdf")
         | [], _ :: _ => Some (str "external_link")
         | [], [] => None
         end.
Proof.
  unfold collect_fields. cbv zeta.
  destruct (extract_opportunity_id_total url) as [oid Hoid].
  rewrite Hoid. cbn [bind].
  name_label "Agency"%string agency Hagency.
  name_label "Funding opportunity number"%string number Hnumber.
  name_label "Posted date"%string posted_raw Hposted.
  name_label "Closing"%string c1 Hc1.
  name_label "Close date"%string c2 Hc2.
  name_label "Closing date"%string c3 Hc3.
  assert (Hclose : or_else c1 (or_else c2 (Ok c3))
                   = Ok (or_opt c1 (or_opt c2 c3))).
  { unfold or_else, or_opt. now destruct (truthy c1), (truthy c2). }
  rewrite Hclose. cbn [bind].
  name_label "Archive date"%string archive_raw Harchive.
  destruct (first_date_token_total posted_raw) as [posted Hp].
  rewrite Hp. cbn [bind].
  destruct (first_date_token_total (or_opt c1 (or_opt c2 c3)))
    as [closing Hc].
  rewrite Hc. cbn [bind].
  destruct (first_date_token_total archive_raw) as [archive Ha].
  rewrite Ha. cbn [bind].
  name_label "Cost sharing or matching requirement"%string cost Hcost.
  name_label "Funding instrument type"%string instrument Hinstrument.
  name_label "Opportunity Category"%string cat Hcat.
  name_label "Opportunity Category Explanation"%string cat_expl Hexpl.
  name_label "Category of Funding Activity"%string activity Hactivity.
  name_label "Assistance Listings"%string al Hal.
  destruct (classify_links anchors) as [external_links documents].
  eexists. exists posted_raw, c1, c2, c3, archive_raw, al.
  split; [reflexivity|]. cbn [post_date close_date archive_date
    opportunity_assistance_listings additional_info_url
    additional_info_url_description fst snd].
  repeat (split; [assumption|]).
  split; [reflexivity|]. split; reflexivity.
Qed.

End Fields.

Section AssembledRecord.

Lemma assemble_fields (url title text created updated : pystr)
    (anchors : list anchor) (opp' : Opportunity) :
  assemble url title text created updated anchors = Ok opp' ->
  exists opp,
    collect_fields url title text created updated anchors = Ok opp
    /\ opp' = apply_tags opp.
Proof.
  unfold assemble.
  destruct (collect_fields url title text created updated anchors)
    as [opp|e]; cbn [bind]; [|discriminate].
  intros H. injection H as <-. now exists opp.
Qed.

Lemma sorted_head_least (l : list pystr) (d : pystr) (rest : list pystr) :
  sorted (set_of l) = d :: rest ->
  In d l /\ forall h, In h l -> str_le d h.
Proof.
  intros Hs. split.
  - apply sorted_set_In. rewrite Hs. now left.
  - intros h Hh. apply sorted_set_In in Hh. rewrite Hs in Hh.
    destruct Hh as [<-|Hh]; [apply str_leb_refl|].
    assert (Hle := sorted_le (set_of l)). rewrite Hs in Hle.
    inversion Hle as [|x r _ Hall]; subst.
    rewrite Forall_forall in Hall. now apply Hall.
Qed.

Lemma sorted_none (l : list pystr) :
  sorted (set_of l) = [] -> forall h, ~ In h l.
Proof.
  intros Hs h Hh. apply sorted_set_In in Hh. now rewrite Hs in Hh.
Qed.

Lemma has_deadline_tag (opp : Opportunity) :
  In (str "has_deadline") (tags (apply_tags opp))
  <-> truthy (close_date opp) = true.
Proof.
  rewrite apply_tags_tags, in_app_iff, rule_tags_filter. split.
  - intros [Hin|Hin].
    + exfalso. apply in_map_iff in Hin as [r [Hr Hin]].
      apply filter_In in Hin as [Hin _]. simpl in Hin.
      repeat (destruct Hin as [Hin|Hin]; [subst r; discriminate Hr|]).
      exact Hin.
    + unfold derived_tags in Hin.
      destruct (truthy (close_date opp)); [reflexivity|].
      destruct (is_true (is_cost_sharing opp)); simpl in Hin;
        repeat (destruct Hin as [Hin|Hin]; [discriminate Hin|]);
        contradiction.
  - intros H. right. unfold derived_tags. rewrite H. simpl. now left.
Qed.

End AssembledRecord.

(** X7. The additional information URL of the assembled record is the
    least, in the order of the code points, of the links of the page that
    look like a PDF, described as ["primary_pdf"]; when the page has none,
    it is the least of its links, described as ["external_link"]; when it
    has no link both fields stay unset. A link of the page is here what
    [extract_links] keeps: a stripped [href] that starts with ["http"] in
    lower case, so [httpfoo] is one and [HTTPS://A.GOV/X.PDF] is none. The
    place of a link on the page has no part in the choice. *)
Theorem additional_info_url_least
    (url title text created updated : pystr) (anchors : list anchor)
    (opp : Opportunity) :
  assemble url title text created updated anchors = Ok opp ->
  ((exists h, http_href anchors h /\ pdf_like h) ->
     exists d,
       additional_info_url opp = Some d
       /\ additional_info_url_description opp = Some (str "primary_pdf")
       /\ http_href anchors d /\ pdf_like d
       /\ forall h, http_href anchors h -> pdf_like h -> str_le d h)
  /\ (~ (exists h, http_href anchors h /\ pdf_like h) ->
      (exists h, http_href anchors h) ->
      exists e,
        additional_info_url opp = Some e
        /\ additional_info_url_description opp = Some (str "external_link")
        /\ http_href anchors e
        /\ forall h, http_href anchors h -> str_le e h)
  /\ (~ (exists h, http_href anchors h) ->
      additional_info_url opp = None
      /\ additional_info_url_description opp = None).
Proof.
  intros Hopp. apply assemble_fields in Hopp as [opp0 [Hopp ->]].
  destruct (collect_fields_fields url title text created updated anchors)
    as [opp1 [? [? [? [? [? [? [Hopp1 H]]]]]]]].
  rewrite Hopp in Hopp1. injection Hopp1 as <-.
  destruct H as [_ [_ [_ [_ [_ [_ [_ [_ [_ [_ [Hurl Hdesc]]]]]]]]]]].
  change (additional_info_url (apply_tags opp0))
    with (additional_info_url opp0).
  change (additional_info_url_description (apply_tags opp0))
    with (additional_info_url_description opp0).
  rewrite Hurl, Hdesc, classify_links_eq. cbn [fst snd].
  assert (Hdoc : forall h, In h (snd (extract_links anchors))
                           <-> http_href anchors h /\ pdf_like h).
  { intros h. rewrite (proj2 (extract_links_In anchors h)), is_pdf_iff.
    reflexivity. }
  assert (Hext : forall h, In h (fst (extract_links anchors))
                           <-> http_href anchors h /\ ~ pdf_like h).
  { intros h. rewrite (proj1 (extract_links_In anchors h)), <- is_pdf_iff.
    destruct (is_pdf (lower h)); intuition congruence. }
  destruct (sorted (set_of (snd (extract_links anchors))))
    as [|d docs] eqn:Hd.
  - assert (Hnone := sorted_none Hd).
    assert (Hnopdf : ~ (exists h, http_href anchors h /\ pdf_like h)).
    { intros [h Hh]. apply Hdoc in Hh. exact (Hnone h Hh). }
    split; [intros Hpdf; contradiction|].
    destruct (sorted (set_of (fst (extract_links anchors))))
      as [|e exts] eqn:He.
    + assert (Hnoext := sorted_none He).
      assert (Hnoabs : ~ (exists h, http_href anchors h)).
      { intros [h Hh]. apply (Hnoext h), Hext. split; [exact Hh|].
        intros Hp. apply Hnopdf. now exists h. }
      split; [intros _ Habs; contradiction|]. now intros _.
    + destruct (sorted_head_least He) as [Hin Hleast].
      split.
      * intros _ _. exists e. split; [reflexivity|]. split; [reflexivity|].
        split; [now apply Hext in Hin|].
        intros h Hh. apply Hleast, Hext. split; [exact Hh|].
        intros Hp. apply Hnopdf. now exists h.
      * intros Hnoabs. exfalso. apply Hnoabs. exists e.
        now apply Hext in Hin.
  - destruct (sorted_head_least Hd) as [Hin Hleast].
    apply Hdoc in Hin as [Habs Hpdf].
    split; [|split].
    + intros _. exists d. split; [reflexivity|]. split; [reflexivity|].
      split; [exact Habs|]. split; [exact Hpdf|].
      intros h Hh Hp. apply Hleast, Hdoc. now split.
    + intros Hno. exfalso. apply Hno. now exists d.
    + intros Hno. exfalso. apply Hno. now exists d.
Qed.

Lemma additional_info_url_least_witness :
  exists opp d,
    assemble (str "https://www.grants.gov/search-results-detail/350693")
      (str "Title") (str "Agency: NSF") (str "T1") (str "T2")
      link_example = Ok opp
    /\ additional_info_url opp = Some d
    /\ additional_info_url_description opp = Some (str "primary_pdf")
    /\ pdf_like d
    /\ str_le d (str "https://a.gov/x.pdf").
Proof.
  destruct (assemble_returns
              (str "https://www.grants.gov/search-results-detail/350693")
              (str "Title") (str "Agency: NSF") (str "T1") (str "T2")
              link_example) as [opp Hopp].
  assert (Habs : http_href link_example (str "https://a.gov/x.pdf")).
  { exists (Anchor (Some (str "https://a.gov/x.pdf")) (str "call")),
           (str "https://a.gov/x.pdf").
    split; [now left|]. repeat split; reflexivity. }
  assert (Hpdf : pdf_like (str "https://a.gov/x.pdf"))
    by (left; now exists (str "https://a.gov/x")).
  assert (Hsome : exists h, http_href link_example h /\ pdf_like h).
  { exists (str "https://a.gov/x.pdf"). split; [exact Habs|exact Hpdf]. }
  destruct (proj1 (additional_info_url_least Hopp) Hsome)
    as [d [Hd [Hdesc [_ [Hdpdf Hleast]]]]].
  exists opp, d. split; [exact Hopp|]. split; [exact Hd|].
  split; [exact Hdesc|]. split; [exact Hdpdf|]. exact (Hleast _ Habs Hpdf).
Defined.

Section Listings.

Lemma bt_bnd (ic : bool) (st : mstate) (k : cont) :
  bt ic Bnd st k
  = if xorb (head_is is_word (seen st)) (head_is is_word (rest st))
    then k st else None.
Proof. reflexivity. Qed.

(** The match of the pattern of the listing codes at one place. *)
Lemma listing_code_at (sn rs : pystr) :
  bt false (whole re_listing_code) (MState sn rs []) (fun st => Some st)
  = if xorb (head_is is_word sn) (head_is is_word rs) then
      match items_at LISTING_CODE rs with
      | Some (tok, r) =>
          if xorb (head_is is_word (rev tok ++ sn)) (head_is is_word r)
          then Some (MState (rev tok ++ sn) r [(0, tok)])
          else None
      | None => None
      end
    else None.
Proof.
  change (bt false (whole re_listing_code) (MState sn rs [])
            (fun st => Some st))
    with (bt false Bnd (MState sn rs [])
            (fun st1 => bt false (items_regex LISTING_CODE) st1
               (fun st2 => bt false Bnd st2
                  (fun st' => Some (MState (seen st') (rest st')
                     (set_cap 0 (span (MState sn rs []) st') (caps st'))))))).
  rewrite bt_bnd. cbn [seen rest].
  destruct (xorb (head_is is_word sn) (head_is is_word rs)); [|reflexivity].
  rewrite (@items_regex_at LISTING_CODE eq_refl).
  destruct (items_at LISTING_CODE rs) as [[tok r]|]; [|reflexivity].
  rewrite bt_bnd. cbn [seen rest caps].
  destruct (xorb (head_is is_word (rev tok ++ sn)) (head_is is_word r));
    [|reflexivity].
  now rewrite span_app.
Qed.

(** A match that the scan reports was found at some place of the text. *)
Lemma scan_matches_found (r : regex) :
  forall rs skip sn m,
    In (inl m) (scan_matches false r skip sn rs) ->
    exists sn' rs' st,
      rev sn' ++ rs' = rev sn ++ rs
      /\ bt false (whole r) (MState sn' rs' []) (fun st => Some st) = Some st
      /\ m = span (MState sn' rs' []) st.
Proof.
  induction rs as [|c rs IH]; intros skip sn m; cbn [scan_matches];
    [intros []|].
  assert (Hnext : forall n,
            In (inl m) (scan_matches false r n (c :: sn) rs) ->
            exists sn' rs' st,
              rev sn' ++ rs' = rev sn ++ c :: rs
              /\ bt false (whole r) (MState sn' rs' []) (fun st => Some st)
                 = Some st
              /\ m = span (MState sn' rs' []) st).
  { intros n H. destruct (IH _ _ _ H) as [sn' [rs' [st [Heq H']]]].
    exists sn', rs', st. split; [|exact H'].
    rewrite Heq. cbn [rev]. now rewrite <- app_assoc. }
  destruct skip as [|n]; [|apply Hnext].
  destruct (bt false (whole r) (MState sn (c :: rs) []) (fun st => Some st))
    as [st|] eqn:Hst.
  - destruct (length (seen st) - length sn) as [|n].
    + intros [H|H]; [discriminate|]. now apply Hnext in H.
    + intros [H|H]; [|now apply Hnext in H].
      injection H as <-. now exists sn, (c :: rs), st.
  - intros [H|H]; [discriminate|]. now apply Hnext in H.
Qed.

Lemma listing_items (c : pystr) :
  items_match LISTING_CODE c -> is_listing_code c = true.
Proof.
  intros [s1 [t1 [-> [H1 [s2 [t2 [-> [-> [s3 [t3 [-> [H3 ->]]]]]]]]]]]].
  apply exact_run in H1 as [L1 D1], H3 as [L3 D3].
  destruct s1 as [|a [|b [|x s1]]]; try discriminate.
  destruct s3 as [|x [|y [|z [|w s3]]]]; try discriminate.
  repeat match goal with
         | H : all_of _ (_ :: _) |- _ => inversion H; subst; clear H
         | H : Forall _ (_ :: _) |- _ => inversion H; subst; clear H
         end.
  cbn [app is_listing_code forallb].
  repeat match goal with H : is_digit _ = true |- _ => rewrite H; clear H end.
  reflexivity.
Qed.

(** A code as the items have it. *)
Lemma listing_shape (tok : pystr) :
  items_match LISTING_CODE tok ->
  exists a b x y z,
    tok = [a; b; "."%char; x; y; z]
    /\ is_digit a = true /\ is_digit b = true /\ is_digit x = true
    /\ is_digit y = true /\ is_digit z = true.
Proof.
  intros [s1 [t1 [-> [H1 [s2 [t2 [-> [-> [s3 [t3 [-> [H3 ->]]]]]]]]]]]].
  apply exact_run in H1 as [L1 D1], H3 as [L3 D3].
  destruct s1 as [|a [|b [|x s1]]]; try discriminate.
  destruct s3 as [|x [|y [|z [|w s3]]]]; try discriminate.
  repeat match goal with
         | H : all_of _ (_ :: _) |- _ => inversion H; subst; clear H
         | H : Forall _ (_ :: _) |- _ => inversion H; subst; clear H
         end.
  exists a, b, x, y, z. now repeat split.
Qed.

Lemma digit_not_dot (c : ascii) : is_digit c = true -> ascii_eqb "." c = false.
Proof. each_char c; vm_compute; congruence. Qed.

(** A match of the pattern at one place is a token there. *)
Lemma listing_token_read (sn rs : pystr) (st : mstate) :
  bt false (whole re_listing_code) (MState sn rs []) (fun st => Some st)
  = Some st ->
  exists tok r,
    st = MState (rev tok ++ sn) r [(0, tok)] /\ rs = tok ++ r
    /\ token_at LISTING_CODE (rev sn ++ rs) (rev sn) tok.
Proof.
  rewrite listing_code_at.
  destruct (xorb (head_is is_word sn) (head_is is_word rs)) eqn:Hb1;
    [|discriminate].
  destruct (items_at LISTING_CODE rs) as [[tok r]|] eqn:Hat; [|discriminate].
  destruct (xorb (head_is is_word (rev tok ++ sn)) (head_is is_word r))
    eqn:Hb2; [|discriminate].
  intros H. injection H as <-.
  apply items_at_sound in Hat as [-> Hm].
  exists tok, r. split; [reflexivity|]. split; [reflexivity|].
  exists r. split; [reflexivity|]. split; [exact Hm|].
  unfold boundary. rewrite rev_app_distr, !rev_involutive. now split.
Qed.

(** A token is a match of the pattern where it stands. *)
Lemma listing_token_found (v pre tok : pystr) :
  token_at LISTING_CODE v pre tok ->
  exists post,
    v = pre ++ tok ++ post
    /\ bt false (whole re_listing_code) (MState (rev pre) (tok ++ post) [])
         (fun st => Some st)
       = Some (MState (rev tok ++ rev pre) post [(0, tok)]).
Proof.
  intros [post [Hv [Hm [Hb1 Hb2]]]]. exists post. split; [exact Hv|].
  rewrite listing_code_at. unfold boundary in Hb1, Hb2. rewrite Hb1.
  rewrite (@items_at_complete LISTING_CODE eq_refl tok post Hm).
  rewrite <- rev_app_distr. now rewrite Hb2.
Qed.

(** No match of the pattern begins inside another one. *)
Lemma listing_no_overlap (sn rs : pystr) (st : mstate) (n : nat) :
  bt false (whole re_listing_code) (MState sn rs []) (fun st => Some st)
  = Some st ->
  length (seen st) - length sn = S n ->
  forall a1 a2, rs = a1 ++ a2 -> 1 <= length a1 <= n ->
    bt false (whole re_listing_code) (MState (rev a1 ++ sn) a2 [])
       (fun st => Some st) = None.
Proof.
  intros Hst Hlen a1 a2 Hrs Hi.
  apply listing_token_read in Hst as [tok [r [-> [-> [post [_ [Hm _]]]]]]].
  apply listing_shape in Hm as [a [b [x [y [z [-> [Ha [Hb [Hx [Hy Hz]]]]]]]]]].
  cbn [seen rev app length] in Hlen.
  assert (Hn : n = 5) by lia. subst n.
  rewrite listing_code_at.
  destruct a1 as [|c1 [|c2 [|c3 [|c4 [|c5 [|c6 a1]]]]]];
    cbn [length] in Hi; try lia;
    cbn [app] in Hrs; injection Hrs as <-; intros; subst;
    cbn [rev app head_is].
  - now rewrite (digit_word Ha), (digit_word Hb).
  - rewrite (digit_word Hb). change (is_word ".") with false.
    cbn [xorb]. reflexivity.
  - rewrite (digit_word Hx). change (is_word ".") with false. cbn [xorb].
    unfold LISTING_CODE.
    cbn [items_at is_exact Nat.eqb take_while].
    rewrite Hx, Hy. cbn [length Nat.leb skipn]. now rewrite (digit_not_dot Hz).
  - now rewrite (digit_word Hx), (digit_word Hy).
  - now rewrite (digit_word Hy), (digit_word Hz).
Qed.

Lemma listing_no_match_at_end (sn : pystr) :
  bt false (whole re_listing_code) (MState sn [] []) (fun st => Some st)
  = None.
Proof. rewrite listing_code_at. now destruct (xorb _ _). Qed.

(** The scan reports every match of the pattern. *)
Lemma scan_listing_complete :
  forall rs skip sn,
    (forall a1 a2, rs = a1 ++ a2 -> length a1 < skip ->
       bt false (whole re_listing_code) (MState (rev a1 ++ sn) a2 [])
          (fun st => Some st) = None) ->
    forall pre b st n,
      rs = pre ++ b ->
      bt false (whole re_listing_code) (MState (rev pre ++ sn) b [])
         (fun st => Some st) = Some st ->
      length (seen st) - length (rev pre ++ sn) = S n ->
      In (inl (span (MState (rev pre ++ sn) b []) st))
         (scan_matches false re_listing_code skip sn rs).
Proof.
  induction rs as [|c rs IH]; intros skip sn Hskip pre b st n Hrs Hst Hlen.
  - symmetry in Hrs. apply app_eq_nil in Hrs as [-> ->].
    now rewrite listing_no_match_at_end in Hst.
  - assert (Hlater : forall k x pre',
              pre = x :: pre' ->
              (forall a1 a2, rs = a1 ++ a2 -> length a1 < k ->
                 bt false (whole re_listing_code)
                    (MState (rev a1 ++ c :: sn) a2 []) (fun st => Some st)
                 = None) ->
              In (inl (span (MState (rev pre ++ sn) b []) st))
                 (scan_matches false re_listing_code k (c :: sn) rs)).
    { intros k x pre' -> Hk. cbn [app] in Hrs. injection Hrs as <- Hrs.
      cbn [rev] in *. rewrite <- app_assoc in *. cbn [app] in *.
      now apply (IH k (c :: sn) Hk pre' b st n). }
    cbn [scan_matches]. destruct skip as [|k].
    + destruct pre as [|x pre'].
      * cbn [app rev] in *. subst b. rewrite Hst, Hlen. now left.
      * destruct (bt false (whole re_listing_code) (MState sn (c :: rs) [])
                    (fun st => Some st)) as [m|] eqn:Hm.
        -- destruct (length (seen m) - length sn) as [|k] eqn:Hk;
             right; apply (Hlater _ x pre' eq_refl).
           ++ intros a1 a2 _ H. lia.
           ++ intros a1 a2 Ha Hl.
              assert (H := @listing_no_overlap sn (c :: rs) m k Hm Hk
                             (c :: a1) a2).
              cbn [rev length app] in H. rewrite <- app_assoc in H.
              apply H; [now rewrite Ha|lia].
        -- right. apply (Hlater _ x pre' eq_refl). intros a1 a2 _ H. lia.
    + destruct pre as [|x pre'].
      * exfalso. cbn [app rev] in Hrs, Hst. subst b.
        assert (H := Hskip [] (c :: rs) eq_refl).
        cbn [rev app length] in H. rewrite H in Hst; [discriminate|lia].
      * apply (Hlater _ x pre' eq_refl). intros a1 a2 Ha Hl.
        assert (H := Hskip (c :: a1) a2).
        cbn [rev length app] in H. rewrite <- app_assoc in H.
        apply H; [now rewrite Ha|lia].
Qed.

(** What [re.findall] finds for the pattern of the listing codes: the
    tokens of two digits, a dot and three digits between word
    boundaries. *)
Lemma findall_listing_codes (v c : pystr) :
  In c (re_findall false re_listing_code v)
  <-> exists pre, token_at LISTING_CODE v pre c.
Proof.
  unfold re_findall. split.
  - intros H. apply in_flat_map in H as [[m|x] [He Hc]]; [|destruct Hc].
    destruct Hc as [->|[]].
    apply scan_matches_found in He as [sn [rs [st [Heq [Hst ->]]]]].
    apply listing_token_read in Hst as [tok [r [-> [-> Htok]]]].
    rewrite span_app. exists (rev sn). cbn [rev app] in Heq.
    now rewrite <- Heq.
  - intros [pre Htok].
    apply listing_token_found in Htok as [post [-> Hst]].
    apply in_flat_map. exists (inl c). split; [|now left].
    assert (H := @scan_listing_complete (pre ++ c ++ post) 0 []).
    specialize (H ltac:(intros a1 a2 _ Hl; lia)
                  pre (c ++ post)
                  (MState (rev c ++ rev pre) post [(0, c)]) (length c - 1)).
    rewrite !app_nil_r in H. rewrite span_app in H.
    apply H; [reflexivity|exact Hst|].
    cbn [seen]. rewrite length_app, !length_rev.
    assert (Hc : 1 <= length c).
    { apply listing_token_read in Hst as [tok [r [Hs [Heq [p [_ [Hm _]]]]]]].
      apply listing_shape in Hm as [a [b [x [y [z [-> _]]]]]].
      assert (Hc0 : c = [a; b; "."%char; x; y; z])
        by (injection Hs; congruence).
      rewrite Hc0. cbn [length]. lia. }
    lia.
Qed.

Lemma listing_codes_some (v : pystr) (l : list pystr) :
  listing_codes v = Some l ->
  l <> [] /\ strictly_sorted l
  /\ forall c, In c l <-> exists pre, token_at LISTING_CODE v pre c.
Proof.
  unfold listing_codes.
  assert (Hs := sorted_set_strict (re_findall false re_listing_code v)).
  assert (Hin := sorted_set_In (re_findall false re_listing_code v)).
  destruct (sorted (set_of (re_findall false re_listing_code v)))
    as [|c0 l0]; [discriminate|].
  intros H. injection H as <-. split; [discriminate|]. split; [exact Hs|].
  intros c. now rewrite Hin, findall_listing_codes.
Qed.

Lemma listing_codes_none (v : pystr) :
  listing_codes v = None <-> no_token LISTING_CODE v.
Proof.
  unfold listing_codes, no_token.
  assert (Hin := sorted_set_In (re_findall false re_listing_code v)).
  destruct (sorted (set_of (re_findall false re_listing_code v)))
    as [|c0 l0].
  - split; [|reflexivity]. intros _ pre tok Htok.
    apply (Hin tok). apply findall_listing_codes. now exists pre.
  - split; [discriminate|]. intros Hno. exfalso.
    assert (H : In c0 (c0 :: l0)) by now left.
    apply Hin, findall_listing_codes in H as [pre Htok].
    exact (Hno pre c0 Htok).
Qed.

End Listings.

(** X8. The dates of the assembled record. The close date is what
    [first_date_token] makes of the first value that is not empty among
    the labels "Closing", "Close date" and "Closing date", in this order.
    The tag [has_deadline] is given exactly when the record has a close
    date. A posted, close or archive date of the record is never empty; it
    has the form [YYYY-MM-DD] or is a token that [strptime] rejected under
    all four formats. *)
Theorem assembled_dates
    (url title text created updated : pystr) (anchors : list anchor)
    (opp : Opportunity) :
  assemble url title text created updated anchors = Ok opp ->
  (exists c1 c2 c3,
      find_label (clean text) (str "Closing") = Ok c1
      /\ find_label (clean text) (str "Close date") = Ok c2
      /\ find_label (clean text) (str "Closing date") = Ok c3
      /\ first_date_token (or_opt c1 (or_opt c2 c3)) = Ok (close_date opp))
  /\ (In (str "has_deadline") (tags opp) <-> exists r, close_date opp = Some r)
  /\ (forall r, In (Some r) [post_date opp; close_date opp; archive_date opp]
                -> r <> [] /\ date_like r).
Proof.
  intros Hopp. apply assemble_fields in Hopp as [opp0 [Hopp ->]].
  destruct (collect_fields_fields url title text created updated anchors)
    as [opp1 [posted_raw [c1 [c2 [c3 [archive_raw [al [Hopp1 H]]]]]]]].
  rewrite Hopp in Hopp1. injection Hopp1 as <-.
  destruct H as [_ [Hc1 [Hc2 [Hc3 [_ [_ [Hp [Hc [Ha _]]]]]]]]].
  assert (Hdate : forall s r, first_date_token s = Ok (Some r) ->
                              r <> [] /\ date_like r).
  { intros s r Hr. apply first_date_token_date_like in Hr.
    split; [exact (proj1 (date_like_clean Hr))|exact Hr]. }
  split; [now exists c1, c2, c3|]. split.
  - rewrite has_deadline_tag.
    change (close_date (apply_tags opp0)) with (close_date opp0).
    destruct (close_date opp0) as [r|] eqn:Hr.
    + destruct (Hdate _ _ Hc) as [Hne _].
      destruct r as [|x r]; [congruence|]. cbn [truthy].
      split; [intros _; now eexists|reflexivity].
    + cbn [truthy]. split; [discriminate|]. intros [r Hr']. discriminate.
  - change (post_date (apply_tags opp0)) with (post_date opp0).
    change (close_date (apply_tags opp0)) with (close_date opp0).
    change (archive_date (apply_tags opp0)) with (archive_date opp0).
    intros r [Hr|[Hr|[Hr|[]]]]; rewrite Hr in *; eapply Hdate; eassumption.
Qed.

Lemma assembled_dates_witness :
  exists opp,
    assemble (str "https://www.grants.gov/search-results-detail/350693")
      (str "Title") (str "Close date: August 1, 2025") (str "T1") (str "T2")
      [] = Ok opp
    /\ close_date opp = Some (str "2025-08-01")
    /\ In (str "has_deadline") (tags opp).
Proof.
  destruct (assemble_returns
              (str "https://www.grants.gov/search-results-detail/350693")
              (str "Title") (str "Close date: August 1, 2025")
              (str "T1") (str "T2") []) as [opp Hopp].
  exists opp. split; [exact Hopp|].
  destruct (assembled_dates Hopp)
    as [[c1 [c2 [c3 [Hc1 [Hc2 [Hc3 Hc]]]]]] [Htag _]].
  assert (E1 : c1 = None) by (vm_compute in Hc1; now inversion Hc1).
  assert (E2 : c2 = Some (str "August 1, 2025"))
    by (vm_compute in Hc2; now inversion Hc2).
  rewrite E1, E2 in Hc.
  assert (Hclose : close_date opp = Some (str "2025-08-01")).
  { vm_compute in Hc. now inversion Hc. }
  split; [exact Hclose|]. apply (proj2 Htag). eexists. exact Hclose.
Defined.

(** X9. The assistance listings of the assembled record come from the
    value of the label "Assistance Listings". When the field is set, it is
    a list that is not empty, sorted with no code twice, and its members
    are exactly the tokens of the value that are two digits, a dot and
    three digits between word boundaries. The field stays unset when the
    label has no value or an empty one, and when the value has no such
    token. *)
Theorem assistance_listings_codes
    (url title text created updated : pystr) (anchors : list anchor)
    (opp : Opportunity) :
  assemble url title text created updated anchors = Ok opp ->
  exists al,
    find_label (clean text) (str "Assistance Listings") = Ok al
    /\ (forall l, opportunity_assistance_listings opp = Some l ->
          l <> [] /\ strictly_sorted l
          /\ exists v, al = Some v
               /\ forall c, In c l <->
                    exists pre, token_at LISTING_CODE v pre c)
    /\ (forall c l, opportunity_assistance_listings opp = Some l ->
          In c l -> is_listing_code c = true)
    /\ (opportunity_assistance_listings opp = None <->
        al = None \/ exists v, al = Some v /\ no_token LISTING_CODE v).
Proof.
  intros Hopp. apply assemble_fields in Hopp as [opp0 [Hopp ->]].
  destruct (collect_fields_fields url title text created updated anchors)
    as [opp1 [posted_raw [c1 [c2 [c3 [archive_raw [al [Hopp1 H]]]]]]]].
  rewrite Hopp in Hopp1. injection Hopp1 as <-.
  destruct H as [_ [_ [_ [_ [_ [Hal [_ [_ [_ [Hl _]]]]]]]]]].
  exists al. split; [exact Hal|].
  change (opportunity_assistance_listings (apply_tags opp0))
    with (opportunity_assistance_listings opp0).
  rewrite Hl. split; [|split].
  - intros l. destruct al as [[|x v]|]; cbn [truthy or_empty];
      try discriminate.
    intros Hsome. apply listing_codes_some in Hsome as [Hne [Hs Hall]].
    split; [exact Hne|]. split; [exact Hs|]. now exists (x :: v).
  - intros c l. destruct al as [[|x v]|]; cbn [truthy or_empty];
      try discriminate.
    intros Hsome Hc. apply listing_codes_some in Hsome as [_ [_ Hall]].
    apply Hall in Hc as [pre [post [_ [Hm _]]]]. now apply listing_items.
  - destruct al as [[|x v]|]; cbn [truthy or_empty].
    + split; [|reflexivity]. intros _. right. exists []. split; [reflexivity|].
      intros pre tok [post [Heq [Hm _]]].
      apply listing_shape in Hm as [a [b [x [y [z [-> _]]]]]].
      destruct pre; discriminate.
    + rewrite listing_codes_none. split.
      * intros Hno. right. now exists (x :: v).
      * intros [H|[v' [H Hno]]]; [discriminate|]. now injection H as <-.
    + split; [now left|reflexivity].
Qed.

Lemma assistance_listings_codes_witness :
  exists opp,
    assemble (str "https://www.grants.gov/search-results-detail/350693")
      (str "Title") (str "Assistance Listings: 93.113, 10.310 and 93.113")
      (str "T1") (str "T2") [] = Ok opp
    /\ opportunity_assistance_listings opp = Some [str "10.310"; str "93.113"]
    /\ strictly_sorted [str "10.310"; str "93.113"]
    /\ is_listing_code (str "10.310") = true.
Proof.
  destruct (assemble_returns
              (str "https://www.grants.gov/search-results-detail/350693")
              (str "Title")
              (str "Assistance Listings: 93.113, 10.310 and 93.113")
              (str "T1") (str "T2") []) as [opp Hopp].
  exists opp. split; [exact Hopp|].
  assert (Hl : opportunity_assistance_listings opp
               = Some [str "10.310"; str "93.113"]).
  { revert Hopp. vm_compute. intros H. now inversion H. }
  split; [exact Hl|].
  destruct (assistance_listings_codes Hopp) as [al [_ [Hsome [Hshape _]]]].
  destruct (Hsome _ Hl) as [_ [Hsorted _]].
  split; [exact Hsorted|].
  exact (Hshape (str "10.310") _ Hl (or_introl eq_refl)).
Defined.

(* ================================================================== *)
(** * The row of the CSV file *)

Section CsvRow.

Lemma dict_set_at (a b : dict) (k : string) (v v' : value) :
  ~ In k (keys a) -> dict_set (a ++ (k, v) :: b) k v' = a ++ (k, v') :: b.
Proof.
  induction a as [|[k0 v0] a IH]; cbn [app dict_set keys map fst]; intros Hk.
  - now rewrite String.eqb_refl.
  - destruct (String.eqb_spec k0 k) as [->|Hne].
    + exfalso. apply Hk. now left.
    + rewrite IH; [reflexivity|]. intros Hin. apply Hk. now right.
Qed.

Lemma keys_flatten (d : dict) : keys (map flatten_item d) = keys d.
Proof. unfold keys. rewrite map_map. now apply map_ext. Qed.

Lemma flatten_loop (post : dict) :
  forall pre,
    NoDup (keys (pre ++ post)) ->
    fold_left (fun r kv =>
                 match snd kv with
                 | VList l => dict_set r (fst kv) (VStr (join (str "|") l))
                 | _ => r
                 end)
              post (map flatten_item pre ++ post)
    = map flatten_item (pre ++ post).
Proof.
  induction post as [|[k v] post IH]; intros pre Hnd; cbn [fold_left].
  - now rewrite !app_nil_r.
  - assert (Hk : ~ In k (keys (map flatten_item pre))).
    { rewrite keys_flatten. unfold keys in *. rewrite map_app in Hnd.
      apply NoDup_remove_2 in Hnd. intros Hin. apply Hnd.
      apply in_or_app. now left. }
    assert (Hstep : match v with
                    | VList l =>
                        dict_set (map flatten_item pre ++ (k, v) :: post) k
                                 (VStr (join (str "|") l))
                    | _ => map flatten_item pre ++ (k, v) :: post
                    end
                    = map flatten_item (pre ++ [(k, v)]) ++ post).
    { rewrite map_app, <- app_assoc. cbn [map app flatten_item fst snd].
      destruct v; try reflexivity. now rewrite dict_set_at. }
    cbn [fst snd].
    match goal with
    | |- fold_left _ post ?acc = _ =>
        replace acc with (map flatten_item (pre ++ [(k, v)]) ++ post)
          by (symmetry; exact Hstep)
    end.
    rewrite IH; rewrite <- app_assoc; [reflexivity|exact Hnd].
Qed.

Lemma flatten_row_map (row : dict) :
  NoDup (keys row) -> flatten_row row = map flatten_item row.
Proof. intros Hnd. exact (@flatten_loop row [] Hnd). Qed.

Lemma dict_get_none (d : dict) (k : string) :
  ~ In k (keys d) -> dict_get d k = None.
Proof.
  induction d as [|[k0 v0] d IH]; cbn [dict_get keys map fst];
    [reflexivity|].
  intros Hk. destruct (String.eqb_spec k0 k) as [->|Hne].
  - exfalso. apply Hk. now left.
  - apply IH. intros Hin. apply Hk. now right.
Qed.

Lemma row_cells (d : dict) :
  NoDup (keys d) ->
  map (fun k => match dict_get (map flatten_item (filter kept d)) k with
                | Some v => v
                | None => VStr []
                end) (keys d)
  = map (fun kv => csv_cell (snd kv)) d.
Proof.
  induction d as [|[k v] d IH]; cbn [keys map fst snd]; intros Hnd;
    [reflexivity|].
  inversion Hnd as [|? ? Hk Hnd']; subst. f_equal.
  - cbn [filter]. unfold kept at 1, csv_cell. cbn [snd].
    destruct (is_empty_value v); cbn [negb map flatten_item fst snd dict_get].
    + rewrite dict_get_none; [reflexivity|].
      rewrite keys_flatten. intros Hin. apply Hk.
      now apply keys_filter_incl.
    + now rewrite String.eqb_refl.
  - rewrite <- (IH Hnd'). apply map_ext_in. intros k' Hk'.
    cbn [filter]. destruct (kept (k, v)); [|reflexivity].
    cbn [map flatten_item fst snd dict_get].
    destruct (String.eqb_spec k k') as [->|Hne]; [contradiction|reflexivity].
Qed.

Lemma row_keys_known (d : dict) :
  forallb (fun k => existsb (String.eqb k) (keys d))
          (keys (map flatten_item (filter kept d))) = true.
Proof.
  apply forallb_forall. intros k Hk. rewrite keys_flatten in Hk.
  apply keys_filter_incl in Hk. apply existsb_exists. exists k.
  split; [exact Hk|apply String.eqb_refl].
Qed.

Lemma asdict_keys_NoDup (opp : Opportunity) : NoDup (keys (asdict opp)).
Proof.
  assert (E : nodup string_dec (keys (asdict opp)) = keys (asdict opp))
    by (vm_compute; reflexivity).
  rewrite <- E. apply NoDup_nodup.
Qed.

Lemma cell_plain (v : value) :
  csv_cell v <> VNone /\ forall l, csv_cell v <> VList l.
Proof.
  unfold csv_cell.
  destruct v as [|[|c s]|b|n|[|x l]]; cbn; split; try intros ?; discriminate.
Qed.

End CsvRow.

(** X10. The row of the CSV file. The loop of lines 298-300 keeps the
    keys of a row and their order and changes a value only when it is a
    list, which becomes the string of its members joined by [|]. For
    every record the writer gets a row it accepts (no key outside the
    field names, so no [ValueError]) and writes one cell for each field of
    the dataclass, in the order of the fields: the empty string for a
    field that is [None], empty or an empty list, the joined string for a
    list, the value itself otherwise. No cell is [None] or a list. *)
Theorem csv_row_cells :
  (forall row : dict, NoDup (keys row) ->
     flatten_row row = map flatten_item row
     /\ keys (flatten_row row) = keys row)
  /\ (forall opp : Opportunity,
        csv_cells opp = Ok (map (fun kv => csv_cell (snd kv)) (asdict opp))
        /\ forall cells, csv_cells opp = Ok cells ->
             length cells = length (keys (asdict opp))
             /\ forall c, In c cells ->
                  c <> VNone /\ forall l, c <> VList l).
Proof.
  split.
  - intros row Hnd. rewrite (flatten_row_map Hnd).
    split; [reflexivity|apply keys_flatten].
  - intros opp.
    assert (Hnd := asdict_keys_NoDup opp).
    assert (Hcells : csv_cells opp
                     = Ok (map (fun kv => csv_cell (snd kv)) (asdict opp))).
    { unfold csv_cells. cbv zeta.
      rewrite (drop_empty_fields_filter Hnd).
      rewrite (flatten_row_map (NoDup_keys_filter Hnd)).
      unfold dict_to_list. rewrite row_keys_known. f_equal.
      apply (row_cells Hnd). }
    split; [exact Hcells|].
    intros cells Hc. rewrite Hcells in Hc.
    assert (E : forall a b : list value, Ok a = Ok b -> a = b)
      by (intros a b H; now injection H).
    apply E in Hc. subst cells.
    split; [unfold keys; now rewrite !length_map|].
    intros c Hin. apply in_map_iff in Hin as [kv [<- _]]. apply cell_plain.
Qed.

Lemma csv_row_cells_witness :
  NoDup (keys pruning_example)
  /\ keys (flatten_row pruning_example) = keys pruning_example.
Proof.
  assert (Hnd : NoDup (keys pruning_example)).
  { repeat constructor; simpl; intuition discriminate. }
  split; [exact Hnd|].
  exact (proj2 (proj1 csv_row_cells pruning_example Hnd)).
Defined.

(* ================================================================== *)
(** * The title *)

Section Title.

Lemma solid_chars_join (l : list pystr) :
  solid_chars (join (str " ") l) = flat_map solid_chars l.
Proof.
  induction l as [|x [|y l] IH].
  - reflexivity.
  - cbn [join flat_map]. now rewrite app_nil_r.
  - change (join (str " ") (x :: y :: l))
      with (x ++ str " " ++ join (str " ") (y :: l)).
    rewrite !solid_chars_app, IH. reflexivity.
Qed.

Lemma solid_chars_get_text (e : element) :
  solid_chars (get_text e) = flat_map solid_chars e.
Proof.
  unfold get_text. rewrite solid_chars_join.
  induction e as [|s e IH]; [reflexivity|].
  cbn [map filter flat_map]. rewrite <- IH, <- (solid_chars_strip s).
  destruct (strip s); reflexivity.
Qed.

Lemma heading_chars (el : option element) :
  match heading el with
  | Some t => t <> [] /\ clean t = t /\ solid_chars t = element_chars el
  | None => element_chars el = []
  end.
Proof.
  destruct el as [e|]; [|reflexivity]. cbn [heading element_chars].
  rewrite <- solid_chars_get_text, <- (solid_chars_clean (get_text e)).
  fold (clean (get_text e)).
  assert (Hfix := clean_idempotent (get_text e)).
  destruct (clean (get_text e)) as [|c t]; [reflexivity|].
  split; [discriminate|]. now split.
Qed.

End Title.

(** X11. [extract_title] takes the first [h1] of the page when its text
    has a character that is no blank, whatever the [title] element is; it
    takes the [title] element only when there is no such [h1]; with
    neither it returns the empty string. What it returns is cleaned text
    with the characters of the chosen element that are no blanks, in their
    order; it is empty only when neither element has such a character. *)
Theorem extract_title_priority (s : soup) :
  clean (extract_title s) = extract_title s
  /\ (element_chars (find_h1 s) <> [] ->
      heading (find_h1 s) = Some (extract_title s)
      /\ solid_chars (extract_title s) = element_chars (find_h1 s))
  /\ (element_chars (find_h1 s) = [] -> element_chars (title_tag s) <> [] ->
      heading (title_tag s) = Some (extract_title s)
      /\ solid_chars (extract_title s) = element_chars (title_tag s))
  /\ (extract_title s = [] <->
      element_chars (find_h1 s) = [] /\ element_chars (title_tag s) = []).
Proof.
  unfold extract_title.
  assert (H1 := heading_chars (find_h1 s)).
  assert (H2 := heading_chars (title_tag s)).
  destruct (heading (find_h1 s)) as [t1|].
  - destruct H1 as [Hne [Hclean Hchars]].
    assert (Hsolid : element_chars (find_h1 s) <> []).
    { rewrite <- Hchars. intros He. apply Hne.
      apply normalized_blank.
      - rewrite <- Hclean. apply clean_normalized.
      - now apply solid_chars_nil. }
    split; [exact Hclean|]. split; [now intros _|].
    split; [intros He; contradiction|].
    split; [intros He; contradiction|intros [He _]; contradiction].
  - destruct (heading (title_tag s)) as [t2|].
    + destruct H2 as [Hne [Hclean Hchars]].
      assert (Hsolid : element_chars (title_tag s) <> []).
      { rewrite <- Hchars. intros He. apply Hne.
        apply normalized_blank.
        - rewrite <- Hclean. apply clean_normalized.
        - now apply solid_chars_nil. }
      split; [exact Hclean|]. split; [intros He; contradiction|].
      split; [now intros _ _|].
      split; [intros He; contradiction|intros [_ He]; contradiction].
    + split; [reflexivity|]. split; [intros He; contradiction|].
      split; [intros _ He; contradiction|]. now split.
Qed.

Lemma extract_title_priority_witness :
  element_chars
    (find_h1 (Soup (Some [str " Clean  Energy"; str "  "; str "2025 "])
                   (Some [str "Grants.gov"])))
  <> []
  /\ heading (Some [str " Clean  Energy"; str "  "; str "2025 "])
     = Some (extract_title
               (Soup (Some [str " Clean  Energy"; str "  "; str "2025 "])
                     (Some [str "Grants.gov"])))
  /\ extract_title (Soup (Some [str " Clean  Energy"; str "  "; str "2025 "])
                         (Some [str "Grants.gov"]))
     = str "Clean Energy 2025".
Proof.
  assert (Hne : element_chars
                  (find_h1 (Soup (Some [str " Clean  Energy"; str "  ";
                                        str "2025 "])
                                 (Some [str "Grants.gov"]))) <> [])
    by (vm_compute; discriminate).
  split; [exact Hne|].
  destruct (extract_title_priority
              (Soup (Some [str " Clean  Energy"; str "  "; str "2025 "])
                    (Some [str "Grants.gov"]))) as [_ [Hh1 _]].
  split; [exact (proj1 (Hh1 Hne))|]. vm_compute. reflexivity.
Defined.

Section TextFields.

Variables (url title text created updated : pystr) (anchors : list anchor).

Ltac name_label l v H :=
  destruct (find_label_total (clean_text (Some text)) (str l)) as [v H];
  rewrite H; cbn [bind].

(** The fields of the record that are the value of one label, read off
    lines 244-268. *)
Lemma collect_fields_labels :
  exists opp instrument activity,
    collect_fields url title text created updated anchors = Ok opp
    /\ find_label (clean text) (str "Agency") = Ok (agency_name opp)
    /\ find_label (clean text) (str "Funding opportunity number")
       = Ok (opportunity_number opp)
    /\ find_label (clean text) (str "Opportunity Category")
       = Ok (category opp)
    /\ find_label (clean text) (str "Opportunity Category Explanation")
       = Ok (category_explanation opp)
    /\ find_label (clean text) (str "Funding instrument type") = Ok instrument
    /\ find_label (clean text) (str "Category of Funding Activity")
       = Ok activity
    /\ funding_instruments opp
       = (if truthy instrument then Some [or_empty instrument] else None)
    /\ funding_categories opp
       = (if truthy activity then Some [or_empty activity] else None).
Proof.
  unfold collect_fields. cbv zeta.
  destruct (extract_opportunity_id_total url) as [oid Hoid].
  rewrite Hoid. cbn [bind].
  name_label "Agency"%string agency Hagency.
  name_label "Funding opportunity number"%string number Hnumber.
  name_label "Posted date"%string posted_raw Hposted.
  name_label "Closing"%string c1 Hc1.
  name_label "Close date"%string c2 Hc2.
  name_label "Closing date"%string c3 Hc3.
  assert (Hclose : or_else c1 (or_else c2 (Ok c3))
                   = Ok (or_opt c1 (or_opt c2 c3))).
  { unfold or_else, or_opt. now destruct (truthy c1), (truthy c2). }
  rewrite Hclose. cbn [bind].
  name_label "Archive date"%string archive_raw Harchive.
  destruct (first_date_token_total posted_raw) as [posted Hp].
  rewrite Hp. cbn [bind].
  destruct (first_date_token_total (or_opt c1 (or_opt c2 c3)))
    as [closing Hc].
  rewrite Hc. cbn [bind].
  destruct (first_date_token_total archive_raw) as [archive Ha].
  rewrite Ha. cbn [bind].
  name_label "Cost sharing or matching requirement"%string cost Hcost.
  name_label "Funding instrument type"%string instrument Hinstrument.
  name_label "Opportunity Category"%string cat Hcat.
  name_label "Opportunity Category Explanation"%string cat_expl Hexpl.
  name_label "Category of Funding Activity"%string activity Hactivity.
  name_label "Assistance Listings"%string al Hal.
  destruct (classify_links anchors) as [external_links documents].
  eexists. exists instrument, activity.
  split; [reflexivity|]. cbn [agency_name opportunity_number category
    category_explanation funding_instruments funding_categories].
  repeat (split; [assumption|]). split; reflexivity.
Qed.

End TextFields.

(** X12. The text fields of the assembled record. The agency name, the
    opportunity number, the category and its explanation are each what
    [find_label] returns for their label on the cleaned page text; the
    funding instruments and the funding categories are the list of the one
    value of their label when this value is not empty, and unset
    otherwise. Every value that [find_label] returns there is the value of
    the label as it stands in the cleaned page text, a piece of it. *)
Theorem assembled_text_fields
    (url title text created updated : pystr) (anchors : list anchor)
    (opp : Opportunity) :
  assemble url title text created updated anchors = Ok opp ->
  find_label (clean text) (str "Agency") = Ok (agency_name opp)
  /\ find_label (clean text) (str "Funding opportunity number")
     = Ok (opportunity_number opp)
  /\ find_label (clean text) (str "Opportunity Category") = Ok (category opp)
  /\ find_label (clean text) (str "Opportunity Category Explanation")
     = Ok (category_explanation opp)
  /\ (exists instrument,
        find_label (clean text) (str "Funding instrument type")
        = Ok instrument
        /\ funding_instruments opp
           = match instrument with
             | Some (c :: v) => Some [c :: v]
             | _ => None
             end)
  /\ (exists activity,
        find_label (clean text) (str "Category of Funding Activity")
        = Ok activity
        /\ funding_categories opp
           = match activity with
             | Some (c :: v) => Some [c :: v]
             | _ => None
             end)
  /\ (forall label v,
        find_label (clean text) label = Ok (Some v) ->
        label_value label (other_labels label) (clean text) v
        /\ occurs_in v (clean text)).
Proof.
  intros Hopp. apply assemble_fields in Hopp as [opp0 [Hopp ->]].
  destruct (collect_fields_labels url title text created updated anchors)
    as [opp1 [instrument [activity [Hopp1 H]]]].
  rewrite Hopp in Hopp1. injection Hopp1 as <-.
  destruct H as [Hagency [Hnumber [Hcat [Hexpl [Hins [Hact [Hfi Hfc]]]]]]].
  change (agency_name (apply_tags opp0)) with (agency_name opp0).
  change (opportunity_number (apply_tags opp0)) with (opportunity_number opp0).
  change (category (apply_tags opp0)) with (category opp0).
  change (category_explanation (apply_tags opp0))
    with (category_explanation opp0).
  change (funding_instruments (apply_tags opp0))
    with (funding_instruments opp0).
  change (funding_categories (apply_tags opp0)) with (funding_categories opp0).
  split; [exact Hagency|]. split; [exact Hnumber|]. split; [exact Hcat|].
  split; [exact Hexpl|]. split; [|split].
  - exists instrument. split; [exact Hins|]. rewrite Hfi.
    now destruct instrument as [[|c v]|].
  - exists activity. split; [exact Hact|]. rewrite Hfc.
    now destruct activity as [[|c v]|].
  - intros label v Hv. apply find_label_piece; [apply clean_idempotent|].
    exact Hv.
Qed.

Lemma assembled_text_fields_witness :
  exists opp,
    assemble detail_url (str "Title")
      (str "Agency:  National Science Foundation Posted date: 08/01/2025")
      (str "T1") (str "T2") [] = Ok opp
    /\ agency_name opp = Some (str "National Science Foundation")
    /\ occurs_in (str "National Science Foundation")
         (clean (str "Agency:  National Science Foundation Posted date: 08/01/2025")).
Proof.
  destruct (assemble_returns detail_url (str "Title")
              (str "Agency:  National Science Foundation Posted date: 08/01/2025")
              (str "T1") (str "T2") []) as [opp Hopp].
  exists opp. split; [exact Hopp|].
  destruct (assembled_text_fields Hopp) as [Hagency [_ [_ [_ [_ [_ Hpiece]]]]]].
  assert (Hv : find_label
                 (clean (str "Agency:  National Science Foundation Posted date: 08/01/2025"))
                 (str "Agency")
               = Ok (Some (str "National Science Foundation")))
    by (vm_compute; reflexivity).
  split.
  - rewrite Hv in Hagency. symmetry.
    assert (E : forall a b : option pystr, Ok a = Ok b -> a = b)
      by (intros a b H; now injection H).
    exact (E _ _ Hagency).
  - exact (proj2 (Hpiece _ _ Hv)).
Defined.

(* ================================================================== *)
(** * Links that are no absolute URLs, and absolute URLs that are no links *)

(** C6 as the specification words it, with absolute URLs kept and relative
    hrefs discarded: [http.html] has no scheme, it is a relative
    reference, and the code keeps it as an external link;
    [HTTPS://A.GOV/X.PDF] and [ftp://a.gov/x.pdf] are absolute URLs that
    end in [.pdf] in lower case, and the code has them in neither list. *)
Lemma relative_href_kept :
  has_scheme (str "http.html") = false
  /\ classify_links [Anchor (Some (str "http.html")) (str "more")]
     = ([str "http.html"], [])
  /\ has_scheme (str "HTTPS://A.GOV/X.PDF") = true
  /\ classify_links [Anchor (Some (str "HTTPS://A.GOV/X.PDF")) (str "call")]
     = ([], [])
  /\ has_scheme (str "ftp://a.gov/x.pdf") = true
  /\ classify_links [Anchor (Some (str "ftp://a.gov/x.pdf")) (str "call")]
     = ([], []).
Proof. repeat split; vm_compute; reflexivity. Qed.

(* ================================================================== *)
(** * Nothing raises on a string *)

Section MissingLabels.

Variables (url title text created updated : pystr) (anchors : list anchor).

Lemma missing_label (label : pystr) :
  label_absent label (clean text) -> find_label (clean text) label = Ok None.
Proof. apply find_label_none_iff, clean_idempotent. Qed.

Lemma ok_inj {A : Type} (a b : A) : Ok a = Ok b -> a = b.
Proof. intros H. now injection H. Qed.

(** A label that the page does not have leaves its field unset. *)
Lemma missing_labels_unset (opp : Opportunity) :
  assemble url title text created updated anchors = Ok opp ->
  (label_absent (str "Agency") (clean text) -> agency_name opp = None)
  /\ (label_absent (str "Funding opportunity number") (clean text) ->
      opportunity_number opp = None)
  /\ (label_absent (str "Opportunity Category") (clean text) ->
      category opp = None)
  /\ (label_absent (str "Opportunity Category Explanation") (clean text) ->
      category_explanation opp = None)
  /\ (label_absent (str "Posted date") (clean text) -> post_date opp = None)
  /\ (label_absent (str "Closing") (clean text) ->
      label_absent (str "Close date") (clean text) ->
      label_absent (str "Closing date") (clean text) ->
      close_date opp = None)
  /\ (label_absent (str "Archive date") (clean text) ->
      archive_date opp = None)
  /\ (label_absent COST_SHARING_LABEL (clean text) ->
      is_cost_sharing opp = None)
  /\ (label_absent (str "Funding instrument type") (clean text) ->
      funding_instruments opp = None)
  /\ (label_absent (str "Category of Funding Activity") (clean text) ->
      funding_categories opp = None)
  /\ (label_absent (str "Assistance Listings") (clean text) ->
      opportunity_assistance_listings opp = None).
Proof.
  intros Hopp. apply assemble_fields in Hopp as [opp0 [Hopp ->]].
  destruct (collect_fields_returns url title text created updated anchors)
    as [o1 [cs [H1 [Hcs Hflag]]]].
  rewrite Hopp in H1. apply ok_inj in H1. subst o1.
  destruct (collect_fields_fields url title text created updated anchors)
    as [o2 [posted_raw [c1 [c2 [c3 [archive_raw [al [H2 F]]]]]]]].
  rewrite Hopp in H2. apply ok_inj in H2. subst o2.
  destruct F as [Hposted [Hc1 [Hc2 [Hc3 [Harchive [Hal [Hp [Hc [Ha [Hl _]]]]]]]]]].
  destruct (collect_fields_labels url title text created updated anchors)
    as [o3 [instrument [activity [H3 L]]]].
  rewrite Hopp in H3. apply ok_inj in H3. subst o3.
  destruct L as [Hagency [Hnumber [Hcat [Hexpl [Hins [Hact [Hfi Hfc]]]]]]].
  change (agency_name (apply_tags opp0)) with (agency_name opp0).
  change (opportunity_number (apply_tags opp0)) with (opportunity_number opp0).
  change (category (apply_tags opp0)) with (category opp0).
  change (category_explanation (apply_tags opp0))
    with (category_explanation opp0).
  change (post_date (apply_tags opp0)) with (post_date opp0).
  change (close_date (apply_tags opp0)) with (close_date opp0).
  change (archive_date (apply_tags opp0)) with (archive_date opp0).
  change (is_cost_sharing (apply_tags opp0)) with (is_cost_sharing opp0).
  change (funding_instruments (apply_tags opp0))
    with (funding_instruments opp0).
  change (funding_categories (apply_tags opp0)) with (funding_categories opp0).
  change (opportunity_assistance_listings (apply_tags opp0))
    with (opportunity_assistance_listings opp0).
  repeat split.
  - intros H. apply missing_label in H. rewrite H in Hagency.
    symmetry. exact (ok_inj Hagency).
  - intros H. apply missing_label in H. rewrite H in Hnumber.
    symmetry. exact (ok_inj Hnumber).
  - intros H. apply missing_label in H. rewrite H in Hcat.
    symmetry. exact (ok_inj Hcat).
  - intros H. apply missing_label in H. rewrite H in Hexpl.
    symmetry. exact (ok_inj Hexpl).
  - intros H. apply missing_label in H. rewrite H in Hposted.
    apply ok_inj in Hposted. subst posted_raw.
    symmetry. exact (ok_inj Hp).
  - intros A1 A2 A3. apply missing_label in A1, A2, A3.
    rewrite A1 in Hc1. rewrite A2 in Hc2. rewrite A3 in Hc3.
    apply ok_inj in Hc1, Hc2, Hc3. subst c1 c2 c3.
    symmetry. exact (ok_inj Hc).
  - intros H. apply missing_label in H. rewrite H in Harchive.
    apply ok_inj in Harchive. subst archive_raw.
    symmetry. exact (ok_inj Ha).
  - intros H. apply missing_label in H. rewrite H in Hcs.
    apply ok_inj in Hcs. subst cs. exact Hflag.
  - intros H. apply missing_label in H. rewrite H in Hins.
    apply ok_inj in Hins. subst instrument. exact Hfi.
  - intros H. apply missing_label in H. rewrite H in Hact.
    apply ok_inj in Hact. subst activity. exact Hfc.
  - intros H. apply missing_label in H. rewrite H in Hal.
    apply ok_inj in Hal. subst al. exact Hl.
Qed.

End MissingLabels.

(** C9, as the code has it. On every string [find_label], [to_iso_date],
    [first_date_token] and [extract_opportunity_id] return a value or
    [None], and so do [to_iso_date] and [first_date_token] on [None], which
    their parameter allows; none of them raises there. On [None], which
    their parameter does not allow, [find_label] and
    [extract_opportunity_id] raise a [TypeError]. The record assembly, which
    hands them strings only, returns a record whatever the page text is,
    and a label that the page does not have leaves its field unset. *)
Theorem extractors_never_raise :
  (forall text label : pystr, exists v, find_label text label = Ok v)
  /\ (forall s : option pystr, exists v, to_iso_date s = Ok v)
  /\ (forall s : option pystr, exists v, first_date_token s = Ok v)
  /\ (forall url : pystr, exists v, extract_opportunity_id url = Ok v)
  /\ (forall label : pystr, find_label_any None label = Raise TypeError)
  /\ extract_opportunity_id_any None = Raise TypeError
  /\ (forall (url title text created updated : pystr)
             (anchors : list anchor),
        exists opp,
          assemble url title text created updated anchors = Ok opp
          /\ (label_absent (str "Agency") (clean text) ->
              agency_name opp = None)
          /\ (label_absent (str "Funding opportunity number") (clean text) ->
              opportunity_number opp = None)
          /\ (label_absent (str "Opportunity Category") (clean text) ->
              category opp = None)
          /\ (label_absent (str "Opportunity Category Explanation")
                (clean text) ->
              category_explanation opp = None)
          /\ (label_absent (str "Posted date") (clean text) ->
              post_date opp = None)
          /\ (label_absent (str "Closing") (clean text) ->
              label_absent (str "Close date") (clean text) ->
              label_absent (str "Closing date") (clean text) ->
              close_date opp = None)
          /\ (label_absent (str "Archive date") (clean text) ->
              archive_date opp = None)
          /\ (label_absent COST_SHARING_LABEL (clean text) ->
              is_cost_sharing opp = None)
          /\ (label_absent (str "Funding instrument type") (clean text) ->
              funding_instruments opp = None)
          /\ (label_absent (str "Category of Funding Activity")
                (clean text) ->
              funding_categories opp = None)
          /\ (label_absent (str "Assistance Listings") (clean text) ->
              opportunity_assistance_listings opp = None)).
Proof.
  split; [exact find_label_total|].
  split; [exact to_iso_date_total|].
  split; [exact first_date_token_total|].
  split; [exact extract_opportunity_id_total|].
  split; [reflexivity|]. split; [reflexivity|].
  intros url title text created updated anchors.
  destruct (assemble_returns url title text created updated anchors)
    as [opp Hopp].
  exists opp. split; [exact Hopp|]. exact (missing_labels_unset Hopp).
Qed.

Lemma extractors_never_raise_witness :
  label_absent (str "Posted date") (clean (str "Agency: NSF"))
  /\ exists opp,
       assemble detail_url (str "Title") (str "Agency: NSF") (str "T1")
         (str "T2") [] = Ok opp
       /\ post_date opp = None.
Proof.
  assert (Hclean : clean (clean (str "Agency: NSF")) = clean (str "Agency: NSF"))
    by apply clean_idempotent.
  assert (Hnone : find_label (clean (str "Agency: NSF")) (str "Posted date")
                  = Ok None) by (vm_compute; reflexivity).
  assert (Habs : label_absent (str "Posted date") (clean (str "Agency: NSF")))
    by exact (proj1 (find_label_none_iff (str "Posted date") Hclean) Hnone).
  split; [exact Habs|].
  destruct extractors_never_raise as [_ [_ [_ [_ [_ [_ Hrec]]]]]].
  destruct (Hrec detail_url (str "Title") (str "Agency: NSF") (str "T1")
              (str "T2") [])
    as [opp [Hopp [_ [_ [_ [_ [Hposted _]]]]]]].
  exists opp. split; [exact Hopp|exact (Hposted Habs)].
Defined.

(** C9 as the specification words it, with absent input among the inputs
    and with label text that only narrows the populated fields:
    [find_label] and [extract_opportunity_id] raise on [None]; and of two
    pages that differ in the label "Closing: TBD" alone, the page that has
    it gives no close date and no tag, the page without it gives the close
    date 2025-08-01 and the tag [has_deadline]. *)
Lemma closing_tbd_hides_close_date :
  find_label_any None (str "Agency") = Raise TypeError
  /\ extract_opportunity_id_any None = Raise TypeError
  /\ find_label (clean tbd_page) (str "Closing") = Ok (Some (str "TBD"))
  /\ find_label (clean close_date_page) (str "Closing") = Ok None
  /\ exists opp_with opp_without,
       assemble detail_url (str "Title") tbd_page (str "T1") (str "T2") []
       = Ok opp_with
       /\ assemble detail_url (str "Title") close_date_page (str "T1")
            (str "T2") []
          = Ok opp_without
       /\ close_date opp_with = None /\ tags opp_with = []
       /\ close_date opp_without = Some (str "2025-08-01")
       /\ tags opp_without = [str "has_deadline"].
Proof.
  split; [reflexivity|]. split; [reflexivity|].
  split; [vm_compute; reflexivity|]. split; [vm_compute; reflexivity|].
  destruct (assemble_returns detail_url (str "Title") tbd_page (str "T1")
              (str "T2") []) as [o1 H1].
  destruct (assemble_returns detail_url (str "Title") close_date_page
              (str "T1") (str "T2") []) as [o2 H2].
  exists o1, o2. split; [exact H1|]. split; [exact H2|].
  revert H1 H2. vm_compute. intros H1 H2.
  inversion H1. inversion H2. repeat split; reflexivity.
Qed.
